(** * VUNA-Calc: the calculator script [assets/js/script.js]

    A shallow embedding of the calculator's script and the properties its
    specification states about it.

    - JavaScript strings are sequences of UTF-16 code units ([jsstring]).
    - JavaScript Numbers are IEEE-754 binary64 values, modelled by the
      Standard Library's [spec_float] at precision 53 and maximal exponent
      1024, with the round-to-nearest-even operations of [SpecFloat].
    - The built-ins the script calls ([String.prototype.includes], [replace],
      [split], [trim], [parseFloat], [parseInt], [Number.prototype.toString],
      [Number.prototype.toFixed], [Math.floor], [JSON.parse], and the
      [Function] constructor on the sanitized alphabet) follow ECMA-262.
    - The page is taken to have the elements and templates that the script
      asks for.  What the handlers write on the page is left out of their
      models: [updateResult], with which they end, is the page that is shown
      for a state; of [renderHistory], which reads every record of the
      history, the model keeps whether it returns or throws.  The speech API
      is left out.
    - [localStorage] is the item under the script's key and a quota beyond
      which [setItem] throws.  The item is read once at startup, and
      [loadHistoryFromStorage] takes what [getItem] gave as an argument. *)

From Stdlib Require Import ZArith NArith List Bool Lia String Ascii.
From Stdlib Require Import Floats.SpecFloat.
Import ListNotations.
Local Open Scope Z_scope.

(* ================================================================= *)
(** ** Strings *)

(** A UTF-16 code unit. *)
Definition jschar := N.
Definition jsstring := list jschar.

(** The code units of an ASCII literal. *)
Definition str (s : string) : jsstring :=
  map N_of_ascii (list_ascii_of_string s).

Definition ch (a : ascii) : jschar := N_of_ascii a.

Definition isDigit (c : jschar) : bool := (48 <=? c)%N && (c <=? 57)%N.

Definition digitVal (c : jschar) : Z := Z.of_N c - 48.

Definition digitChar (d : Z) : jschar := Z.to_N (48 + d).

Fixpoint jsstring_eqb (a b : jsstring) : bool :=
  match a, b with
  | [], [] => true
  | c :: a', d :: b' => (c =? d)%N && jsstring_eqb a' b'
  | _, _ => false
  end.

Fixpoint startsWith (p s : jsstring) : bool :=
  match p, s with
  | [], _ => true
  | c :: p', d :: s' => (c =? d)%N && startsWith p' s'
  | _ :: _, [] => false
  end.

(** [s.includes(p)] *)
Fixpoint includes (s p : jsstring) : bool :=
  startsWith p s ||
  match s with
  | [] => false
  | _ :: s' => includes s' p
  end.

(** WhiteSpace and LineTerminator code units (what [trim] and the numeric
    parsers strip). *)
Definition isWhiteSpace (c : jschar) : bool :=
  ((9 <=? c) && (c <=? 13) || (c =? 32) || (c =? 160) || (c =? 5760)
   || (8192 <=? c) && (c <=? 8202) || (c =? 8232) || (c =? 8233)
   || (c =? 8239) || (c =? 8287) || (c =? 12288) || (c =? 65279))%N.

Fixpoint trimStart (s : jsstring) : jsstring :=
  match s with
  | c :: s' => if isWhiteSpace c then trimStart s' else s
  | [] => []
  end.

Definition trimEnd (s : jsstring) : jsstring := rev (trimStart (rev s)).

(** [s.trim()] *)
Definition trim (s : jsstring) : jsstring := trimEnd (trimStart s).

(** [s.replace(/c/g, r)] for a single character [c]. *)
Definition replaceChar (c : jschar) (r : jsstring) (s : jsstring) : jsstring :=
  flat_map (fun d => if (d =? c)%N then r else [d]) s.

(** [s.split(sep)] for a single character separator. *)
Fixpoint splitChar (sep : jschar) (s : jsstring) : list jsstring :=
  match s with
  | [] => [[]]
  | c :: s' =>
      if (c =? sep)%N then [] :: splitChar sep s'
      else match splitChar sep s' with
           | p :: ps => (c :: p) :: ps
           | [] => [[c]]
           end
  end.

(** [a.join(sep)] *)
Fixpoint join (sep : jsstring) (l : list jsstring) : jsstring :=
  match l with
  | [] => []
  | [x] => x
  | x :: l' => x ++ sep ++ join sep l'
  end.

(** The longest prefix of decimal digits, and what follows it. *)
Fixpoint spanDigits (s : jsstring) : jsstring * jsstring :=
  match s with
  | c :: s' =>
      if isDigit c then let (ds, r) := spanDigits s' in (c :: ds, r)
      else ([], s)
  | [] => ([], [])
  end.

(** The integer a string of decimal digits denotes. *)
Definition digitsValue (ds : jsstring) : Z :=
  fold_left (fun acc c => 10 * acc + digitVal c) ds 0.

(* ================================================================= *)
(** ** Numbers *)

Definition prec : Z := 53.
Definition emax : Z := 1024.

(** A JavaScript Number. *)
Definition number := spec_float.

Definition NaN : number := S754_nan.
Definition Infinity : number := S754_infinity false.
Definition posZero : number := S754_zero false.

Definition Number_add : number -> number -> number := SFadd prec emax.
Definition Number_subtract : number -> number -> number := SFsub prec emax.
Definition Number_multiply : number -> number -> number := SFmul prec emax.
Definition Number_divide : number -> number -> number := SFdiv prec emax.
Definition Number_unaryMinus : number -> number := SFopp.
Definition Number_lessThan : number -> number -> bool := SFltb.
Definition Number_equal : number -> number -> bool := SFeqb.
Definition Math_abs : number -> number := SFabs.

Definition Number_isNaN (x : number) : bool :=
  match x with S754_nan => true | _ => false end.

Definition Number_isFinite (x : number) : bool :=
  match x with S754_nan | S754_infinity _ => false | _ => true end.

(** The Number nearest to [m * 10^k] ([m >= 0]), ties to even: the value of a
    decimal literal, of [parseFloat] and of [parseInt].  (ECMA-262 lets an
    implementation drop digits after the 20th; the exact rounding that the
    engines implement is modelled.) *)
Definition decimalToNumber (neg : bool) (m k : Z) : number :=
  match m with
  | Zpos p =>
      if 0 <=? k then binary_normalize prec emax (Z.mul (if neg then Zneg p else Zpos p) (10 ^ k)) 0 neg
      else SFdiv prec emax (S754_finite neg p 0)
                           (S754_finite false (Z.to_pos (10 ^ (- k))) 0)
  | _ => S754_zero neg
  end.

Definition Z_to_number (z : Z) : number := binary_normalize prec emax z 0 false.

(** [Math.floor] *)
Definition Math_floor (x : number) : number :=
  match x with
  | S754_finite s m e =>
      if 0 <=? e then x
      else
        let q := Z.shiftr (if s then Zneg m else Zpos m) (- e) in
        binary_normalize prec emax q 0 s
  | _ => x
  end.

(** The integer an integral Number holds ([0] for the rest). *)
Definition number_to_Z (x : number) : Z :=
  match x with
  | S754_finite s m e =>
      let v := if 0 <=? e then Z.shiftl (Zpos m) e else Z.shiftr (Zpos m) (- e) in
      if s then - v else v
  | _ => 0
  end.

(** [n % d]: the exact remainder of the truncating division. *)
Definition Number_remainder (n d : number) : number :=
  match n, d with
  | S754_nan, _ | _, S754_nan => NaN
  | S754_infinity _, _ => NaN
  | _, S754_infinity _ => n
  | _, S754_zero _ => NaN
  | S754_zero _, _ => n
  | S754_finite sn mn en, S754_finite _ md ed =>
      let e0 := Z.min en ed in
      let zn := Z.shiftl (Zpos mn) (en - e0) in
      let zd := Z.shiftl (Zpos md) (ed - e0) in
      let r := Z.rem zn zd in
      binary_normalize prec emax (if sn then - r else r) e0 sn
  end.

(** *** Number::toString (radix 10) *)

Fixpoint digitsOfFuel (fuel : nat) (z : Z) (acc : jsstring) : jsstring :=
  match fuel with
  | O => acc
  | S f =>
      if z <? 10 then digitChar z :: acc
      else digitsOfFuel f (z / 10) (digitChar (z mod 10) :: acc)
  end.

(** The decimal digits of a non-negative integer. *)
Definition digitsOf (z : Z) : jsstring :=
  digitsOfFuel (S (Z.to_nat (Z.log2 z))) z [].

(** A positive finite Number as the fraction [num / den]. *)
Definition fractionOf (m : positive) (e : Z) : Z * Z :=
  if 0 <=? e then (Z.shiftl (Zpos m) e, 1) else (Zpos m, Z.shiftl 1 (- e)).

(** [num / den] against [10^t]. *)
Definition geqPow10 (num den t : Z) : bool :=
  if 0 <=? t then den * 10 ^ t <=? num else den <=? num * 10 ^ (- t).

(** The [n] with [10^(n-1) <= num/den < 10^n]. *)
Definition decimalExponent (num den : Z) : Z :=
  let t := Z.of_nat (List.length (digitsOf num)) - Z.of_nat (List.length (digitsOf den)) in
  if geqPow10 num den t then t + 1 else t.

(** [floor ((num/den) / 10^q)] *)
Definition scaledFloor (num den q : Z) : Z :=
  if 0 <=? q then num / (den * 10 ^ q) else (num * 10 ^ (- q)) / den.

(** [2 * (num/den)] against [c * 10^q]. *)
Definition compareScaled (num den c q : Z) : comparison :=
  if 0 <=? q then Z.compare (2 * num) (c * 10 ^ q * den)
  else Z.compare (2 * num * 10 ^ (- q)) (c * den).

(** The digits [s] (as an integer of [k] digits) and the exponent [n] of
    Number::toString: [k] as small as possible with [s * 10^(n-k)] reading
    back as [x], and [s] the closest to [x] (the even one on a tie). *)
Fixpoint shortestDigits (fuel : nat) (x : number) (num den n k : Z) : Z * Z :=
  let q := n - k in
  let lo := scaledFloor num den q in
  let hi := lo + 1 in
  let okLo := SFeqb (decimalToNumber false lo q) x in
  let okHi := SFeqb (decimalToNumber false hi q) x in
  let pick s := if s =? 10 ^ k then (1, n + 1) else (s, n) in
  match fuel with
  | O => pick lo
  | S f =>
      match okLo, okHi with
      | true, true =>
          match compareScaled num den (lo + hi) q with
          | Lt => pick lo
          | Gt => pick hi
          | Eq => if Z.even lo then pick lo else pick hi
          end
      | true, false => pick lo
      | false, true => pick hi
      | false, false => shortestDigits f x num den n (k + 1)
      end
  end.

Definition zeros (n : Z) : jsstring := repeat (ch "0") (Z.to_nat n).

(** Number::toString of a positive finite Number. *)
Definition positiveToString (m : positive) (e : Z) : jsstring :=
  let (num, den) := fractionOf m e in
  let n0 := decimalExponent num den in
  let (s, n) := shortestDigits 17 (S754_finite false m e) num den n0 1 in
  let ds := digitsOf s in
  let k := Z.of_nat (List.length ds) in
  if (k <=? n) && (n <=? 21) then ds ++ zeros (n - k)
  else if (0 <? n) && (n <=? 21) then
    firstn (Z.to_nat n) ds ++ ch "." :: skipn (Z.to_nat n) ds
  else if (-6 <? n) && (n <=? 0) then
    ch "0" :: ch "." :: zeros (- n) ++ ds
  else
    let ex := (if 0 <? n - 1 then ch "+" else ch "-") :: digitsOf (Z.abs (n - 1)) in
    match ds with
    | [d] => d :: ch "e" :: ex
    | d :: ds' => d :: ch "." :: ds' ++ ch "e" :: ex
    | [] => []
    end.

(** [x.toString()] *)
Definition Number_toString (x : number) : jsstring :=
  match x with
  | S754_nan => str "NaN"
  | S754_zero _ => str "0"
  | S754_infinity s => if s then str "-Infinity" else str "Infinity"
  | S754_finite s m e =>
      if s then ch "-" :: positiveToString m e else positiveToString m e
  end.

(** [x.toFixed(10)] *)
Definition Number_toFixed10 (x : number) : jsstring :=
  match x with
  | S754_nan | S754_infinity _ => Number_toString x
  | S754_zero _ => str "0.0000000000"
  | S754_finite s m e =>
      let (num, den) := fractionOf m e in
      let sign := if s then [ch "-"] else [] in
      if 10 ^ 21 * den <=? num then sign ++ positiveToString m e
      else
        (* the integer n with n / 10^10 closest to x, the larger on a tie *)
        let n := (2 * num * 10 ^ 10 + den) / (2 * den) in
        let ds := digitsOf n in
        let ds := zeros (11 - Z.of_nat (List.length ds)) ++ ds in
        let k := (List.length ds - 10)%nat in
        sign ++ firstn k ds ++ ch "." :: skipn k ds
  end.

(** *** Reading numbers: StrDecimalLiteral, [parseFloat], [parseInt] *)

Definition scanSign (s : jsstring) : bool * jsstring :=
  match s with
  | c :: r =>
      if (c =? ch "-")%N then (true, r)
      else if (c =? ch "+")%N then (false, r)
      else (false, s)
  | [] => (false, [])
  end.

(** An ExponentPart at the head of [s]: its value and what follows; without
    one, [0] and [s]. *)
Definition scanExponent (s : jsstring) : Z * jsstring :=
  match s with
  | c :: r =>
      if (c =? ch "e")%N || (c =? ch "E")%N then
        let (neg, r1) := scanSign r in
        match spanDigits r1 with
        | ([], _) => (0, s)
        | (ds, r2) => (if neg then - digitsValue ds else digitsValue ds, r2)
        end
      else (0, s)
  | [] => (0, [])
  end.

(** The longest StrDecimalLiteral at the head of [s]: its Number and what
    follows it. *)
Definition scanDecimal (s : jsstring) : option (number * jsstring) :=
  let (neg, t) := scanSign s in
  if startsWith (str "Infinity") t then
    Some (S754_infinity neg, skipn 8 t)
  else
    let (ip, r1) := spanDigits t in
    let (fp, r2) :=
      match r1 with
      | c :: r' => if (c =? ch ".")%N then spanDigits r' else ([], r1)
      | [] => ([], [])
      end in
    match ip, fp with
    | [], [] => None
    | _, _ =>
        let (ex, r3) := scanExponent r2 in
        Some (decimalToNumber neg (digitsValue (ip ++ fp))
                (ex - Z.of_nat (List.length fp)), r3)
    end.

(** [parseFloat(s)] for a string [s] *)
Definition parseFloat (s : jsstring) : number :=
  match scanDecimal (trimStart s) with
  | Some (x, _) => x
  | None => NaN
  end.

Definition hexVal (c : jschar) : option Z :=
  if isDigit c then Some (digitVal c)
  else if ((97 <=? c) && (c <=? 102))%N then Some (Z.of_N c - 87)
  else if ((65 <=? c) && (c <=? 70))%N then Some (Z.of_N c - 55)
  else None.

Fixpoint scanRadix (radix : Z) (s : jsstring) (acc : option Z) : option Z :=
  match s with
  | c :: r =>
      match hexVal c with
      | Some d =>
          if d <? radix then
            scanRadix radix r (Some (radix * match acc with Some a => a | None => 0 end + d))
          else acc
      | None => acc
      end
  | [] => acc
  end.

(** [parseInt(s)] for a string [s], no radix given *)
Definition parseInt (s : jsstring) : number :=
  let (neg, t) := scanSign (trimStart s) in
  let (radix, t1) :=
    if startsWith (str "0x") t || startsWith (str "0X") t then (16, skipn 2 t)
    else (10, t) in
  match scanRadix radix t1 None with
  | Some v => decimalToNumber neg v 0
  | None => NaN
  end.

(** StringToNumber: [ToNumber] of a string *)
Definition StringToNumber (s : jsstring) : number :=
  let t := trim s in
  let nonDecimal (radix : Z) :=
    match skipn 2 t with
    | [] => NaN
    | ds =>
        if forallb (fun c => match hexVal c with Some d => d <? radix | None => false end) ds
        then match scanRadix radix ds None with
             | Some v => decimalToNumber false v 0
             | None => NaN
             end
        else NaN
    end in
  match t with
  | [] => posZero
  | _ =>
      if startsWith (str "0x") t || startsWith (str "0X") t then nonDecimal 16
      else if startsWith (str "0o") t || startsWith (str "0O") t then nonDecimal 8
      else if startsWith (str "0b") t || startsWith (str "0B") t then nonDecimal 2
      else match scanDecimal t with
           | Some (x, []) => x
           | _ => NaN
           end
  end.

(* ================================================================= *)
(** ** Values and completions *)

(** What the script passes around as a result: a string (the marker
    ["Error"]) or a Number. *)
Inductive value :=
| VStr (s : jsstring)
| VNum (x : number).

Definition ToString (v : value) : jsstring :=
  match v with
  | VStr s => s
  | VNum x => Number_toString x
  end.

Definition ToNumber (v : value) : number :=
  match v with
  | VStr s => StringToNumber s
  | VNum x => x
  end.

(** [v === s] for a string literal [s] *)
Definition strictEqualsString (v : value) (s : jsstring) : bool :=
  match v with
  | VStr t => jsstring_eqb t s
  | VNum _ => false
  end.

(** The global [isNaN] and [isFinite] *)
Definition isNaN (v : value) : bool := Number_isNaN (ToNumber v).
Definition isFinite (v : value) : bool := Number_isFinite (ToNumber v).

Inductive jsError := SyntaxError | TypeError.

(** How a call ends: it returns, it throws, or (for [**] alone) its value is
    the host's approximation, which ECMA-262 leaves open. *)
Inductive completion (A : Type) :=
| Returns (a : A)
| Throws (e : jsError)
| HostDefined.
Arguments Returns {A} a.
Arguments Throws {A} e.
Arguments HostDefined {A}.

Definition bind {A B} (c : completion A) (k : A -> completion B) : completion B :=
  match c with
  | Returns a => k a
  | Throws e => Throws e
  | HostDefined => HostDefined
  end.

Notation "x <- c ;; k" := (bind c (fun x => k))
  (at level 61, c at next level, right associativity).

(* ================================================================= *)
(** ** Number to words *)

Definition ones (i : Z) : jsstring :=
  match i with
  | 0 => str ""
  | 1 => str "One"
  | 2 => str "Two"
  | 3 => str "Three"
  | 4 => str "Four"
  | 5 => str "Five"
  | 6 => str "Six"
  | 7 => str "Seven"
  | 8 => str "Eight"
  | 9 => str "Nine"
  | _ => str "undefined"
  end.

Definition tens (i : Z) : jsstring :=
  match i with
  | 0 | 1 => str ""
  | 2 => str "Twenty"
  | 3 => str "Thirty"
  | 4 => str "Forty"
  | 5 => str "Fifty"
  | 6 => str "Sixty"
  | 7 => str "Seventy"
  | 8 => str "Eighty"
  | 9 => str "Ninety"
  | _ => str "undefined"
  end.

Definition teens (i : Z) : jsstring :=
  match i with
  | 0 => str "Ten"
  | 1 => str "Eleven"
  | 2 => str "Twelve"
  | 3 => str "Thirteen"
  | 4 => str "Fourteen"
  | 5 => str "Fifteen"
  | 6 => str "Sixteen"
  | 7 => str "Seventeen"
  | 8 => str "Eighteen"
  | 9 => str "Nineteen"
  | _ => str "undefined"
  end.

(** [scales[i] ? " " + scales[i] : ""] *)
Definition scaleSuffix (i : nat) : jsstring :=
  match i with
  | 1%nat => str " Thousand"
  | 2%nat => str " Million"
  | 3%nat => str " Billion"
  | 4%nat => str " Trillion"
  | _ => []
  end.

(** [convertGroup(val)]; [val] is [integerPart % 1000], an integer that the
    Number holds exactly. *)
Definition convertGroup (val : Z) : jsstring :=
  let res := [] in
  let '(res, val) :=
    if 100 <=? val then (res ++ ones (val / 100) ++ str " Hundred ", val mod 100)
    else (res, val) in
  let res :=
    if (10 <=? val) && (val <=? 19) then res ++ teens (val - 10) ++ str " "
    else if 20 <=? val then
      res ++ tens (val / 10)
          ++ (if negb (val mod 10 =? 0) then str "-" ++ ones (val mod 10) else [])
          ++ str " "
    else if 0 <? val then res ++ ones val ++ str " "
    else res in
  trim res.

(** The loop [while (integerPart > 0)]; every turn divides [integerPart] by
    1000, so the [fuel] that [numberToWords] gives it, beyond the 103 turns
    that the largest Number takes, is never used up. *)
Fixpoint wordsLoop (fuel : nat) (integerPart : number) (scaleIdx : nat)
    (wordArr : list jsstring) : list jsstring :=
  match fuel with
  | O => wordArr
  | S f =>
      if Number_lessThan posZero integerPart then
        let chunk := Number_remainder integerPart (Z_to_number 1000) in
        let wordArr :=
          if Number_lessThan posZero chunk then
            (convertGroup (number_to_Z chunk) ++ scaleSuffix scaleIdx) :: wordArr
          else wordArr in
        wordsLoop f (Math_floor (Number_divide integerPart (Z_to_number 1000)))
                  (S scaleIdx) wordArr
      else wordArr
  end.

(** [digit === "0" ? "Zero" : ones[parseInt(digit)]] *)
Definition digitWord (digit : jschar) : jsstring :=
  if (digit =? ch "0")%N then str "Zero"
  else match parseInt [digit] with
       | S754_finite false _ _ as d => ones (number_to_Z d)
       | _ => str "undefined"
       end.

Definition numberToWords (num : value) : jsstring :=
  if strictEqualsString num (str "Error") then str "Error"
  else if strictEqualsString num (str "") then str ""
  else
    let n := parseFloat (ToString num) in
    if Number_isNaN n then str ""
    else if Number_equal n posZero then str "Zero"
    else
      let sign := if Number_lessThan n posZero then str "Negative " else str "" in
      let absN := Math_abs n in
      let parts := splitChar (ch ".") (Number_toString absN) in
      let integerPart := parseInt (nth 0 parts []) in
      let decimalPart := nth_error parts 1 in
      let wordArr :=
        if Number_equal integerPart posZero then [str "Zero"]
        else wordsLoop 400 integerPart 0 [] in
      let result := sign ++ trim (join (str ", ") wordArr) in
      let result :=
        match decimalPart with
        | Some ((_ :: _) as digits) =>
            result ++ str " Point" ++ flat_map (fun digit => ch " " :: digitWord digit) digits
        | _ => result
        end in
      trim result.

(* ================================================================= *)
(** ** Expression to words *)

(** The state of a scan for the pattern of [expressionToWords] (one or more
    digits, an optional point, any digits): outside a match, inside the
    integer digits, or inside the digits after the point; [acc] holds the
    match so far, reversed. *)
Inductive numScan :=
| Outside
| InInteger (acc : jsstring)
| InFraction (acc : jsstring).

(** [s.replace(pattern, f)] for that pattern with the flag [g]: every match,
    from left to right, is replaced by what [f] gives for it; the text
    between the matches is kept. *)
Fixpoint replaceNumbersFrom (f : jsstring -> jsstring) (st : numScan)
    (s : jsstring) : jsstring :=
  match s with
  | [] =>
      match st with
      | Outside => []
      | InInteger acc | InFraction acc => f (rev acc)
      end
  | c :: s' =>
      match st with
      | Outside =>
          if isDigit c then replaceNumbersFrom f (InInteger [c]) s'
          else c :: replaceNumbersFrom f Outside s'
      | InInteger acc =>
          if isDigit c then replaceNumbersFrom f (InInteger (c :: acc)) s'
          else if (c =? ch ".")%N then replaceNumbersFrom f (InFraction (c :: acc)) s'
          else f (rev acc) ++ c :: replaceNumbersFrom f Outside s'
      | InFraction acc =>
          if isDigit c then replaceNumbersFrom f (InFraction (c :: acc)) s'
          else f (rev acc) ++ c :: replaceNumbersFrom f Outside s'
      end
  end.

Definition replaceNumbers (f : jsstring -> jsstring) (s : jsstring) : jsstring :=
  replaceNumbersFrom f Outside s.

Definition expressionToWords (expression : jsstring) (result : value) : jsstring :=
  let words :=
    replaceChar (ch ")") (str " close bracket")
      (replaceChar (ch "(") (str "open bracket ")
        (replaceChar (ch "-") (str " minus ")
          (replaceChar (ch "+") (str " plus ")
            (replaceChar (ch "/") (str " divided by ")
              (replaceChar (ch "*") (str " times ") expression))))) in
  let words :=
    replaceNumbers (fun m => numberToWords (VNum (parseFloat m))) words in
  let words := words ++ str " equals " ++ numberToWords result in
  trim words.

(* ================================================================= *)
(** ** The Function constructor on the sanitized alphabet

    [new Function("return " + cleanExpr)()] parses [cleanExpr] as the operand
    of one [return] statement and evaluates it.  [cleanExpr] is written with
    the digits and [+ - * / . ( )] only, so the part of ECMAScript that can
    occur is: decimal and legacy octal literals, regular expression literals,
    comments, the unary and binary operators [+ - * / **], parentheses and
    calls.  A character outside the alphabet is never passed; the lexer
    refuses it. *)

Definition allowedChar (c : jschar) : bool :=
  isDigit c || (c =? ch "+")%N || (c =? ch "-")%N || (c =? ch "*")%N
  || (c =? ch "/")%N || (c =? ch ".")%N || (c =? ch "(")%N || (c =? ch ")")%N.

(** [expr.replace(/[^0-9+\-*/.()]/g, "")] *)
Definition sanitize (expr : jsstring) : jsstring := filter allowedChar expr.

Inductive token :=
| TNum (x : number)
| TRegExp (body : jsstring)
| TPlus | TMinus | TStar | TStarStar | TSlash
| TLParen | TRParen
| TEllipsis.

Definition isOctalDigit (c : jschar) : bool := (48 <=? c)%N && (c <=? 55)%N.

Definition octalValue (ds : jsstring) : Z :=
  fold_left (fun acc c => 8 * acc + digitVal c) ds 0.

(** The NumericLiteral at the head of [s] (which starts with a digit, or with
    a point and a digit): its value and what follows it. *)
Definition lexNumber (s : jsstring) : number * jsstring :=
  let (ip, r1) := spanDigits s in
  let fraction (r : jsstring) :=
    match r with
    | c :: r' => if (c =? ch ".")%N then Some (spanDigits r') else None
    | [] => None
    end in
  match ip with
  | c0 :: _ :: _ =>
      if (c0 =? ch "0")%N && forallb isOctalDigit ip then
        (* LegacyOctalIntegerLiteral: no fraction *)
        (decimalToNumber false (octalValue ip) 0, r1)
      else
        match fraction r1 with
        | Some (fp, r2) =>
            (decimalToNumber false (digitsValue (ip ++ fp)) (- Z.of_nat (List.length fp)), r2)
        | None => (decimalToNumber false (digitsValue ip) 0, r1)
        end
  | _ =>
      match fraction r1 with
      | Some (fp, r2) =>
          (decimalToNumber false (digitsValue (ip ++ fp)) (- Z.of_nat (List.length fp)), r2)
      | None => (decimalToNumber false (digitsValue ip) 0, r1)
      end
  end.

(** What follows the end of a block comment, if it ends. *)
Fixpoint skipBlockComment (s : jsstring) : option jsstring :=
  match s with
  | c :: (d :: r) as s' =>
      if (c =? ch "*")%N && (d =? ch "/")%N then Some r else skipBlockComment s'
  | _ => None
  end.

(** The text up to the next [/] and what follows that [/]. *)
Fixpoint untilSlash (s : jsstring) : option (jsstring * jsstring) :=
  match s with
  | [] => None
  | c :: r =>
      if (c =? ch "/")%N then Some ([], r)
      else match untilSlash r with
           | Some (b, r') => Some (c :: b, r')
           | None => None
           end
  end.

(** A regular expression body over this alphabet is a pattern when its
    parentheses match and every quantifier ([+] or [*]) follows an atom. *)
Fixpoint validPattern (depth : nat) (quantifiable : bool) (s : jsstring) : bool :=
  match s with
  | [] => Nat.eqb depth 0
  | c :: r =>
      if (c =? ch "(")%N then validPattern (S depth) false r
      else if (c =? ch ")")%N then
        match depth with
        | O => false
        | S d => validPattern d true r
        end
      else if (c =? ch "+")%N || (c =? ch "*")%N then
        quantifiable && validPattern depth false r
      else validPattern depth true r
  end.

Definition consToken (t : token) (ts : option (list token)) : option (list token) :=
  match ts with
  | Some l => Some (t :: l)
  | None => None
  end.

(** The tokens of [s]; [None] is a SyntaxError.  [prevOperand] tells whether
    the last token ended an operand, where a [/] divides; elsewhere it opens
    a regular expression literal.  Each token takes a character at least, so
    a [fuel] of the length of [s] is enough. *)
Fixpoint lex (fuel : nat) (prevOperand : bool) (s : jsstring) : option (list token) :=
  match s with
  | [] => Some []
  | c :: r =>
      match fuel with
      | O => None
      | S f =>
          if isDigit c || (c =? ch ".")%N && match r with d :: _ => isDigit d | [] => false end
          then
            let (x, r') := lexNumber s in consToken (TNum x) (lex f true r')
          else if (c =? ch ".")%N then
            (* [...] spreads an argument; a lone point would need a property name *)
            if startsWith (str "..") r then consToken TEllipsis (lex f false (skipn 2 r))
            else None
          else if (c =? ch "+")%N then
            (* [++] needs an assignment target, and this alphabet writes none *)
            if startsWith (str "+") r then None
            else consToken TPlus (lex f false r)
          else if (c =? ch "-")%N then
            if startsWith (str "-") r then None
            else consToken TMinus (lex f false r)
          else if (c =? ch "*")%N then
            if startsWith (str "*") r then consToken TStarStar (lex f false (skipn 1 r))
            else consToken TStar (lex f false r)
          else if (c =? ch "(")%N then consToken TLParen (lex f false r)
          else if (c =? ch ")")%N then consToken TRParen (lex f true r)
          else if (c =? ch "/")%N then
            if startsWith (str "/") r then
              (* a line comment, up to the end of the body's line *)
              Some []
            else if startsWith (str "*") r then
              match skipBlockComment (skipn 1 r) with
              | Some r' => lex f prevOperand r'
              | None => None
              end
            else if prevOperand then consToken TSlash (lex f false r)
            else
              match untilSlash r with
              | Some (body, r') =>
                  (* flags are identifier characters: here, digits, and none is a flag *)
                  match r' with
                  | d :: _ =>
                      if isDigit d then None
                      else if validPattern 0 false body
                      then consToken (TRegExp body) (lex f true r')
                      else None
                  | [] =>
                      if validPattern 0 false body
                      then consToken (TRegExp body) (lex f true r')
                      else None
                  end
              | None => None
              end
          else None
      end
  end.

Inductive unop := UPlus | UMinus.
Inductive binop := Add | Sub | Mul | Div | Exp.

#[warnings="-register-all"]
Inductive expr :=
| ENum (x : number)
| ERegExp (body : jsstring)
| EUnary (op : unop) (e : expr)
| EBinary (op : binop) (a b : expr)
| ECall (callee : expr)
| ECallWith (callee argument : expr).

Definition parsed := option (expr * list token).

(** The expression grammar of ECMA-262, from AdditiveExpression down, as a
    recursive descent; [None] is a SyntaxError.  Every call goes one level
    down or past one token, and [parseProgram] gives fuel for both. *)
Fixpoint parseAdditive (fuel : nat) (ts : list token) {struct fuel} : parsed :=
  match fuel with
  | O => None
  | S f =>
      match parseMultiplicative f ts with
      | Some (a, r) => additiveLoop f a r
      | None => None
      end
  end
with additiveLoop (fuel : nat) (a : expr) (ts : list token) {struct fuel} : parsed :=
  match fuel with
  | O => None
  | S f =>
      match ts with
      | TPlus :: r =>
          match parseMultiplicative f r with
          | Some (b, r') => additiveLoop f (EBinary Add a b) r'
          | None => None
          end
      | TMinus :: r =>
          match parseMultiplicative f r with
          | Some (b, r') => additiveLoop f (EBinary Sub a b) r'
          | None => None
          end
      | _ => Some (a, ts)
      end
  end
with parseMultiplicative (fuel : nat) (ts : list token) {struct fuel} : parsed :=
  match fuel with
  | O => None
  | S f =>
      match parseExponentiation f ts with
      | Some (a, r) => multiplicativeLoop f a r
      | None => None
      end
  end
with multiplicativeLoop (fuel : nat) (a : expr) (ts : list token) {struct fuel} : parsed :=
  match fuel with
  | O => None
  | S f =>
      match ts with
      | TStar :: r =>
          match parseExponentiation f r with
          | Some (b, r') => multiplicativeLoop f (EBinary Mul a b) r'
          | None => None
          end
      | TSlash :: r =>
          match parseExponentiation f r with
          | Some (b, r') => multiplicativeLoop f (EBinary Div a b) r'
          | None => None
          end
      | _ => Some (a, ts)
      end
  end
with parseExponentiation (fuel : nat) (ts : list token) {struct fuel} : parsed :=
  match fuel with
  | O => None
  | S f =>
      match ts with
      | TPlus :: _ | TMinus :: _ =>
          (* a unary expression is no base of [**]: a [**] after it is left
             over, and refused by who called *)
          parseUnary f ts
      | _ =>
          match parseCall f ts with
          | Some (a, TStarStar :: r) =>
              match parseExponentiation f r with
              | Some (b, r') => Some (EBinary Exp a b, r')
              | None => None
              end
          | res => res
          end
      end
  end
with parseUnary (fuel : nat) (ts : list token) {struct fuel} : parsed :=
  match fuel with
  | O => None
  | S f =>
      match ts with
      | TPlus :: r =>
          match parseUnary f r with
          | Some (e, r') => Some (EUnary UPlus e, r')
          | None => None
          end
      | TMinus :: r =>
          match parseUnary f r with
          | Some (e, r') => Some (EUnary UMinus e, r')
          | None => None
          end
      | _ => parseCall f ts
      end
  end
with parseCall (fuel : nat) (ts : list token) {struct fuel} : parsed :=
  match fuel with
  | O => None
  | S f =>
      match parsePrimary f ts with
      | Some (a, r) => callLoop f a r
      | None => None
      end
  end
with callLoop (fuel : nat) (a : expr) (ts : list token) {struct fuel} : parsed :=
  match fuel with
  | O => None
  | S f =>
      match ts with
      | TLParen :: TRParen :: r => callLoop f (ECall a) r
      | TLParen :: TEllipsis :: r =>
          match parseAdditive f r with
          | Some (b, TRParen :: r') => callLoop f (ECallWith a b) r'
          | _ => None
          end
      | TLParen :: r =>
          match parseAdditive f r with
          | Some (b, TRParen :: r') => callLoop f (ECallWith a b) r'
          | _ => None
          end
      | _ => Some (a, ts)
      end
  end
with parsePrimary (fuel : nat) (ts : list token) {struct fuel} : parsed :=
  match fuel with
  | O => None
  | S f =>
      match ts with
      | TNum x :: r => Some (ENum x, r)
      | TRegExp body :: r => Some (ERegExp body, r)
      | TLParen :: r =>
          match parseAdditive f r with
          | Some (e, TRParen :: r') => Some (e, r')
          | _ => None
          end
      | _ => None
      end
  end.

(** The operand of [return]: none (the function returns [undefined]) or one
    expression that takes all the tokens. *)
Definition parseProgram (ts : list token) : option (option expr) :=
  match ts with
  | [] => Some None
  | _ =>
      match parseAdditive (9 * S (List.length ts)) ts with
      | Some (e, []) => Some (Some e)
      | _ => None
      end
  end.

(** What an expression of this fragment evaluates to. *)
Inductive engineValue :=
| Undefined
| Num (x : number)
| Str (s : jsstring)
| RegExpObject (source : jsstring).

Definition ToPrimitive (v : engineValue) : engineValue :=
  match v with
  | RegExpObject source => Str (ch "/" :: source ++ [ch "/"])
  | _ => v
  end.

Definition engineToNumber (v : engineValue) : number :=
  match ToPrimitive v with
  | Num x => x
  | Str s => StringToNumber s
  | _ => NaN
  end.

Definition engineToString (v : engineValue) : jsstring :=
  match ToPrimitive v with
  | Num x => Number_toString x
  | Str s => s
  | _ => str "undefined"
  end.

Definition isOddInteger (x : number) : bool :=
  match x with
  | S754_finite _ m e =>
      if 0 <? e then false
      else (Z.shiftl (Z.shiftr (Zpos m) (- e)) (- e) =? Zpos m)
           && Z.odd (Z.shiftr (Zpos m) (- e))
  | _ => false
  end.

Definition isInteger (x : number) : bool :=
  match x with
  | S754_finite _ m e =>
      (0 <=? e) || (Z.shiftl (Z.shiftr (Zpos m) (- e)) (- e) =? Zpos m)
  | S754_zero _ => true
  | _ => false
  end.

(** Number::exponentiate: ECMA-262 fixes the value at NaN, the zeros and the
    infinities, and leaves the rest to the host's approximation. *)
Definition Number_exponentiate (base exponent : number) : completion number :=
  let one := Z_to_number 1 in
  let negative (x : number) := Number_lessThan x posZero in
  match exponent, base with
  | S754_nan, _ => Returns NaN
  | S754_zero _, _ => Returns one
  | _, S754_nan => Returns NaN
  | _, S754_infinity false =>
      Returns (if negative exponent then posZero else Infinity)
  | _, S754_infinity true =>
      Returns (if negative exponent
               then (if isOddInteger exponent then S754_zero true else posZero)
               else (if isOddInteger exponent then S754_infinity true else Infinity))
  | _, S754_zero false =>
      Returns (if negative exponent then Infinity else posZero)
  | _, S754_zero true =>
      Returns (if negative exponent
               then (if isOddInteger exponent then S754_infinity true else Infinity)
               else (if isOddInteger exponent then S754_zero true else posZero))
  | S754_infinity s, _ =>
      match SFcompare (Math_abs base) one with
      | Some Gt => Returns (if s then posZero else Infinity)
      | Some Lt => Returns (if s then Infinity else posZero)
      | _ => Returns NaN
      end
  | S754_finite _ _ _, S754_finite sb _ _ =>
      if sb && negb (isInteger exponent) then Returns NaN else HostDefined
  end.

Definition applyBinary (op : binop) (l r : engineValue) : completion engineValue :=
  match op with
  | Add =>
      match ToPrimitive l, ToPrimitive r with
      | Str _, _ | _, Str _ => Returns (Str (engineToString l ++ engineToString r))
      | _, _ => Returns (Num (Number_add (engineToNumber l) (engineToNumber r)))
      end
  | Sub => Returns (Num (Number_subtract (engineToNumber l) (engineToNumber r)))
  | Mul => Returns (Num (Number_multiply (engineToNumber l) (engineToNumber r)))
  | Div => Returns (Num (Number_divide (engineToNumber l) (engineToNumber r)))
  | Exp =>
      x <- Number_exponentiate (engineToNumber l) (engineToNumber r) ;;
      Returns (Num x)
  end.

Fixpoint evaluate (e : expr) : completion engineValue :=
  match e with
  | ENum x => Returns (Num x)
  | ERegExp body => Returns (RegExpObject body)
  | EUnary UPlus a =>
      v <- evaluate a ;; Returns (Num (engineToNumber v))
  | EUnary UMinus a =>
      v <- evaluate a ;; Returns (Num (Number_unaryMinus (engineToNumber v)))
  | EBinary op a b =>
      l <- evaluate a ;; r <- evaluate b ;; applyBinary op l r
  | ECall _ | ECallWith _ _ =>
      (* no value of this fragment is a function (and none can be spread):
         the call throws, whatever callee and argument are *)
      Throws TypeError
  end.

(** [new Function("return " + cleanExpr)()] *)
Definition Function_return (cleanExpr : jsstring) : completion engineValue :=
  match lex (List.length cleanExpr) false cleanExpr with
  | None => Throws SyntaxError
  | Some ts =>
      match parseProgram ts with
      | None => Throws SyntaxError
      | Some None => Returns Undefined
      | Some (Some e) => evaluate e
      end
  end.

(** [result.toFixed(10)]: a method of Numbers only *)
Definition toFixed10 (result : engineValue) : completion jsstring :=
  match result with
  | Num x => Returns (Number_toFixed10 x)
  | _ => Throws TypeError
  end.

(** [try { body } catch (e) { handler }] *)
Definition tryCatch {A} (body : completion A) (handler : jsError -> completion A)
  : completion A :=
  match body with
  | Throws e => handler e
  | c => c
  end.

(** [evaluateExpression(expr)], the Function constructor and the call of
    what it builds passed as [construct]. *)
Definition evaluateExpressionWith
    (construct : jsstring -> completion engineValue) (expr : jsstring)
  : completion value :=
  if includes expr (str "/0") then Returns (VStr (str "Error"))
  else
    let cleanExpr := sanitize expr in
    tryCatch
      (result <- construct cleanExpr ;;
       fixed <- toFixed10 result ;;
       Returns (VNum (parseFloat fixed)))
      (fun _ => Returns (VStr (str "Error"))).

Definition evaluateExpression (expr : jsstring) : completion value :=
  evaluateExpressionWith Function_return expr.

(* ================================================================= *)
(** ** JSON.parse *)

(** What [JSON.parse] returns, and what the history holds. *)
#[warnings="-register-all"]
Inductive json :=
| JNull
| JBool (b : bool)
| JNumber (x : number)
| JString (s : jsstring)
| JArray (items : list json)
| JObject (props : list (jsstring * json)).

Definition isJsonSpace (c : jschar) : bool :=
  ((c =? 9) || (c =? 10) || (c =? 13) || (c =? 32))%N.

Fixpoint skipJsonSpace (s : jsstring) : jsstring :=
  match s with
  | c :: r => if isJsonSpace c then skipJsonSpace r else s
  | [] => []
  end.

(** The characters of a JSON string after its opening quote, up to the
    closing one, with the escapes read. *)
Fixpoint jsonStringBody (s : jsstring) : option (jsstring * jsstring) :=
  match s with
  | [] => None
  | c :: r =>
      if (c =? 34)%N then Some ([], r)
      else if (c <? 32)%N then None
      else if (c =? 92)%N then
        match r with
        | e :: r1 =>
            let simple (d : jschar) :=
              match jsonStringBody r1 with
              | Some (b, r2) => Some (d :: b, r2)
              | None => None
              end in
            if (e =? 34)%N then simple 34%N
            else if (e =? 92)%N then simple 92%N
            else if (e =? ch "/")%N then simple (ch "/")
            else if (e =? ch "b")%N then simple 8%N
            else if (e =? ch "f")%N then simple 12%N
            else if (e =? ch "n")%N then simple 10%N
            else if (e =? ch "r")%N then simple 13%N
            else if (e =? ch "t")%N then simple 9%N
            else if (e =? ch "u")%N then
              match r1 with
              | h1 :: h2 :: h3 :: h4 :: r2 =>
                  match hexVal h1, hexVal h2, hexVal h3, hexVal h4 with
                  | Some a, Some b, Some c', Some d =>
                      match jsonStringBody r2 with
                      | Some (body, r3) =>
                          Some (Z.to_N (((a * 16 + b) * 16 + c') * 16 + d) :: body, r3)
                      | None => None
                      end
                  | _, _, _, _ => None
                  end
              | _ => None
              end
            else None
        | [] => None
        end
      else
        match jsonStringBody r with
        | Some (b, r') => Some (c :: b, r')
        | None => None
        end
  end.

(** A JSON number at the head of [s]. *)
Definition jsonNumber (s : jsstring) : option (number * jsstring) :=
  let (neg, t) :=
    match s with
    | c :: r => if (c =? ch "-")%N then (true, r) else (false, s)
    | [] => (false, [])
    end in
  let (ip, r1) := spanDigits t in
  match ip with
  | [] => None
  | c0 :: ip' =>
      if (c0 =? ch "0")%N && negb (match ip' with [] => true | _ => false end) then None
      else
        let frac :=
          match r1 with
          | c :: r' =>
              if (c =? ch ".")%N then
                match spanDigits r' with
                | ([], _) => None
                | (fp, r2) => Some (fp, r2)
                end
              else Some ([], r1)
          | [] => Some ([], [])
          end in
        match frac with
        | None => None
        | Some (fp, r2) =>
            let exponent :=
              match r2 with
              | c :: r' =>
                  if (c =? ch "e")%N || (c =? ch "E")%N then
                    let (eneg, r3) := scanSign r' in
                    match spanDigits r3 with
                    | ([], _) => None
                    | (ds, r4) => Some (if eneg then - digitsValue ds else digitsValue ds, r4)
                    end
                  else Some (0, r2)
              | [] => Some (0, [])
              end in
            match exponent with
            | None => None
            | Some (ex, r5) =>
                Some (decimalToNumber neg (digitsValue (ip ++ fp))
                        (ex - Z.of_nat (List.length fp)), r5)
            end
        end
  end.

(** A JSON value at the head of [s] (after white space) and what follows it;
    [None] is a SyntaxError.  [jsonMembers] and [jsonElements] read what
    follows an opening brace or bracket. *)
Fixpoint jsonValue (fuel : nat) (s : jsstring) {struct fuel} : option (json * jsstring) :=
  match fuel with
  | O => None
  | S f =>
      let t := skipJsonSpace s in
      match t with
      | [] => None
      | c :: r =>
          if (c =? ch "{")%N then
            match skipJsonSpace r with
            | d :: r' =>
                if (d =? ch "}")%N then Some (JObject [], r')
                else jsonMembers f [] r
            | [] => None
            end
          else if (c =? ch "[")%N then
            match skipJsonSpace r with
            | d :: r' =>
                if (d =? ch "]")%N then Some (JArray [], r')
                else jsonElements f [] r
            | [] => None
            end
          else if (c =? 34)%N then
            match jsonStringBody r with
            | Some (b, r') => Some (JString b, r')
            | None => None
            end
          else if startsWith (str "true") t then Some (JBool true, skipn 4 t)
          else if startsWith (str "false") t then Some (JBool false, skipn 5 t)
          else if startsWith (str "null") t then Some (JNull, skipn 4 t)
          else
            match jsonNumber t with
            | Some (x, r') => Some (JNumber x, r')
            | None => None
            end
      end
  end
with jsonElements (fuel : nat) (acc : list json) (s : jsstring) {struct fuel}
  : option (json * jsstring) :=
  match fuel with
  | O => None
  | S f =>
      match jsonValue f s with
      | Some (v, r) =>
          match skipJsonSpace r with
          | c :: r' =>
              if (c =? ch ",")%N then jsonElements f (v :: acc) r'
              else if (c =? ch "]")%N then Some (JArray (rev (v :: acc)), r')
              else None
          | [] => None
          end
      | None => None
      end
  end
with jsonMembers (fuel : nat) (acc : list (jsstring * json)) (s : jsstring) {struct fuel}
  : option (json * jsstring) :=
  match fuel with
  | O => None
  | S f =>
      match skipJsonSpace s with
      | q :: r =>
          if (q =? 34)%N then
            match jsonStringBody r with
            | Some (key, r1) =>
                match skipJsonSpace r1 with
                | c :: r2 =>
                    if (c =? ch ":")%N then
                      match jsonValue f r2 with
                      | Some (v, r3) =>
                          match skipJsonSpace r3 with
                          | d :: r4 =>
                              if (d =? ch ",")%N then jsonMembers f ((key, v) :: acc) r4
                              else if (d =? ch "}")%N
                              then Some (JObject (rev ((key, v) :: acc)), r4)
                              else None
                          | [] => None
                          end
                      | None => None
                      end
                    else None
                | [] => None
                end
            | None => None
            end
          else None
      | [] => None
      end
  end.

(** [JSON.parse(text)]; [None] when it throws its SyntaxError.  Every call
    of the three functions above comes after a character is read or goes from
    a list to its first value, so twice the length is fuel enough. *)
Definition JSON_parse (text : jsstring) : option json :=
  match jsonValue (2 * S (List.length text)) text with
  | Some (v, r) =>
      match skipJsonSpace r with
      | [] => Some v
      | _ => None
      end
  | None => None
  end.

(** The own property [key] of an object from [JSON.parse]: of two members of
    one name, the later one stands. *)
Fixpoint lookup (key : jsstring) (props : list (jsstring * json)) : option json :=
  match props with
  | [] => None
  | (k, v) :: rest =>
      match lookup key rest with
      | Some v' => Some v'
      | None => if jsstring_eqb k key then Some v else None
      end
  end.

(** Truthiness, as [if (x)] tests it. *)
Definition truthy (v : json) : bool :=
  match v with
  | JNull => false
  | JBool b => b
  | JNumber x => negb (Number_isNaN x || Number_equal x posZero)
  | JString s => match s with [] => false | _ => true end
  | JArray _ | JObject _ => true
  end.

(** [ToString] of a value held in an array or an object ([undefined] is no
    [json]): an object that has a member named [toString] cannot be
    converted, since no member from JSON is a function. *)
Fixpoint jsonToString (v : json) : completion jsstring :=
  match v with
  | JNull => Returns (str "null")
  | JBool b => Returns (if b then str "true" else str "false")
  | JNumber x => Returns (Number_toString x)
  | JString s => Returns s
  | JArray items =>
      (fix joinItems (l : list json) : completion jsstring :=
         match l with
         | [] => Returns []
         | x :: l' =>
             sx <- match x with JNull => Returns [] | _ => jsonToString x end ;;
             match l' with
             | [] => Returns sx
             | _ => rest <- joinItems l' ;; Returns (sx ++ ch "," :: rest)
             end
         end) items
  | JObject props =>
      match lookup (str "toString") props with
      | Some _ => Throws TypeError
      | None => Returns (str "[object Object]")
      end
  end.

(** [x.toString()], where [x] is the value of a property, [None] for
    [undefined]. *)
Definition toStringMethod (x : option json) : completion jsstring :=
  match x with
  | None | Some JNull => Throws TypeError
  | Some v => jsonToString v
  end.

(** [x.name], the value of the property or [None] for [undefined]; [x] is
    truthy, and [name] is no property of the prototypes. *)
Definition getProperty (x : json) (name : jsstring) : option json :=
  match x with
  | JObject props => lookup name props
  | _ => None
  end.

(** [x[index]] for an integer [index] *)
Definition getIndex (x : json) (index : Z) : completion (option json) :=
  match x with
  | JNull => Throws TypeError
  | JArray items =>
      Returns (if index <? 0 then None else nth_error items (Z.to_nat index))
  | JString s =>
      Returns (if index <? 0 then None
               else match nth_error s (Z.to_nat index) with
                    | Some c => Some (JString [c])
                    | None => None
                    end)
  | JObject props =>
      Returns (lookup (if index <? 0 then ch "-" :: digitsOf (- index) else digitsOf index) props)
  | _ => Returns None
  end.

(** [x.length === 0] *)
Definition lengthIsZero (x : json) : completion bool :=
  match x with
  | JNull => Throws TypeError
  | JArray items => Returns (match items with [] => true | _ => false end)
  | JString s => Returns (match s with [] => true | _ => false end)
  | JObject props =>
      Returns (match lookup (str "length") props with
               | Some (JNumber x) => Number_equal x posZero
               | _ => false
               end)
  | _ => Returns false
  end.

(* ================================================================= *)
(** ** JSON.stringify *)

(** A lower-case hexadecimal digit. *)
Definition hexDigit (d : Z) : jschar :=
  if d <? 10 then digitChar d else Z.to_N (87 + d).

(** UnicodeEscape: a backslash, [u] and four hexadecimal digits. *)
Definition unicodeEscape (c : jschar) : jsstring :=
  let z := Z.of_N c in
  [92%N; ch "u"; hexDigit (z / 4096); hexDigit ((z / 256) mod 16);
   hexDigit ((z / 16) mod 16); hexDigit (z mod 16)].

Definition isLeadingSurrogate (c : jschar) : bool :=
  (55296 <=? c)%N && (c <=? 56319)%N.

Definition isTrailingSurrogate (c : jschar) : bool :=
  (56320 <=? c)%N && (c <=? 57343)%N.

(** QuoteJSONString, between the quotes: the short escapes, a UnicodeEscape
    for the other control characters and for a surrogate that is not half of
    a pair, and every other character as it is. *)
Fixpoint quoteJSONBody (s : jsstring) : jsstring :=
  match s with
  | [] => []
  | c :: r =>
      if (c =? 8)%N then 92%N :: ch "b" :: quoteJSONBody r
      else if (c =? 9)%N then 92%N :: ch "t" :: quoteJSONBody r
      else if (c =? 10)%N then 92%N :: ch "n" :: quoteJSONBody r
      else if (c =? 12)%N then 92%N :: ch "f" :: quoteJSONBody r
      else if (c =? 13)%N then 92%N :: ch "r" :: quoteJSONBody r
      else if (c =? 34)%N then 92%N :: 34%N :: quoteJSONBody r
      else if (c =? 92)%N then 92%N :: 92%N :: quoteJSONBody r
      else if (c <? 32)%N then unicodeEscape c ++ quoteJSONBody r
      else if isLeadingSurrogate c then
        match r with
        | d :: r' =>
            if isTrailingSurrogate d then c :: d :: quoteJSONBody r'
            else unicodeEscape c ++ quoteJSONBody r
        | [] => unicodeEscape c
        end
      else if isTrailingSurrogate c then unicodeEscape c ++ quoteJSONBody r
      else c :: quoteJSONBody r
  end.

Definition QuoteJSONString (s : jsstring) : jsstring :=
  34%N :: quoteJSONBody s ++ [34%N].

(** The array index a property key is, if it is one: the canonical decimal
    writing of an integer below [2^32 - 1]. *)
Definition arrayIndex (k : jsstring) : option Z :=
  match k with
  | [] => None
  | c :: r =>
      if forallb isDigit k
         && ((negb (c =? ch "0")%N) || match r with [] => true | _ => false end)
         && (digitsValue k <? 2 ^ 32 - 1)
      then Some (digitsValue k)
      else None
  end.

(** CreateDataProperty on the properties made so far: a key that exists
    keeps its place and takes the new value. *)
Fixpoint defineProperty {A} (k : jsstring) (v : A) (obj : list (jsstring * A))
  : list (jsstring * A) :=
  match obj with
  | [] => [(k, v)]
  | (k', v') :: rest =>
      if jsstring_eqb k' k then (k', v) :: rest
      else (k', v') :: defineProperty k v rest
  end.

Fixpoint insertIndexed {A} (i : Z) (p : A) (l : list (Z * A)) : list (Z * A) :=
  match l with
  | [] => [(i, p)]
  | (j, q) :: rest =>
      if i <? j then (i, p) :: l else (j, q) :: insertIndexed i p rest
  end.

(** The own properties of an object read from the members [props], in the
    order of OrdinaryOwnPropertyKeys: the array indices in ascending order,
    then the other keys in the order of their creation. *)
Definition ownProperties {A} (props : list (jsstring * A)) : list (jsstring * A) :=
  let obj := fold_left (fun o kv => defineProperty (fst kv) (snd kv) o) props [] in
  let indexed :=
    fold_right (fun kv acc =>
                  match arrayIndex (fst kv) with
                  | Some i => insertIndexed i kv acc
                  | None => acc
                  end) [] obj in
  map snd indexed
  ++ filter (fun kv => match arrayIndex (fst kv) with Some _ => false | None => true end) obj.

(** [JSON.stringify(v)] for a value that [JSON.parse] can give: no member is
    a function or [undefined], and none has a [toJSON] that can be called. *)
Fixpoint JSON_stringify (v : json) : jsstring :=
  match v with
  | JNull => str "null"
  | JBool b => if b then str "true" else str "false"
  | JNumber x => if Number_isFinite x then Number_toString x else str "null"
  | JString s => QuoteJSONString s
  | JArray items =>
      ch "[" :: join (str ",") (map JSON_stringify items) ++ [ch "]"]
  | JObject props =>
      ch "{" :: join (str ",")
                  (map (fun kv => QuoteJSONString (fst kv) ++ ch ":" :: snd kv)
                       (ownProperties
                          (map (fun kv => (fst kv, JSON_stringify (snd kv))) props)))
             ++ [ch "}"]
  end.

(* ================================================================= *)
(** ** The calculator's state and its operations *)

(** The part of [localStorage] that the script uses: the item under its key
    ([None]: no item), and the longest text that [setItem] takes for it
    ([None]: any text); on a longer one [setItem] throws, as it does when the
    storage is full or closed. *)
Record storage := {
  storedItem : option jsstring;
  quota : option nat
}.

Record state := {
  currentExpression : jsstring;
  calculationHistory : json;
  (** what [console.error] was given *)
  consoleErrors : list jsstring;
  localStorage : storage
}.

(** The state when the script has been loaded, with nothing stored. *)
Definition initialState : state :=
  {| currentExpression := [];
     calculationHistory := JArray [];
     consoleErrors := [];
     localStorage := {| storedItem := None; quota := None |} |}.

Definition setExpression (st : state) (e : jsstring) : state :=
  {| currentExpression := e;
     calculationHistory := calculationHistory st;
     consoleErrors := consoleErrors st;
     localStorage := localStorage st |}.

Definition setHistory (st : state) (h : json) : state :=
  {| currentExpression := currentExpression st;
     calculationHistory := h;
     consoleErrors := consoleErrors st;
     localStorage := localStorage st |}.

Definition logError (st : state) (msg : jsstring) : state :=
  {| currentExpression := currentExpression st;
     calculationHistory := calculationHistory st;
     consoleErrors := msg :: consoleErrors st;
     localStorage := localStorage st |}.

(** [localStorage.setItem("vuna_calc_history", text)], when it is taken *)
Definition setItem (st : state) (text : jsstring) : state :=
  {| currentExpression := currentExpression st;
     calculationHistory := calculationHistory st;
     consoleErrors := consoleErrors st;
     localStorage := {| storedItem := Some text; quota := quota (localStorage st) |} |}.

Definition appendToResult (v : value) (st : state) : state :=
  setExpression st (currentExpression st ++ ToString v).

Definition bracketToResult (v : jsstring) (st : state) : state :=
  setExpression st (currentExpression st ++ v).

Definition backspace (st : state) : state :=
  setExpression st (removelast (currentExpression st)).

Definition operatorToResult (v : jsstring) (st : state) : state :=
  match currentExpression st with
  | [] => st
  | _ =>
      let actualOperator :=
        if jsstring_eqb v [215%N] then str "*"
        else if jsstring_eqb v [247%N] then str "/"
        else v in
      setExpression st (currentExpression st ++ actualOperator)
  end.

Definition clearResult (st : state) : state := setExpression st [].

(** [saveHistoryToStorage()]: the text of the history is stored, or, when
    [setItem] throws, the failure goes to the console. *)
Definition saveHistoryToStorage (st : state) : state :=
  let text := JSON_stringify (calculationHistory st) in
  let taken :=
    match quota (localStorage st) with
    | Some q => (List.length text <=? q)%nat
    | None => true
    end in
  if taken then setItem st text
  else logError st (str "Failed to save history:").

(** ToString of a property's value, [None] for [undefined]: what a template
    literal, the Date constructor and [textContent] make of it. *)
Definition propertyToString (x : option json) : completion jsstring :=
  match x with
  | None => Returns (str "undefined")
  | Some v => jsonToString v
  end.

(** What the callback of [renderHistory] does with one item, as far as it
    can throw: it reads the four properties (no property of [null] can be
    read), makes a Date of [timestamp], calls [replace] on [expression] (a
    method of strings only), and writes [result] and [expressionWords] as
    text.  The page has the template and the elements that the callback asks
    for; what is written on the page is left out. *)
Definition renderItem (item : json) : completion unit :=
  match item with
  | JNull => Throws TypeError
  | _ =>
      time <- propertyToString (getProperty item (str "timestamp")) ;;
      match getProperty item (str "expression") with
      | Some (JString expression) =>
          result <- propertyToString (getProperty item (str "result")) ;;
          words <- propertyToString (getProperty item (str "expressionWords")) ;;
          Returns tt
      | _ => Throws TypeError
      end
  end.

(** [items.forEach(f)] *)
Fixpoint forEach {A} (f : A -> completion unit) (items : list A) : completion unit :=
  match items with
  | [] => Returns tt
  | item :: rest => done <- f item ;; forEach f rest
  end.

(** [renderHistory()]: whether it returns or throws.  [forEach] is a method
    of arrays only. *)
Definition renderHistory (st : state) : completion unit :=
  empty <- lengthIsZero (calculationHistory st) ;;
  if empty then Returns tt
  else
    match calculationHistory st with
    | JArray items => forEach renderItem items
    | _ => Throws TypeError
    end.

Definition valueToJson (v : value) : json :=
  match v with
  | VStr s => JString s
  | VNum x => JNumber x
  end.

(** The record that [saveToHistory] makes; [now] is what
    [new Date().toISOString()] gives. *)
Definition newHistoryItem (expression : jsstring) (result : value) (now : jsstring)
  : json :=
  JObject [ (str "expression", JString expression);
            (str "result", valueToJson result);
            (str "expressionWords", JString (expressionToWords expression result));
            (str "timestamp", JString now) ].

(** [saveToHistory(expression, result)]: the state where it ends, and how it
    ends.  [unshift] and [pop] are methods of arrays only; what
    [renderHistory] throws comes after the history has been changed and
    stored. *)
Definition saveToHistory (expression : jsstring) (result : value) (now : jsstring)
    (st : state) : state * completion unit :=
  let historyItem := newHistoryItem expression result now in
  match calculationHistory st with
  | JArray items =>
      (* unshift, then pop when the array is longer than 50 *)
      let items := historyItem :: items in
      let items := if (50 <? List.length items)%nat then removelast items else items in
      let st := saveHistoryToStorage (setHistory st (JArray items)) in
      (st, renderHistory st)
  | _ => (st, Throws TypeError)
  end.

(** The body of the [try] of [calculateResult], from the evaluator's
    [result] on: the state where it ends, and how it ends. *)
Definition settleResult (result : value) (now : jsstring) (st : state)
  : state * completion unit :=
  if strictEqualsString result (str "Error") || isNaN result || negb (isFinite result)
  then (setExpression st (str "Error"), Returns tt)
  else
    match saveToHistory (currentExpression st) result now st with
    | (st', Returns _) => (setExpression st' (ToString result), Returns tt)
    | thrown => thrown
    end.

(** The [catch] of [calculateResult], on the state where the [try] ended. *)
Definition catchError (tried : state * completion unit) : completion state :=
  match tried with
  | (st, Returns _) => Returns st
  | (st, Throws _) => Returns (setExpression st (str "Error"))
  | (_, HostDefined) => HostDefined
  end.

Definition calculateResult (now : jsstring) (st : state) : completion state :=
  match currentExpression st with
  | [] => Returns st
  | _ =>
      match evaluateExpression (currentExpression st) with
      | Returns result => catchError (settleResult result now st)
      | Throws _ => Returns (setExpression st (str "Error"))
      | HostDefined => HostDefined
      end
  end.

(** [clearHistory()]; [confirmed] is the user's answer to [confirm]. *)
Definition clearHistory (confirmed : bool) (st : state) : completion state :=
  empty <- lengthIsZero (calculationHistory st) ;;
  if empty then Returns st
  else if confirmed then
    let st := saveHistoryToStorage (setHistory st (JArray [])) in
    done <- renderHistory st ;;
    Returns st
  else Returns st.

Definition loadFromHistory (index : Z) (st : state) : completion state :=
  item <- getIndex (calculationHistory st) index ;;
  match item with
  | Some item =>
      if truthy item then
        s <- toStringMethod (getProperty item (str "result")) ;;
        Returns (setExpression st s)
      else Returns st
  | None => Returns st
  end.

(** [loadHistoryFromStorage()]; [stored] is what
    [localStorage.getItem("vuna_calc_history")] gives, [None] for [null]. *)
Definition loadHistoryFromStorage (stored : option jsstring) (st : state)
  : completion state :=
  tryCatch
    (match stored with
     | Some ((_ :: _) as text) =>
         match JSON_parse text with
         | Some v => Returns (setHistory st v)
         | None => Throws SyntaxError
         end
     | _ => Returns st
     end)
    (fun _ =>
       Returns (setHistory (logError st (str "Failed to load history:")) (JArray []))).

(** The listener of [DOMContentLoaded]: [loadHistoryFromStorage()], then
    [renderHistory()]; the state where it ends, and how it ends. *)
Definition contentLoaded (st : state) : state * completion unit :=
  match loadHistoryFromStorage (storedItem (localStorage st)) st with
  | Returns st' => (st', renderHistory st')
  | Throws e => (st, Throws e)
  | HostDefined => (st, HostDefined)
  end.

(** The user's actions on the page, and what each one's handler does to the
    state. *)
Inductive action :=
| Append (v : value)
| Bracket (v : jsstring)
| Backspace
| Operator (v : jsstring)
| Clear
| Calculate (now : jsstring)
| ClearHistory (confirmed : bool)
| LoadFromHistory (index : Z).

Definition handle (a : action) (st : state) : completion state :=
  match a with
  | Append v => Returns (appendToResult v st)
  | Bracket v => Returns (bracketToResult v st)
  | Backspace => Returns (backspace st)
  | Operator v => Returns (operatorToResult v st)
  | Clear => Returns (clearResult st)
  | Calculate now => calculateResult now st
  | ClearHistory confirmed => clearHistory confirmed st
  | LoadFromHistory index => loadFromHistory index st
  end.

(** The states a session goes through from [st0].  A handler that throws
    does so before it changes the state.  Where the evaluator's result rests
    on the host's approximation of [**], [calculateResult] goes on with the
    value the host gives: any value is taken for it. *)
Inductive reachable (st0 : state) : state -> Prop :=
| reachable_start : reachable st0 st0
| reachable_step : forall st a st',
    reachable st0 st -> handle a st = Returns st' -> reachable st0 st'
| reachable_throw : forall st a e,
    reachable st0 st -> handle a st = Throws e -> reachable st0 st
| reachable_host : forall st now result st',
    reachable st0 st ->
    calculateResult now st = HostDefined ->
    catchError (settleResult result now st) = Returns st' ->
    reachable st0 st'.

(** The history is an array of at most 50 records. *)
Definition historyCapped (st : state) : Prop :=
  exists items, calculationHistory st = JArray items /\ (List.length items <= 50)%nat.

Definition historyLength (st : state) : option nat :=
  match calculationHistory st with
  | JArray items => Some (List.length items)
  | _ => None
  end.

(** The evaluator fails: it throws, or it returns the marker ["Error"], NaN
    or a value that is not finite (the test of [calculateResult]). *)
Definition evaluationFails (c : completion value) : Prop :=
  (exists e, c = Throws e)
  \/ (exists v, c = Returns v
              /\ strictEqualsString v (str "Error") || isNaN v || negb (isFinite v) = true).

(** The stored item is absent (or empty), or it is no JSON text. *)
Definition unusableStore (stored : option jsstring) : Prop :=
  match stored with
  | None | Some [] => True
  | Some text => JSON_parse text = None
  end.

(** The stored item, if it is a JSON text, is an array of at most 50
    records. *)
Definition storeCapped (stored : option jsstring) : Prop :=
  match stored with
  | None | Some [] => True
  | Some text =>
      match JSON_parse text with
      | Some v => exists items, v = JArray items /\ (List.length items <= 50)%nat
      | None => True
      end
  end.

(** A record as the script stores it, and a stored history of 51 of them. *)
Definition storedRecord : jsstring :=
  JSON_stringify
    (newHistoryItem (str "1+1") (VNum (Z_to_number 2)) (str "2024-01-01T00:00:00.000Z")).

Definition overfullStore : jsstring :=
  ch "[" :: join (str ",") (repeat storedRecord 51) ++ [ch "]"].

(* ================================================================= *)
(** ** Standard arithmetic: what the specification compares with *)

(** Well-formed expressions as the specification reads them: decimal
    literals, the four binary operators and parentheses. *)
Inductive aop := OAdd | OSub | OMul | ODiv.

Inductive aexp :=
| ALit (integer fraction : jsstring)
| AParen (e : aexp)
| ABin (op : aop) (l r : aexp).

Definition opChar (op : aop) : jschar :=
  match op with
  | OAdd => ch "+"
  | OSub => ch "-"
  | OMul => ch "*"
  | ODiv => ch "/"
  end.

(** A literal is written with its integer digits and, if it has a fraction,
    a point and the fraction's digits. *)
Definition printLiteral (integer fraction : jsstring) : jsstring :=
  match fraction with
  | [] => integer
  | _ => integer ++ ch "." :: fraction
  end.

Fixpoint print (e : aexp) : jsstring :=
  match e with
  | ALit i f => printLiteral i f
  | AParen e => ch "(" :: print e ++ [ch ")"]
  | ABin op l r => print l ++ opChar op :: print r
  end.

(** The digits of a literal: one digit at least before the point, and no
    zero before another digit there. *)
Definition literalOk (integer fraction : jsstring) : bool :=
  forallb isDigit integer && forallb isDigit fraction
  && match integer with
     | [] => false
     | [_] => true
     | c :: _ => negb (c =? ch "0")%N
     end.

(** 0 for [+] and [-], 1 for [*] and [/]. *)
Definition precedence (op : aop) : nat :=
  match op with
  | OAdd | OSub => 0
  | OMul | ODiv => 1
  end.

(** [e] is the tree that standard precedence gives to [print e], read where
    an operand of level [lvl] is expected (0: any expression, 1: an operand
    of [+] or [-], 2: an operand of [*] or [/]): the right operand of an
    operator binds tighter than the operator, the left one at least as
    tight, and anything else is in parentheses. *)
Fixpoint wellFormed (lvl : nat) (e : aexp) : bool :=
  match e with
  | ALit i f => literalOk i f
  | AParen e => wellFormed 0 e
  | ABin op l r =>
      (lvl <=? precedence op)%nat
      && wellFormed (precedence op) l
      && wellFormed (S (precedence op)) r
  end.

(** The value of a literal: the Number nearest to it. *)
Definition literalValue (integer fraction : jsstring) : number :=
  decimalToNumber false (digitsValue (integer ++ fraction))
    (- Z.of_nat (List.length fraction)).

Definition applyOp (op : aop) : number -> number -> number :=
  match op with
  | OAdd => Number_add
  | OSub => Number_subtract
  | OMul => Number_multiply
  | ODiv => Number_divide
  end.

(** The value of the tree in binary64 arithmetic. *)
Fixpoint aeval (e : aexp) : number :=
  match e with
  | ALit i f => literalValue i f
  | AParen e => aeval e
  | ABin op l r => applyOp op (aeval l) (aeval r)
  end.

(** [parseFloat(x.toFixed(10))]: [x] rounded to ten decimals. *)
Definition roundTo10 (x : number) : number := parseFloat (Number_toFixed10 x).

(** The tokens and the syntax tree that the engine has for [e]. *)
Definition opToken (op : aop) : token :=
  match op with
  | OAdd => TPlus
  | OSub => TMinus
  | OMul => TStar
  | ODiv => TSlash
  end.

Definition opBinop (op : aop) : binop :=
  match op with
  | OAdd => Add
  | OSub => Sub
  | OMul => Mul
  | ODiv => Div
  end.

Fixpoint tokensOf (e : aexp) : list token :=
  match e with
  | ALit i f => [TNum (literalValue i f)]
  | AParen e => TLParen :: tokensOf e ++ [TRParen]
  | ABin op l r => tokensOf l ++ opToken op :: tokensOf r
  end.

Fixpoint treeOf (e : aexp) : expr :=
  match e with
  | ALit i f => ENum (literalValue i f)
  | AParen e => treeOf e
  | ABin op l r => EBinary (opBinop op) (treeOf l) (treeOf r)
  end.

Fixpoint size (e : aexp) : nat :=
  match e with
  | ALit _ _ => 1
  | AParen e => S (size e)
  | ABin _ l r => S (size l + size r)
  end.

(** Neither a digit nor the point: a character that no numeric literal
    holds. *)
Definition plainChar (c : jschar) : bool :=
  negb (isDigit c) && negb (c =? ch ".")%N.

(** The text starts an operand: with a digit or an opening parenthesis. *)
Definition operandStart (s : jsstring) : bool :=
  match s with
  | c :: _ => isDigit c || (c =? ch "(")%N
  | [] => false
  end.

(** The text cannot go on a numeric literal that ends before it. *)
Definition endsLiteral (s : jsstring) : bool :=
  match s with
  | c :: _ => plainChar c
  | [] => true
  end.

Definition prepend (ts : list token) (rest : option (list token)) : option (list token) :=
  match rest with
  | Some l => Some (ts ++ l)
  | None => None
  end.

(** The tokens start with an operator that goes on an operand of level
    [lvl]: a call or [**] at any level, [*] and [/] up to level 1, [+] and
    [-] at level 0. *)
Definition continuesAt (lvl : nat) (ts : list token) : bool :=
  match ts with
  | TLParen :: _ | TStarStar :: _ => true
  | TStar :: _ | TSlash :: _ => (lvl <=? 1)%nat
  | TPlus :: _ | TMinus :: _ => (lvl <=? 0)%nat
  | _ => false
  end.

(** How the parser gets through the tokens of [e], with the fuel each level
    needs: as a primary expression; as the left end of a multiplicative
    expression, up to the loop that reads the operators after it; and the
    same for an additive expression. *)
Definition parsesPrimary (e : aexp) : Prop :=
  exists n, (1 <= n /\ n + 6 <= 8 * size e)%nat
    /\ forall f rest, (n <= f)%nat ->
         parsePrimary f (tokensOf e ++ rest) = Some (treeOf e, rest).

Definition parsesMultiplicative (e : aexp) : Prop :=
  exists c n, (1 <= n /\ c + n + 4 <= 8 * size e)%nat
    /\ forall f rest, (n <= f)%nat -> continuesAt 2 rest = false ->
         parseMultiplicative (S (c + f)) (tokensOf e ++ rest)
         = multiplicativeLoop f (treeOf e) rest.

Definition parsesAdditive (e : aexp) : Prop :=
  exists c n, (1 <= n /\ c + n + 2 <= 8 * size e)%nat
    /\ forall f rest, (n <= f)%nat -> continuesAt 1 rest = false ->
         parseAdditive (S (c + f)) (tokensOf e ++ rest)
         = additiveLoop f (treeOf e) rest.

(** *** The transcription of an expression, piece by piece *)






(** The word for a decimal digit of the fraction. *)
Definition digitName (c : jschar) : jsstring :=
  nth (Z.to_nat (digitVal c))
    [str "Zero"; str "One"; str "Two"; str "Three"; str "Four"; str "Five";
     str "Six"; str "Seven"; str "Eight"; str "Nine"] [].

(** [" Point"] and a word for each digit of the fraction. *)
Definition pointWords (digits : jsstring) : jsstring :=
  str " Point" ++ flat_map (fun d => ch " " :: digitName d) digits.


(* ================================================================= *)
(** ** What the stored text gives back *)

(** SameValue on Numbers: the same Number, sign of zero included. *)
Definition sameValue (x y : number) : bool :=
  match x, y with
  | S754_zero a, S754_zero b => Bool.eqb a b
  | S754_infinity a, S754_infinity b => Bool.eqb a b
  | S754_nan, S754_nan => true
  | S754_finite a m e, S754_finite b m' e' =>
      Bool.eqb a b && (m =? m')%positive && (e =? e')
  | _, _ => false
  end.

(** The Number is read back from its own rendering as a JSON number. *)
Definition readsBack (x : number) : bool :=
  match jsonNumber (Number_toString x) with
  | Some (y, []) => sameValue x y
  | _ => false
  end.

Fixpoint distinctKeys {A} (props : list (jsstring * A)) : bool :=
  match props with
  | [] => true
  | kv :: rest =>
      negb (existsb (fun kv' => jsstring_eqb (fst kv') (fst kv)) rest)
      && distinctKeys rest
  end.

Definition namedKey (k : jsstring) : bool :=
  match arrayIndex k with Some _ => false | None => true end.

(** A value that the stored text gives back as it is: its Numbers are read
    back from their renderings, and the members of its objects have distinct
    keys, none an array index (so that the members keep their order). *)
Fixpoint storable (v : json) : bool :=
  match v with
  | JNull | JBool _ | JString _ => true
  | JNumber x => readsBack x
  | JArray items => forallb storable items
  | JObject props =>
      distinctKeys props
      && forallb (fun kv => namedKey (fst kv)) props
      && forallb (fun kv => storable (snd kv)) props
  end.

(** Fuel for reading the text of [v]. *)
Fixpoint readingFuel (v : json) : nat :=
  match v with
  | JArray items => S (list_sum (map (fun x => S (readingFuel x)) items))
  | JObject props => S (list_sum (map (fun kv => S (readingFuel (snd kv))) props))
  | _ => 1
  end.


(** What can follow a value in a JSON text written without spaces: nothing,
    a comma, or a closing bracket or brace. *)
Definition endsValue (rest : jsstring) : bool :=
  match rest with
  | [] => true
  | c :: _ => (c =? ch ",")%N || (c =? ch "]")%N || (c =? ch "}")%N
  end.


(** The text of [v], before what can follow a value, is read back as [v]. *)
Definition readsValue (v : json) : Prop :=
  storable v = true ->
  forall fuel rest, (readingFuel v <= fuel)%nat -> endsValue rest = true ->
    jsonValue fuel (JSON_stringify v ++ rest) = Some (v, rest).

(** Whether [setItem] takes the text. *)
Definition takes (s : storage) (text : jsstring) : bool :=
  match quota s with
  | Some q => (List.length text <=? q)%nat
  | None => true
  end.

(** The state when the page is loaded again: the variables of the script as
    at its start, the storage as it was left. *)
Definition reloaded (st : state) : state :=
  {| currentExpression := [];
     calculationHistory := JArray [];
     consoleErrors := [];
     localStorage := localStorage st |}.

(** *** Records of the script *)

(** A record as [saveToHistory] makes it, for a result that
    [calculateResult] saves: neither the marker ["Error"], nor NaN, nor an
    infinity. *)
Definition scriptRecord (item : json) : Prop :=
  exists expression result now,
    item = newHistoryItem expression result now
    /\ strictEqualsString result (str "Error") || isNaN result || negb (isFinite result)
       = false.

(** The history is an array of such records. *)
Definition scriptHistory (st : state) : Prop :=
  exists items, calculationHistory st = JArray items /\ Forall scriptRecord items.

(* ================================================================= *)
(** ** The page: what [updateResult] shows *)

(** [/^-?\d+\.?\d*$/.test(s)]: an optional minus, one digit at least, an
    optional point, any digits, and the end of the text. *)
Definition simpleNumberPattern (s : jsstring) : bool :=
  let t :=
    match s with
    | c :: r => if (c =? ch "-")%N then r else s
    | [] => []
    end in
  match spanDigits t with
  | ([], _) => false
  | (_, []) => true
  | (_, c :: r) => (c =? ch ".")%N && forallb isDigit r
  end.

(** The expression as the display writes it: the multiplication and division
    signs for [*] and [/]. *)
Definition displayText (expression : jsstring) : jsstring :=
  replaceChar (ch "/") [247%N] (replaceChar (ch "*") [215%N] expression).

(** What the page shows: the value of the input [result], the text of
    [word-result-text], the display style of [word-area], and whether the
    button [speak-btn] is disabled. *)
Record page := {
  resultValue : jsstring;
  wordResultText : jsstring;
  wordAreaDisplay : jsstring;
  speakDisabled : bool
}.

(** [updateResult()], with [enableSpeakButton()] at its end, on a page that
    has the four elements. *)
Definition updateResult (st : state) : page :=
  let display := displayText (currentExpression st) in
  let isSimpleNumber := simpleNumberPattern (currentExpression st) in
  let shown :=
    isSimpleNumber
    && match currentExpression st with [] => false | _ => true end
    && negb (jsstring_eqb (currentExpression st) (str "Error")) in
  let words := if shown then numberToWords (VStr (currentExpression st)) else [] in
  let hasContent := match trim words with [] => false | _ => true end in
  {| resultValue := match display with [] => str "0" | _ => display end;
     wordResultText := words;
     wordAreaDisplay := if shown then str "flex" else str "none";
     speakDisabled := negb hasContent |}.

(* ================================================================= *)
(** ** A leading minus sign *)

(** The syntax tree and the value of [-e] in standard arithmetic: the sign
    belongs to the first operand of [e]. *)
Fixpoint treeOfNegated (e : aexp) : expr :=
  match e with
  | ABin op l r => EBinary (opBinop op) (treeOfNegated l) (treeOf r)
  | _ => EUnary UMinus (treeOf e)
  end.

Fixpoint aevalNegated (e : aexp) : number :=
  match e with
  | ABin op l r => applyOp op (aevalNegated l) (aeval r)
  | _ => Number_unaryMinus (aeval e)
  end.

(** How the parser gets through [-e], as [parsesMultiplicative] and
    [parsesAdditive] tell it for [e]. *)
Definition parsesNegatedMultiplicative (e : aexp) : Prop :=
  exists c n, (1 <= n /\ c + n <= 8 * size e + 2)%nat
    /\ forall f rest, (n <= f)%nat -> continuesAt 2 rest = false ->
         parseMultiplicative (S (c + f)) (TMinus :: tokensOf e ++ rest)
         = multiplicativeLoop f (treeOfNegated e) rest.

Definition parsesNegatedAdditive (e : aexp) : Prop :=
  exists c n, (1 <= n /\ c + n <= 8 * size e + 4)%nat
    /\ forall f rest, (n <= f)%nat -> continuesAt 1 rest = false ->
         parseAdditive (S (c + f)) (TMinus :: tokensOf e ++ rest)
         = additiveLoop f (treeOfNegated e) rest.

(* ================================================================= *)
(** ** Ranges *)

(** The integers from 0 up to [n], [n] left out. *)
Definition upTo (n : nat) : list Z := map Z.of_nat (seq 0 n).

(** No two of the words are the same. *)
Fixpoint distinctWords (l : list jsstring) : bool :=
  match l with
  | [] => true
  | w :: l' => negb (existsb (jsstring_eqb w) l') && distinctWords l'
  end.

(* ================================================================= *)
(** * Properties *)

(** ** Strings *)

Lemma N_eqb_same (c : jschar) : (c =? c)%N = true.
Proof. apply N.eqb_refl. Qed.

Lemma startsWith_app (p s : jsstring) : startsWith p (p ++ s) = true.
Proof.
  induction p as [|c p IH]; simpl.
  - reflexivity.
  - now rewrite N_eqb_same, IH.
Qed.

Lemma includes_head (s p : jsstring) :
  startsWith p s = true -> includes s p = true.
Proof. intros H. destruct s; simpl; now rewrite H. Qed.

Lemma includes_app (a p b : jsstring) : includes (a ++ p ++ b) p = true.
Proof.
  induction a as [|c a IH]; simpl.
  - apply includes_head, startsWith_app.
  - rewrite IH. apply orb_true_r.
Qed.

Lemma startsWith_prefix (p s : jsstring) :
  startsWith p s = true -> exists b, s = p ++ b.
Proof.
  revert s; induction p as [|c p IH]; intros s H.
  - now exists s.
  - destruct s as [|d s]; [discriminate|].
    simpl in H. apply andb_true_iff in H as [Hc Hp].
    apply N.eqb_eq in Hc; subst d.
    destruct (IH _ Hp) as [b ->]. now exists b.
Qed.

Lemma includes_substring (s p : jsstring) :
  includes s p = true -> exists a b, s = a ++ p ++ b.
Proof.
  induction s as [|c s IH]; simpl; intros H.
  - rewrite orb_false_r in H. destruct p; [|discriminate].
    now exists [], [].
  - apply orb_true_iff in H as [H|H].
    + destruct (startsWith_prefix _ _ H) as [b Hb]. now exists [], b.
    + destruct (IH H) as (a & b & ->). now exists (c :: a), b.
Qed.

(** ** The division-by-zero guard *)

(** C2 (as amended): an input that itself contains ["/0"] gets the error
    marker whatever the Function constructor would do with the sanitized
    text: the guard reads the input as given and answers before the text is
    sanitized or evaluated. *)
Theorem guard_answers_before_evaluation :
  forall (construct : jsstring -> completion engineValue) (expr : jsstring),
    includes expr (str "/0") = true ->
    evaluateExpressionWith construct expr = Returns (VStr (str "Error")).
Proof.
  intros construct expr H. unfold evaluateExpressionWith. now rewrite H.
Qed.

Lemma guard_answers_before_evaluation_witness :
  includes (str "1/0") (str "/0") = true
  /\ evaluateExpressionWith (fun _ => Returns (Num Infinity)) (str "1/0")
     = Returns (VStr (str "Error")).
Proof.
  split.
  - reflexivity.
  - apply (guard_answers_before_evaluation (fun _ => Returns (Num Infinity)) (str "1/0")).
    reflexivity.
Defined.

(** C2 fails as stated: the sanitized form of ["1/ 0"] contains ["/0"], the
    input does not, and [evaluateExpression] evaluates it and returns the
    Number Infinity. *)
Lemma guard_misses_sanitized_form :
  includes (sanitize (str "1/ 0")) (str "/0") = true
  /\ includes (str "1/ 0") (str "/0") = false
  /\ evaluateExpression (str "1/ 0") = Returns (VNum Infinity).
Proof. vm_compute. repeat split. Qed.

(** C3: every string with ["/0"] in it, whatever is around it (a digit or a
    point after the zero as well), gets the error marker and no Number. *)
Theorem slash_zero_is_error :
  forall a b : jsstring,
    evaluateExpression (a ++ str "/0" ++ b) = Returns (VStr (str "Error")).
Proof.
  intros a b. unfold evaluateExpression, evaluateExpressionWith.
  now rewrite includes_app.
Qed.

(** ** calculateResult *)

Lemma tryCatch_returns {A} (a : A) (h : jsError -> completion A) :
  tryCatch (Returns a) h = Returns a.
Proof. reflexivity. Qed.

(** C8: when the evaluation of a non-empty expression fails, [calculateResult]
    returns (it does not throw), the expression is ["Error"] and the history
    is what it was. *)
Theorem calculateResult_on_failure :
  forall (now : jsstring) (st : state),
    currentExpression st <> [] ->
    evaluationFails (evaluateExpression (currentExpression st)) ->
    exists st',
      calculateResult now st = Returns st'
      /\ currentExpression st' = str "Error"
      /\ calculationHistory st' = calculationHistory st.
Proof.
  intros now st Hne Hfail.
  exists (setExpression st (str "Error")).
  split; [|split; reflexivity].
  unfold calculateResult.
  destruct (currentExpression st) as [|c e] eqn:He; [contradiction|].
  destruct Hfail as [[e' ->] | (v & -> & Hv)].
  - reflexivity.
  - unfold settleResult. now rewrite Hv.
Qed.

Lemma calculateResult_on_failure_witness :
  exists st',
    calculateResult (str "now") (setExpression initialState (str "2+")) = Returns st'
    /\ currentExpression st' = str "Error"
    /\ calculationHistory st' = calculationHistory (setExpression initialState (str "2+")).
Proof.
  apply (calculateResult_on_failure (str "now") (setExpression initialState (str "2+"))).
  - discriminate.
  - right. exists (VStr (str "Error")). split; reflexivity.
Defined.

(** ** The history *)

Lemma removelast_length {A} (l : list A) :
  List.length (removelast l) = pred (List.length l).
Proof.
  rewrite removelast_firstn_len, length_firstn. lia.
Qed.

Lemma saveHistoryToStorage_keeps (st : state) :
  calculationHistory (saveHistoryToStorage st) = calculationHistory st
  /\ currentExpression (saveHistoryToStorage st) = currentExpression st.
Proof.
  unfold saveHistoryToStorage.
  destruct (match quota (localStorage st) with Some _ => _ | None => _ end);
    split; reflexivity.
Qed.

Lemma saveToHistory_array (expression : jsstring) (result : value) (now : jsstring)
    (st : state) (items : list json) :
  calculationHistory st = JArray items ->
  exists st' : state,
    saveToHistory expression result now st = (st', renderHistory st')
    /\ calculationHistory st'
       = JArray (newHistoryItem expression result now ::
                 (if (50 <=? List.length items)%nat then removelast items else items))
    /\ currentExpression st' = currentExpression st.
Proof.
  intros H. unfold saveToHistory. rewrite H.
  eexists. split; [reflexivity|].
  destruct (saveHistoryToStorage_keeps
              (setHistory st
                 (JArray
                    (if (50 <? List.length (newHistoryItem expression result now :: items))%nat
                     then removelast (newHistoryItem expression result now :: items)
                     else newHistoryItem expression result now :: items))))
    as [Hh He].
  rewrite Hh, He. split; [|reflexivity].
  cbn [setHistory calculationHistory List.length].
  destruct items as [|i items].
  - reflexivity.
  - change (50 <? S (List.length (i :: items)))%nat
      with (50 <=? List.length (i :: items))%nat.
    destruct (50 <=? List.length (i :: items))%nat; reflexivity.
Qed.

Lemma saveToHistory_capped (expression : jsstring) (result : value) (now : jsstring)
    (st : state) :
  historyCapped st ->
  historyCapped (fst (saveToHistory expression result now st))
  /\ currentExpression (fst (saveToHistory expression result now st))
     = currentExpression st.
Proof.
  intros (items & Hh & Hlen).
  destruct (saveToHistory_array expression result now st items Hh) as (st' & -> & Hh' & He).
  cbn [fst]. split; [|exact He].
  eexists. split; [exact Hh'|].
  destruct (50 <=? List.length items)%nat eqn:E; cbn [List.length].
  - rewrite removelast_length. lia.
  - apply Nat.leb_gt in E. lia.
Qed.

Lemma setExpression_capped (st : state) (e : jsstring) :
  historyCapped st -> historyCapped (setExpression st e).
Proof. intros H; exact H. Qed.

Lemma settleResult_capped (result : value) (now : jsstring) (st st' : state) :
  historyCapped st ->
  catchError (settleResult result now st) = Returns st' ->
  historyCapped st'.
Proof.
  intros Hc. unfold settleResult.
  destruct (_ || _ || _); cbn [catchError].
  - now intros [= <-].
  - pose proof (saveToHistory_capped (currentExpression st) result now st Hc) as [Hs _].
    destruct (saveToHistory _ _ _ _) as [st1 [u|e|]]; cbn [fst catchError] in *;
      try discriminate; now intros [= <-].
Qed.

Lemma calculateResult_capped (now : jsstring) (st st' : state) :
  historyCapped st -> calculateResult now st = Returns st' -> historyCapped st'.
Proof.
  intros Hc. unfold calculateResult.
  destruct (currentExpression st); [now intros [= <-]|].
  destruct (evaluateExpression _) as [v| |]; try discriminate.
  - apply settleResult_capped, Hc.
  - now intros [= <-].
Qed.

Lemma handle_capped (a : action) (st st' : state) :
  historyCapped st -> handle a st = Returns st' -> historyCapped st'.
Proof.
  intros Hc. destruct a; cbn [handle].
  1-5: intros [= <-]; try exact Hc.
  - unfold operatorToResult. destruct (currentExpression st); exact Hc.
  - apply calculateResult_capped; exact Hc.
  - unfold clearHistory.
    destruct (lengthIsZero _) as [[|]| |]; cbn [bind]; try discriminate.
    + now intros [= <-].
    + destruct confirmed; [|intros [= <-]; exact Hc].
      destruct (renderHistory _); cbn [bind]; try discriminate.
      intros [= <-].
      exists []. split; [|cbn [List.length]; lia].
      now rewrite (proj1 (saveHistoryToStorage_keeps _)).
  - unfold loadFromHistory.
    destruct (getIndex _ _) as [[item|]| |]; cbn [bind]; try discriminate.
    + destruct (truthy item).
      * destruct (toStringMethod _); cbn [bind]; try discriminate.
        now intros [= <-].
      * now intros [= <-].
    + now intros [= <-].
Qed.

Lemma reachable_capped (st0 st : state) :
  historyCapped st0 -> reachable st0 st -> historyCapped st.
Proof.
  intros H0 Hr.
  induction Hr as [|st a st' _ IH Hs|st a e _ IH _|st now result st' _ IH _ Hs].
  - exact H0.
  - exact (handle_capped a st st' IH Hs).
  - exact IH.
  - exact (settleResult_capped result now st st' IH Hs).
Qed.

(** C6: the cap is missed where the history is loaded.  A stored array of
    51 records, each as the script stores them, is installed as it is: the
    history has 51 records when the page has started, and 51 again after the
    next calculation, which puts one record first and drops one. *)
Theorem history_cap_missed_at_load :
  exists st0 st1 : state,
    loadHistoryFromStorage (Some overfullStore) initialState = Returns st0
    /\ historyLength st0 = Some 51%nat
    /\ renderHistory st0 = Returns tt
    /\ calculateResult (str "now") (setExpression st0 (str "2+3")) = Returns st1
    /\ currentExpression st1 = str "5"
    /\ historyLength st1 = Some 51%nat.
Proof.
  eexists. eexists.
  split; [vm_compute; reflexivity|].
  split; [vm_compute; reflexivity|].
  split; [vm_compute; reflexivity|].
  split; [vm_compute; reflexivity|].
  split; vm_compute; reflexivity.
Qed.

(** C7 (as amended): when the stored item is absent (or empty) or is no
    JSON text, loading it at startup returns (nothing is thrown), the history
    is the empty array, the expression is untouched, and the page renders the
    empty history; the failure of [JSON.parse] goes to the console only.  A
    stored item that is a JSON text is installed as [JSON.parse] gives it,
    whatever it is. *)
Theorem loadHistory_unusable_store :
  forall stored : option jsstring,
    (unusableStore stored ->
     exists st,
       loadHistoryFromStorage stored initialState = Returns st
       /\ calculationHistory st = JArray []
       /\ currentExpression st = currentExpression initialState
       /\ renderHistory st = Returns tt)
    /\ (forall (c : jschar) (text : jsstring) (v : json),
          stored = Some (c :: text) -> JSON_parse (c :: text) = Some v ->
          exists st,
            loadHistoryFromStorage stored initialState = Returns st
            /\ calculationHistory st = v
            /\ consoleErrors st = []).
Proof.
  intros stored. split.
  - intros H. unfold loadHistoryFromStorage.
    destruct stored as [[|c text]|]; cbn [unusableStore] in H.
    + exists initialState. repeat split.
    + rewrite H. cbn [tryCatch]. eexists. repeat split.
    + exists initialState. repeat split.
  - intros c text v -> Hp. unfold loadHistoryFromStorage. rewrite Hp.
    cbn [tryCatch]. eexists. repeat split.
Qed.

Lemma loadHistory_unusable_store_witness :
  (exists st,
     loadHistoryFromStorage (Some (str "[1,2")) initialState = Returns st
     /\ calculationHistory st = JArray []
     /\ currentExpression st = currentExpression initialState
     /\ renderHistory st = Returns tt)
  /\ (exists st,
        loadHistoryFromStorage (Some (str "[]")) initialState = Returns st
        /\ calculationHistory st = JArray []
        /\ consoleErrors st = []).
Proof.
  split.
  - apply (proj1 (loadHistory_unusable_store (Some (str "[1,2")))).
    vm_compute. reflexivity.
  - apply (proj2 (loadHistory_unusable_store (Some (str "[]"))) (ch "[") (str "]"));
      reflexivity.
Defined.

(** C7 fails as stated: the stored text [null] is JSON, but no array of
    records; it is installed as it is, the history is [null] and not the
    empty array, the page cannot render it, and the next calculation ends in
    ["Error"]. *)
Lemma malformed_store_installed :
  exists st0 st1 : state,
    loadHistoryFromStorage (Some (str "null")) initialState = Returns st0
    /\ calculationHistory st0 = JNull
    /\ renderHistory st0 = Throws TypeError
    /\ calculateResult (str "now") (setExpression st0 (str "2+3")) = Returns st1
    /\ currentExpression st1 = str "Error".
Proof.
  eexists. eexists.
  split; [vm_compute; reflexivity|].
  split; [reflexivity|].
  split; [reflexivity|].
  split; vm_compute; reflexivity.
Qed.

(** C9: [loadFromHistory] at an index within the array, where a record
    stands, makes the expression [item.result.toString()] (the stored
    expression plays no part) and leaves the history as it is; at an index
    outside the array it changes nothing. *)
Theorem loadFromHistory_result :
  forall (st : state) (items : list json) (index : Z),
    calculationHistory st = JArray items ->
    (forall props s,
        0 <= index ->
        nth_error items (Z.to_nat index) = Some (JObject props) ->
        toStringMethod (lookup (str "result") props) = Returns s ->
        exists st',
          loadFromHistory index st = Returns st'
          /\ currentExpression st' = s
          /\ calculationHistory st' = calculationHistory st)
    /\ (index < 0 \/ Z.of_nat (List.length items) <= index ->
        exists st',
          loadFromHistory index st = Returns st'
          /\ currentExpression st' = currentExpression st
          /\ calculationHistory st' = calculationHistory st).
Proof.
  intros st items index Hh. unfold loadFromHistory. rewrite Hh. cbn [getIndex bind].
  split.
  - intros props s H0 Hn Hs.
    destruct (index <? 0) eqn:E; [apply Z.ltb_lt in E; lia|].
    rewrite Hn. cbn [truthy getProperty]. rewrite Hs. cbn [bind].
    eexists. split; [reflexivity|]. split; [reflexivity|]. exact Hh.
  - intros H. exists st. split; [|split; [reflexivity|exact Hh]].
    destruct H as [H|H].
    + apply Z.ltb_lt in H. now rewrite H.
    + destruct (index <? 0); [reflexivity|].
      assert (Hn : nth_error items (Z.to_nat index) = None).
      { apply nth_error_None. lia. }
      now rewrite Hn.
Qed.

Lemma loadFromHistory_result_witness :
  (exists st',
     loadFromHistory 0
       (setHistory initialState
          (JArray [newHistoryItem (str "2+3") (VNum (Z_to_number 5)) (str "now")]))
     = Returns st'
     /\ currentExpression st' = str "5"
     /\ calculationHistory st'
        = calculationHistory
            (setHistory initialState
               (JArray [newHistoryItem (str "2+3") (VNum (Z_to_number 5)) (str "now")])))
  /\ (exists st',
        loadFromHistory 1
          (setExpression
             (setHistory initialState
                (JArray [newHistoryItem (str "2+3") (VNum (Z_to_number 5)) (str "now")]))
             (str "7*"))
        = Returns st'
        /\ currentExpression st' = str "7*"
        /\ calculationHistory st'
           = JArray [newHistoryItem (str "2+3") (VNum (Z_to_number 5)) (str "now")]).
Proof.
  split.
  - refine (proj1 (loadFromHistory_result
              (setHistory initialState
                 (JArray [newHistoryItem (str "2+3") (VNum (Z_to_number 5)) (str "now")]))
              [newHistoryItem (str "2+3") (VNum (Z_to_number 5)) (str "now")]
              0 eq_refl) _ (str "5") (Z.le_refl 0) eq_refl _).
    vm_compute. reflexivity.
  - refine (proj2 (loadFromHistory_result
              (setExpression
                 (setHistory initialState
                    (JArray [newHistoryItem (str "2+3") (VNum (Z_to_number 5)) (str "now")]))
                 (str "7*"))
              [newHistoryItem (str "2+3") (VNum (Z_to_number 5)) (str "now")]
              1 eq_refl) _).
    right. cbn [List.length]. lia.
Defined.

(** ** Number to words *)

(** C4: the words for 0, -5, 100, 1020, 19, 21 and 3.05. *)
Theorem numberToWords_examples :
  numberToWords (VNum (Z_to_number 0)) = str "Zero"
  /\ numberToWords (VNum (Number_unaryMinus (Z_to_number 5))) = str "Negative Five"
  /\ numberToWords (VNum (Z_to_number 100)) = str "One Hundred"
  /\ numberToWords (VNum (Z_to_number 1020)) = str "One Thousand, Twenty"
  /\ numberToWords (VNum (Z_to_number 19)) = str "Nineteen"
  /\ numberToWords (VNum (Z_to_number 21)) = str "Twenty-One"
  /\ numberToWords (VNum (decimalToNumber false 305 (-2))) = str "Three Point Zero Five".
Proof. vm_compute. repeat split. Qed.

Lemma digit_cases (c : jschar) :
  isDigit c = true ->
  (c = 48 \/ c = 49 \/ c = 50 \/ c = 51 \/ c = 52
   \/ c = 53 \/ c = 54 \/ c = 55 \/ c = 56 \/ c = 57)%N.
Proof.
  unfold isDigit. intros H. apply andb_true_iff in H as [H1 H2].
  apply N.leb_le in H1, H2. lia.
Qed.

Ltac each_digit H :=
  destruct (digit_cases _ H) as
    [->|[->|[->|[->|[->|[->|[->|[->|[->| ->]]]]]]]]].

Lemma digitWord_name (c : jschar) : isDigit c = true -> digitWord c = digitName c.
Proof. intros H. each_digit H; vm_compute; reflexivity. Qed.

Lemma digitName_ends (c : jschar) :
  isDigit c = true ->
  exists w d, digitName c = w ++ [d] /\ isWhiteSpace d = false.
Proof.
  intros H.
  each_digit H;
    match goal with
    | |- exists w d, ?n = _ /\ _ =>
        let v := eval vm_compute in n in
        exists (removelast v), (last v 0%N); split; vm_compute; reflexivity
    end.
Qed.

Lemma trimStart_keeps (c : jschar) (s : jsstring) :
  isWhiteSpace c = false -> trimStart (c :: s) = c :: s.
Proof. intros H. simpl. now rewrite H. Qed.

Lemma trimEnd_keeps (s : jsstring) (c : jschar) :
  isWhiteSpace c = false -> trimEnd (s ++ [c]) = s ++ [c].
Proof.
  intros H. unfold trimEnd. rewrite rev_app_distr. simpl rev at 2. simpl app at 1.
  rewrite trimStart_keeps by exact H.
  change (c :: rev s) with ([c] ++ rev s).
  now rewrite rev_app_distr, rev_involutive.
Qed.

Lemma trim_keeps (c : jschar) (s : jsstring) (d : jschar) :
  isWhiteSpace c = false -> isWhiteSpace d = false ->
  trim (c :: s ++ [d]) = c :: s ++ [d].
Proof.
  intros Hc Hd. unfold trim. rewrite trimStart_keeps by exact Hc.
  change (c :: s ++ [d]) with ((c :: s) ++ [d]). now apply trimEnd_keeps.
Qed.

Lemma trim_keeps_app (c : jschar) (s w : jsstring) (d : jschar) :
  isWhiteSpace c = false -> isWhiteSpace d = false ->
  trim ((c :: s) ++ w ++ [d]) = (c :: s) ++ w ++ [d].
Proof.
  intros Hc Hd. rewrite app_assoc. cbn [app]. now apply trim_keeps.
Qed.

Lemma splitChar_digits (ds : jsstring) :
  forallb isDigit ds = true -> splitChar (ch ".") ds = [ds].
Proof.
  induction ds as [|c ds IH]; intros H.
  - reflexivity.
  - cbn [forallb] in H. apply andb_true_iff in H as [Hc Hds].
    cbn [splitChar]. rewrite (IH Hds).
    each_digit Hc; reflexivity.
Qed.

Lemma flat_map_digit_names (ds : jsstring) :
  forallb isDigit ds = true ->
  flat_map (fun d => ch " " :: digitWord d) ds
  = flat_map (fun d => ch " " :: digitName d) ds.
Proof.
  induction ds as [|c ds IH]; intros H.
  - reflexivity.
  - cbn [forallb] in H. apply andb_true_iff in H as [Hc Hds].
    cbn [flat_map]. now rewrite (digitWord_name c Hc), (IH Hds).
Qed.

Lemma pointWords_ends (ds : jsstring) :
  ds <> [] -> forallb isDigit ds = true ->
  exists w d, pointWords ds = w ++ [d] /\ isWhiteSpace d = false.
Proof.
  intros Hne Hd.
  destruct (exists_last Hne) as (ds' & c & ->).
  rewrite forallb_app in Hd. apply andb_true_iff in Hd as [_ Hc].
  simpl in Hc. rewrite andb_true_r in Hc.
  destruct (digitName_ends c Hc) as (w & d & Hw & Hws).
  exists (str " Point" ++ flat_map (fun d => ch " " :: digitName d) ds' ++ ch " " :: w), d.
  split; [|exact Hws].
  unfold pointWords. rewrite flat_map_app. simpl flat_map at 2.
  rewrite app_nil_r, Hw, <- !app_assoc. reflexivity.
Qed.

(** C10: a Number whose magnitude is rendered as ["0."] and digits (a
    magnitude below one, written without exponent) reads ["Zero Point"] and
    one word for each digit, after ["Negative "] when it is below zero.  The
    Number is one that reads back from its own rendering, as ECMA-262 has it
    for every Number. *)
Theorem numberToWords_below_one :
  forall (x : number) (digits : jsstring),
    Number_toString (Math_abs x) = ch "0" :: ch "." :: digits ->
    digits <> [] ->
    forallb isDigit digits = true ->
    parseFloat (Number_toString x) = x ->
    numberToWords (VNum x) =
      (if Number_lessThan x posZero then str "Negative " else [])
      ++ str "Zero" ++ pointWords digits.
Proof.
  intros x digits Hs Hne Hd Hrt.
  destruct (pointWords_ends digits Hne Hd) as (w & d & Hw & Hws).
  unfold numberToWords.
  cbn [strictEqualsString ToString]. rewrite Hrt.
  destruct x as [s|s| |s m e]; try discriminate Hs.
  cbn [Number_isNaN]. rewrite Hs.
  replace (Number_equal (S754_finite s m e) posZero) with false
    by (destruct s; reflexivity).
  change (splitChar (ch ".") (ch "0" :: ch "." :: digits))
    with ([ch "0"] :: splitChar (ch ".") digits).
  rewrite (splitChar_digits digits Hd).
  cbn [nth nth_error].
  change (Number_equal (parseInt [ch "0"]) posZero) with true. cbv iota.
  change (trim (join (str ", ") [str "Zero"])) with (str "Zero").
  destruct digits as [|d0 digits']; [contradiction|].
  rewrite (flat_map_digit_names _ Hd).
  fold (pointWords (d0 :: digits')). rewrite Hw.
  destruct s; cbn [Number_lessThan SFltb SFcompare posZero].
  - transitivity ((ch "N" :: str "egative Zero") ++ w ++ [d]); [|reflexivity].
    apply trim_keeps_app; [reflexivity|exact Hws].
  - transitivity ((ch "Z" :: str "ero") ++ w ++ [d]); [|reflexivity].
    apply trim_keeps_app; [reflexivity|exact Hws].
Qed.

Lemma numberToWords_below_one_witness :
  numberToWords (VNum (decimalToNumber false 5 (-1))) = str "Zero Point Five"
  /\ numberToWords (VNum (decimalToNumber true 5 (-1))) = str "Negative Zero Point Five".
Proof.
  split.
  - apply (numberToWords_below_one (decimalToNumber false 5 (-1)) (str "5"));
      [vm_compute; reflexivity | discriminate | reflexivity | vm_compute; reflexivity].
  - apply (numberToWords_below_one (decimalToNumber true 5 (-1)) (str "5"));
      [vm_compute; reflexivity | discriminate | reflexivity | vm_compute; reflexivity].
Defined.

(** ** Expression to words *)








(** ** The evaluator on well-formed expressions *)

(** *** What a printed expression is made of *)

Lemma literalOk_parts (i f : jsstring) :
  literalOk i f = true ->
  forallb isDigit i = true /\ forallb isDigit f = true
  /\ exists c i', i = c :: i' /\ isDigit c = true
                  /\ (i' = [] \/ (c =? ch "0")%N = false).
Proof.
  unfold literalOk. intros H.
  apply andb_true_iff in H as [H H3]. apply andb_true_iff in H as [H1 H2].
  split; [exact H1|]. split; [exact H2|].
  destruct i as [|c i']; [discriminate|].
  exists c, i'. split; [reflexivity|].
  cbn [forallb] in H1. apply andb_true_iff in H1 as [Hc _].
  split; [exact Hc|].
  destruct i' as [|c' i'']; [now left|].
  right. now apply negb_true_iff.
Qed.

Lemma digit_allowed (c : jschar) : isDigit c = true -> allowedChar c = true.
Proof. intros H. unfold allowedChar. now rewrite H. Qed.

Lemma digits_allowed (ds : jsstring) :
  forallb isDigit ds = true -> forallb allowedChar ds = true.
Proof.
  induction ds as [|c ds IH]; cbn [forallb]; intros H.
  - reflexivity.
  - apply andb_true_iff in H as [Hc Hds].
    now rewrite (digit_allowed c Hc), (IH Hds).
Qed.

Lemma print_allowed (e : aexp) :
  forall lvl, wellFormed lvl e = true -> forallb allowedChar (print e) = true.
Proof.
  induction e as [i f|e IH|op l IHl r IHr]; intros lvl H; cbn [wellFormed print] in *.
  - destruct (literalOk_parts i f H) as (Hi & Hf & _).
    unfold printLiteral. destruct f as [|c f].
    + now apply digits_allowed.
    + rewrite forallb_app, (digits_allowed i Hi). cbn [forallb andb].
      change (allowedChar (ch ".")) with true.
      now apply (digits_allowed (c :: f)).
  - cbn [forallb]. rewrite forallb_app, (IH _ H). reflexivity.
  - apply andb_true_iff in H as [H Hr]. apply andb_true_iff in H as [_ Hl].
    rewrite forallb_app, (IHl _ Hl). cbn [forallb andb].
    rewrite (IHr _ Hr). destruct op; reflexivity.
Qed.

Lemma sanitize_print (e : aexp) (lvl : nat) :
  wellFormed lvl e = true -> sanitize (print e) = print e.
Proof.
  intros H. apply forallb_filter_id. exact (print_allowed e lvl H).
Qed.

Lemma print_operandStart (e : aexp) :
  forall lvl rest, wellFormed lvl e = true -> operandStart (print e ++ rest) = true.
Proof.
  induction e as [i f|e IH|op l IHl r IHr]; intros lvl rest H; cbn [wellFormed print] in *.
  - destruct (literalOk_parts i f H) as (_ & _ & c & i' & -> & Hc & _).
    unfold printLiteral. destruct f; cbn [app operandStart]; now rewrite Hc.
  - reflexivity.
  - apply andb_true_iff in H as [H _]. apply andb_true_iff in H as [_ Hl].
    rewrite <- app_assoc. exact (IHl _ _ Hl).
Qed.

Lemma operandStart_no_operator (s : jsstring) :
  operandStart s = true ->
  startsWith (str "+") s = false /\ startsWith (str "-") s = false
  /\ startsWith (str "*") s = false /\ startsWith (str "/") s = false.
Proof.
  destruct s as [|c s]; [discriminate|]. cbn [operandStart]. intros H.
  apply orb_true_iff in H as [H|H].
  - each_digit H; repeat split.
  - apply N.eqb_eq in H. subst c. repeat split.
Qed.

Lemma operandStart_cons (s : jsstring) :
  operandStart s = true ->
  exists c s', s = c :: s' /\ (isDigit c = true \/ c = ch "(").
Proof.
  destruct s as [|c s]; [discriminate|]. cbn [operandStart]. intros H.
  exists c, s. split; [reflexivity|].
  apply orb_true_iff in H as [H|H]; [now left|right; now apply N.eqb_eq].
Qed.

(** *** The tokens of a printed expression *)

Lemma spanDigits_app (ds rest : jsstring) :
  forallb isDigit ds = true ->
  match rest with c :: _ => isDigit c = false | [] => True end ->
  spanDigits (ds ++ rest) = (ds, rest).
Proof.
  induction ds as [|c ds IH]; cbn [forallb app]; intros Hd Hr.
  - destruct rest as [|c rest]; cbn [spanDigits]; [reflexivity|now rewrite Hr].
  - apply andb_true_iff in Hd as [Hc Hds].
    cbn [spanDigits]. now rewrite Hc, (IH Hds Hr).
Qed.

Lemma endsLiteral_no_digit (rest : jsstring) :
  endsLiteral rest = true ->
  match rest with c :: _ => isDigit c = false | [] => True end.
Proof.
  destruct rest as [|c rest]; [trivial|]. cbn [endsLiteral]. unfold plainChar.
  intros H. apply andb_true_iff in H as [H _]. now apply negb_true_iff.
Qed.

Lemma lexNumber_literal (i f rest : jsstring) :
  literalOk i f = true -> endsLiteral rest = true ->
  lexNumber (printLiteral i f ++ rest) = (literalValue i f, rest).
Proof.
  intros Hok Hrest.
  destruct (literalOk_parts i f Hok) as (Hi & Hf & c & i' & -> & Hc & Hz).
  assert (Hoct : match i' with
                 | [] => True
                 | _ => (c =? ch "0")%N && forallb isOctalDigit (c :: i') = false
                 end).
  { destruct i'; [trivial|]. destruct Hz as [Hz|Hz]; [discriminate|now rewrite Hz]. }
  unfold lexNumber, printLiteral, literalValue.
  destruct f as [|d f].
  - rewrite (spanDigits_app (c :: i') rest Hi (endsLiteral_no_digit rest Hrest)).
    rewrite app_nil_r. change (- Z.of_nat (List.length (@nil jschar))) with 0.
    assert (Hfr : match rest with
                  | c0 :: r' => if (c0 =? ch ".")%N then Some (spanDigits r') else None
                  | [] => None
                  end = None).
    { destruct rest as [|c0 rest]; [reflexivity|]. cbn [endsLiteral] in Hrest.
      unfold plainChar in Hrest. apply andb_true_iff in Hrest as [_ Hp].
      apply negb_true_iff in Hp. now rewrite Hp. }
    destruct i' as [|c' i''].
    + now rewrite Hfr.
    + rewrite Hoct. now rewrite Hfr.
  - rewrite <- app_assoc, <- (app_comm_cons (d :: f) rest (ch ".")).
    rewrite (spanDigits_app (c :: i') (ch "." :: (d :: f) ++ rest) Hi eq_refl).
    change (ch "." =? ch ".")%N with true. cbv iota.
    rewrite (spanDigits_app (d :: f) rest Hf (endsLiteral_no_digit rest Hrest)).
    destruct i' as [|c' i''].
    + reflexivity.
    + now rewrite Hoct.
Qed.

Lemma lex_nil (fuel : nat) (b : bool) : lex fuel b [] = Some [].
Proof. destruct fuel; reflexivity. Qed.

Lemma lex_literal (i f rest : jsstring) (fuel : nat) (b : bool) :
  literalOk i f = true -> endsLiteral rest = true ->
  lex (S fuel) b (printLiteral i f ++ rest)
  = consToken (TNum (literalValue i f)) (lex fuel true rest).
Proof.
  intros Hok Hrest.
  pose proof (lexNumber_literal i f rest Hok Hrest) as Hn.
  destruct (literalOk_parts i f Hok) as (_ & _ & c & i' & Hi & Hc & _).
  assert (Hs : exists s', printLiteral i f ++ rest = c :: s').
  { subst i. unfold printLiteral. destruct f; cbn [app]; eexists; reflexivity. }
  destruct Hs as (s' & Hs). rewrite Hs in *.
  cbn [lex]. rewrite Hc. cbn [orb]. now rewrite Hn.
Qed.

Lemma consToken_prepend (t : token) (ts : list token) (o : option (list token)) :
  consToken t (prepend ts o) = prepend (t :: ts) o.
Proof. destruct o; reflexivity. Qed.

Lemma prepend_prepend (ts ts' : list token) (o : option (list token)) :
  prepend ts (prepend ts' o) = prepend (ts ++ ts') o.
Proof. destruct o; cbn [prepend]; [now rewrite app_assoc|reflexivity]. Qed.

Lemma prepend_consToken (ts : list token) (t : token) (o : option (list token)) :
  prepend ts (consToken t o) = prepend (ts ++ [t]) o.
Proof.
  destruct o; cbn [prepend consToken]; [|reflexivity].
  now rewrite <- app_assoc.
Qed.

Lemma lex_operator (op : aop) (fuel : nat) (s : jsstring) :
  operandStart s = true ->
  lex (S fuel) true (opChar op :: s) = consToken (opToken op) (lex fuel false s).
Proof.
  intros H. destruct (operandStart_no_operator s H) as (Hp & Hm & Ht & Hs).
  destruct op; cbn [lex opChar opToken].
  - change (isDigit (ch "+")) with false. change (ch "+" =? ch ".")%N with false.
    change (ch "+" =? ch "+")%N with true. cbn [orb andb]. now rewrite Hp.
  - change (isDigit (ch "-")) with false. change (ch "-" =? ch ".")%N with false.
    change (ch "-" =? ch "+")%N with false. change (ch "-" =? ch "-")%N with true.
    cbn [orb andb]. now rewrite Hm.
  - change (isDigit (ch "*")) with false. change (ch "*" =? ch ".")%N with false.
    change (ch "*" =? ch "+")%N with false. change (ch "*" =? ch "-")%N with false.
    change (ch "*" =? ch "*")%N with true.
    cbn [orb andb]. now rewrite Ht.
  - change (isDigit (ch "/")) with false. change (ch "/" =? ch ".")%N with false.
    change (ch "/" =? ch "+")%N with false. change (ch "/" =? ch "-")%N with false.
    change (ch "/" =? ch "*")%N with false. change (ch "/" =? ch "(")%N with false.
    change (ch "/" =? ch ")")%N with false. change (ch "/" =? ch "/")%N with true.
    cbn [orb andb]. now rewrite Hs, Ht.
Qed.

Lemma lex_print (e : aexp) :
  forall lvl rest b fuel,
    wellFormed lvl e = true -> endsLiteral rest = true ->
    lex (List.length (tokensOf e) + fuel) b (print e ++ rest)
    = prepend (tokensOf e) (lex fuel true rest).
Proof.
  induction e as [i f|e IH|op l IHl r IHr]; intros lvl rest b fuel H Hrest;
    cbn [wellFormed print tokensOf] in *.
  - cbn [List.length Nat.add]. rewrite (lex_literal i f rest fuel b H Hrest).
    now destruct (lex fuel true rest).
  - cbn [List.length]. rewrite length_app. cbn [List.length Nat.add app].
    rewrite <- app_assoc. cbn [app lex].
    change (isDigit (ch "(")) with false. change (ch "(" =? ch ".")%N with false.
    change (ch "(" =? ch "+")%N with false. change (ch "(" =? ch "-")%N with false.
    change (ch "(" =? ch "*")%N with false. change (ch "(" =? ch "(")%N with true.
    cbn [orb andb]. cbv iota.
    rewrite <- Nat.add_assoc.
    rewrite (IH 0%nat (ch ")" :: rest) false (1 + fuel)%nat H eq_refl).
    cbn [Nat.add lex].
    change (isDigit (ch ")")) with false. change (ch ")" =? ch ".")%N with false.
    change (ch ")" =? ch "+")%N with false. change (ch ")" =? ch "-")%N with false.
    change (ch ")" =? ch "*")%N with false. change (ch ")" =? ch "(")%N with false.
    change (ch ")" =? ch ")")%N with true.
    cbn [orb andb]. cbv iota.
    now rewrite prepend_consToken, consToken_prepend.
  - apply andb_true_iff in H as [H Hr]. apply andb_true_iff in H as [_ Hl].
    rewrite length_app. cbn [List.length].
    rewrite <- app_assoc, <- Nat.add_assoc. cbn [app].
    assert (Hop : endsLiteral (opChar op :: print r ++ rest) = true)
      by (destruct op; reflexivity).
    rewrite (IHl _ _ b _ Hl Hop). cbn [Nat.add].
    rewrite (lex_operator op _ _ (print_operandStart r _ rest Hr)).
    rewrite (IHr _ _ false _ Hr Hrest).
    rewrite consToken_prepend, prepend_prepend. reflexivity.
Qed.

(** *** The syntax tree of a printed expression *)

Lemma continuesAt_mono (lvl lvl' : nat) (ts : list token) :
  (lvl <= lvl')%nat -> continuesAt lvl ts = false -> continuesAt lvl' ts = false.
Proof.
  intros Hl. destruct ts as [|[] ts]; cbn [continuesAt]; try easy.
  all: intros H; apply Nat.leb_gt in H; apply Nat.leb_gt; lia.
Qed.

Lemma additiveLoop_stop (f : nat) (a : expr) (ts : list token) :
  continuesAt 0 ts = false -> additiveLoop (S f) a ts = Some (a, ts).
Proof. destruct ts as [|[] ts]; cbn [continuesAt]; try discriminate; reflexivity. Qed.

Lemma multiplicativeLoop_stop (f : nat) (a : expr) (ts : list token) :
  continuesAt 1 ts = false -> multiplicativeLoop (S f) a ts = Some (a, ts).
Proof. destruct ts as [|[] ts]; cbn [continuesAt]; try discriminate; reflexivity. Qed.

Lemma additiveLoop_operator (op : aop) (f : nat) (a : expr) (ts : list token) :
  precedence op = 0%nat ->
  additiveLoop (S f) a (opToken op :: ts)
  = match parseMultiplicative f ts with
    | Some (b, r) => additiveLoop f (EBinary (opBinop op) a b) r
    | None => None
    end.
Proof. destruct op; try discriminate; reflexivity. Qed.

Lemma multiplicativeLoop_operator (op : aop) (f : nat) (a : expr) (ts : list token) :
  precedence op = 1%nat ->
  multiplicativeLoop (S f) a (opToken op :: ts)
  = match parseExponentiation f ts with
    | Some (b, r) => multiplicativeLoop f (EBinary (opBinop op) a b) r
    | None => None
    end.
Proof. destruct op; try discriminate; reflexivity. Qed.

Lemma parseExponentiation_primary (f : nat) (ts rest : list token) (a : expr) :
  parsePrimary (S f) ts = Some (a, rest) ->
  continuesAt 2 rest = false ->
  parseExponentiation (S (S (S f))) ts = Some (a, rest).
Proof.
  intros Hp Hrest.
  assert (Hc : parseCall (S (S f)) ts = Some (a, rest)).
  { change (parseCall (S (S f)) ts)
      with (match parsePrimary (S f) ts with
            | Some (a, r) => callLoop (S f) a r
            | None => None
            end).
    rewrite Hp. destruct rest as [|[] rest]; try discriminate; reflexivity. }
  destruct ts as [|t ts]; [discriminate|].
  destruct t; try discriminate;
    (change (parseExponentiation (S (S (S f))) (?t :: ts))
       with (match parseCall (S (S f)) (t :: ts) with
             | Some (a, TStarStar :: r) =>
                 match parseExponentiation (S (S f)) r with
                 | Some (b, r') => Some (EBinary Exp a b, r')
                 | None => None
                 end
             | res => res
             end) || idtac);
    rewrite Hc; destruct rest as [|[] rest]; try discriminate; reflexivity.
Qed.

Lemma parsesPrimary_exponentiation (e : aexp) :
  parsesPrimary e ->
  exists n, (1 <= n /\ n + 6 <= 8 * size e)%nat
    /\ forall f rest, (n + 2 <= f)%nat -> continuesAt 2 rest = false ->
         parseExponentiation f (tokensOf e ++ rest) = Some (treeOf e, rest).
Proof.
  intros (n & Hn & Hp). exists n. split; [exact Hn|].
  intros f rest Hf Hrest.
  destruct f as [|[|[|f]]]; try lia.
  apply parseExponentiation_primary; [|exact Hrest].
  apply Hp. lia.
Qed.

Lemma parsesPrimary_multiplicative (e : aexp) :
  parsesPrimary e -> parsesMultiplicative e.
Proof.
  intros Hp. destruct (parsesPrimary_exponentiation e Hp) as (n & Hn & He).
  exists 0%nat, (n + 2)%nat. split; [lia|].
  intros f rest Hf Hrest. cbn [Nat.add].
  change (parseMultiplicative (S f) (tokensOf e ++ rest))
    with (match parseExponentiation f (tokensOf e ++ rest) with
          | Some (a, r) => multiplicativeLoop f a r
          | None => None
          end).
  now rewrite (He f rest Hf Hrest).
Qed.

Lemma parsesMultiplicative_all (e : aexp) :
  parsesMultiplicative e ->
  exists n, (n + 3 <= 8 * size e)%nat
    /\ forall f rest, (n <= f)%nat -> continuesAt 1 rest = false ->
         parseMultiplicative f (tokensOf e ++ rest) = Some (treeOf e, rest).
Proof.
  intros (c & n & Hn & Hm). exists (S (c + n)). split; [lia|].
  intros f rest Hf Hrest.
  replace f with (S (c + (f - S c))) by lia.
  rewrite Hm; [|lia|exact (continuesAt_mono 1 2 rest ltac:(lia) Hrest)].
  destruct (f - S c)%nat as [|k] eqn:E; [lia|].
  now apply multiplicativeLoop_stop.
Qed.

Lemma parsesMultiplicative_additive (e : aexp) :
  parsesMultiplicative e -> parsesAdditive e.
Proof.
  intros Hm. destruct (parsesMultiplicative_all e Hm) as (n & Hn & Ha).
  exists 0%nat, (S n). split; [lia|].
  intros f rest Hf Hrest. cbn [Nat.add].
  change (parseAdditive (S f) (tokensOf e ++ rest))
    with (match parseMultiplicative f (tokensOf e ++ rest) with
          | Some (a, r) => additiveLoop f a r
          | None => None
          end).
  rewrite (Ha f rest ltac:(lia) Hrest). reflexivity.
Qed.

Lemma parsesAdditive_all (e : aexp) :
  parsesAdditive e ->
  exists n, (n + 1 <= 8 * size e)%nat
    /\ forall f rest, (n <= f)%nat -> continuesAt 0 rest = false ->
         parseAdditive f (tokensOf e ++ rest) = Some (treeOf e, rest).
Proof.
  intros (c & n & Hn & Ha). exists (S (c + n)). split; [lia|].
  intros f rest Hf Hrest.
  replace f with (S (c + (f - S c))) by lia.
  rewrite Ha; [|lia|exact (continuesAt_mono 0 1 rest ltac:(lia) Hrest)].
  destruct (f - S c)%nat as [|k] eqn:E; [lia|].
  now apply additiveLoop_stop.
Qed.

Lemma parsesPrimary_literal (i f : jsstring) : parsesPrimary (ALit i f).
Proof.
  exists 1%nat. split; [cbn [size]; lia|].
  intros fuel rest Hf. destruct fuel as [|fuel]; [lia|]. reflexivity.
Qed.

Lemma parsesPrimary_paren (e : aexp) : parsesAdditive e -> parsesPrimary (AParen e).
Proof.
  intros Ha. destruct (parsesAdditive_all e Ha) as (n & Hn & Hp).
  exists (S (S n)). split; [cbn [size]; lia|].
  intros f rest Hf. destruct f as [|f]; [lia|].
  cbn [tokensOf treeOf]. rewrite <- app_comm_cons, <- app_assoc.
  change (parsePrimary (S f) (TLParen :: tokensOf e ++ [TRParen] ++ rest))
    with (match parseAdditive f (tokensOf e ++ [TRParen] ++ rest) with
          | Some (e', TRParen :: r') => Some (e', r')
          | _ => None
          end).
  rewrite (Hp f ([TRParen] ++ rest) ltac:(lia) eq_refl). reflexivity.
Qed.

Lemma parsesMultiplicative_operator (op : aop) (l r : aexp) :
  precedence op = 1%nat ->
  parsesMultiplicative l -> parsesPrimary r ->
  parsesMultiplicative (ABin op l r).
Proof.
  intros Hop (c & n & Hn & Hl) Hr.
  destruct (parsesPrimary_exponentiation r Hr) as (m & Hm & He).
  exists (S c), (Nat.max n (m + 2)). split; [cbn [size]; lia|].
  intros f rest Hf Hrest. cbn [tokensOf treeOf].
  rewrite <- app_assoc, <- app_comm_cons.
  replace (S c + f)%nat with (c + S f)%nat by lia.
  rewrite Hl; [|lia|destruct op; reflexivity].
  rewrite (multiplicativeLoop_operator op _ _ _ Hop).
  rewrite (He f rest ltac:(lia) Hrest). reflexivity.
Qed.

Lemma parsesAdditive_operator (op : aop) (l r : aexp) :
  precedence op = 0%nat ->
  parsesAdditive l -> parsesMultiplicative r ->
  parsesAdditive (ABin op l r).
Proof.
  intros Hop (c & n & Hn & Hl) Hr.
  destruct (parsesMultiplicative_all r Hr) as (m & Hm & He).
  exists (S c), (Nat.max n m). split; [cbn [size]; lia|].
  intros f rest Hf Hrest. cbn [tokensOf treeOf].
  rewrite <- app_assoc, <- app_comm_cons.
  replace (S c + f)%nat with (c + S f)%nat by lia.
  rewrite Hl; [|lia|destruct op; try discriminate; reflexivity].
  rewrite (additiveLoop_operator op _ _ _ Hop).
  rewrite (He f rest ltac:(lia) Hrest). reflexivity.
Qed.

Lemma precedence_cases (op : aop) : precedence op = 0%nat \/ precedence op = 1%nat.
Proof. destruct op; auto. Qed.

Lemma parses_wellFormed (e : aexp) :
  (wellFormed 2 e = true -> parsesPrimary e)
  /\ (wellFormed 1 e = true -> parsesMultiplicative e)
  /\ (wellFormed 0 e = true -> parsesAdditive e).
Proof.
  induction e as [i f|e IH|op l IHl r IHr]; cbn [wellFormed].
  - pose proof (parsesPrimary_literal i f) as Hp.
    pose proof (parsesPrimary_multiplicative _ Hp) as Hm.
    pose proof (parsesMultiplicative_additive _ Hm) as Ha.
    auto.
  - destruct IH as (_ & _ & IH).
    assert (Hp : wellFormed 0 e = true -> parsesPrimary (AParen e))
      by (intros H; apply parsesPrimary_paren, IH, H).
    repeat split; intros H.
    + auto.
    + apply parsesPrimary_multiplicative; auto.
    + apply parsesMultiplicative_additive, parsesPrimary_multiplicative; auto.
  - destruct IHl as (_ & IHl1 & IHl0). destruct IHr as (IHr2 & IHr1 & _).
    destruct (precedence_cases op) as [Hop|Hop]; rewrite Hop; cbn [Nat.leb andb].
    + repeat split; try discriminate.
      intros H. apply andb_true_iff in H as [Hl Hr].
      apply parsesAdditive_operator; auto.
    + assert (Hm : wellFormed 1 l && wellFormed 2 r = true ->
                   parsesMultiplicative (ABin op l r)).
      { intros H. apply andb_true_iff in H as [Hl Hr].
        apply parsesMultiplicative_operator; auto. }
      repeat split; try discriminate; intros H.
      * auto.
      * apply parsesMultiplicative_additive; auto.
Qed.

Lemma size_le_tokens (e : aexp) : (size e <= List.length (tokensOf e))%nat.
Proof.
  induction e as [i f|e IH|op l IHl r IHr]; cbn [size tokensOf List.length].
  - lia.
  - rewrite length_app. cbn [List.length]. lia.
  - rewrite length_app. cbn [List.length]. lia.
Qed.

Lemma parseProgram_print (e : aexp) :
  wellFormed 0 e = true -> parseProgram (tokensOf e) = Some (Some (treeOf e)).
Proof.
  intros H.
  destruct (parses_wellFormed e) as (_ & _ & Ha).
  destruct (parsesAdditive_all e (Ha H)) as (n & Hn & Hp).
  pose proof (size_le_tokens e) as Hs.
  assert (Hparse : parseAdditive (9 * S (List.length (tokensOf e))) (tokensOf e)
                   = Some (treeOf e, [])).
  { rewrite <- (app_nil_r (tokensOf e)) at 2. apply Hp; [lia|reflexivity]. }
  unfold parseProgram. rewrite Hparse.
  destruct (tokensOf e) as [|t ts] eqn:Et; [|reflexivity].
  destruct e; cbn [size List.length] in Hs; lia.
Qed.

(** *** The value of the syntax tree *)

Lemma evaluate_tree (e : aexp) : evaluate (treeOf e) = Returns (Num (aeval e)).
Proof.
  induction e as [i f|e IH|op l IHl r IHr]; cbn [treeOf evaluate aeval].
  - reflexivity.
  - exact IH.
  - rewrite IHl, IHr. destruct op; reflexivity.
Qed.

Lemma tokens_le_length (e : aexp) :
  forall lvl, wellFormed lvl e = true ->
    (List.length (tokensOf e) <= List.length (print e))%nat.
Proof.
  induction e as [i f|e IH|op l IHl r IHr]; intros lvl H; cbn [wellFormed print tokensOf] in *.
  - destruct (literalOk_parts i f H) as (_ & _ & c & i' & -> & _).
    unfold printLiteral. destruct f; cbn [List.length]; [lia|].
    rewrite length_app. cbn [List.length]. lia.
  - cbn [List.length]. rewrite !length_app. cbn [List.length].
    specialize (IH _ H). lia.
  - apply andb_true_iff in H as [H Hr]. apply andb_true_iff in H as [_ Hl].
    rewrite !length_app. cbn [List.length].
    specialize (IHl _ Hl). specialize (IHr _ Hr). lia.
Qed.

Lemma Function_return_print (e : aexp) :
  wellFormed 0 e = true ->
  Function_return (print e) = Returns (Num (aeval e)).
Proof.
  intros H. unfold Function_return.
  pose proof (tokens_le_length e 0 H) as Hlen.
  replace (List.length (print e))
    with (List.length (tokensOf e) + (List.length (print e) - List.length (tokensOf e)))%nat
    by lia.
  rewrite <- (app_nil_r (print e)) at 2.
  rewrite (lex_print e 0 [] false _ H eq_refl).
  rewrite lex_nil. cbn [prepend]. rewrite app_nil_r.
  rewrite (parseProgram_print e H). apply evaluate_tree.
Qed.

(** C1 (as amended): for every well-formed expression of decimal literals,
    [+ - * /] and parentheses that does not contain ["/0"],
    [evaluateExpression] returns the value that standard precedence gives it
    (in binary64 arithmetic), rounded to ten decimals. *)
Theorem evaluateExpression_standard_precedence :
  forall e : aexp,
    wellFormed 0 e = true ->
    includes (print e) (str "/0") = false ->
    evaluateExpression (print e) = Returns (VNum (roundTo10 (aeval e))).
Proof.
  intros e Hwf Hguard.
  unfold evaluateExpression, evaluateExpressionWith.
  rewrite Hguard, (sanitize_print e 0 Hwf), (Function_return_print e Hwf).
  reflexivity.
Qed.

Lemma evaluateExpression_standard_precedence_witness :
  evaluateExpression (str "2+3*4") = Returns (VNum (Z_to_number 14))
  /\ evaluateExpression (str "(2+3)*4") = Returns (VNum (Z_to_number 20)).
Proof.
  split.
  - refine (eq_trans
      (evaluateExpression_standard_precedence
         (ABin OAdd (ALit (str "2") [])
            (ABin OMul (ALit (str "3") []) (ALit (str "4") [])))
         eq_refl eq_refl) _).
    vm_compute. reflexivity.
  - refine (eq_trans
      (evaluateExpression_standard_precedence
         (ABin OMul (AParen (ABin OAdd (ALit (str "2") []) (ALit (str "3") [])))
            (ALit (str "4") []))
         eq_refl eq_refl) _).
    vm_compute. reflexivity.
Defined.

(** C1 fails as stated: ["1/0.5"] is well formed and its value is 2, and
    [evaluateExpression] returns the error marker for it. *)
Lemma well_formed_division_refused :
  wellFormed 0 (ABin ODiv (ALit (str "1") []) (ALit (str "0") (str "5"))) = true
  /\ print (ABin ODiv (ALit (str "1") []) (ALit (str "0") (str "5"))) = str "1/0.5"
  /\ roundTo10 (aeval (ABin ODiv (ALit (str "1") []) (ALit (str "0") (str "5"))))
     = Z_to_number 2
  /\ evaluateExpression (str "1/0.5") = Returns (VStr (str "Error")).
Proof. vm_compute. repeat split. Qed.

(** ** Fuel

    The lexer and the parser recurse on a fuel; what they are given is
    enough, so that a refusal is a refusal of the text and never a lack of
    fuel: beyond what they are given, more fuel changes nothing. *)

Lemma spanDigits_length (s : jsstring) :
  (List.length (snd (spanDigits s)) <= List.length s)%nat.
Proof.
  induction s as [|c s IH]; cbn [spanDigits]; [reflexivity|].
  destruct (isDigit c); [|reflexivity].
  destruct (spanDigits s) as [ds r]. cbn [snd List.length] in *. lia.
Qed.

Lemma spanDigits_digit (c : jschar) (s : jsstring) :
  isDigit c = true ->
  (List.length (snd (spanDigits (c :: s))) <= List.length s)%nat.
Proof.
  intros H. cbn [spanDigits]. rewrite H.
  pose proof (spanDigits_length s) as Hs.
  destruct (spanDigits s) as [ds r]. exact Hs.
Qed.

Lemma lexNumber_length (c : jschar) (s : jsstring) :
  isDigit c || (c =? ch ".")%N && match s with d :: _ => isDigit d | [] => false end = true ->
  (List.length (snd (lexNumber (c :: s))) <= List.length s)%nat.
Proof.
  intros H. unfold lexNumber.
  assert (Hfrac : forall r : jsstring,
    match (match r with
           | c0 :: r' => if (c0 =? ch ".")%N then Some (spanDigits r') else None
           | [] => None
           end) with
    | Some (fp, r2) => (List.length r2 <= List.length r)%nat
    | None => True
    end).
  { intros [|c0 r']; [exact I|]. destruct (c0 =? ch ".")%N; [|exact I].
    pose proof (spanDigits_length r') as Hr.
    destruct (spanDigits r') as [fp r2]. cbn [snd List.length] in *. lia. }
  destruct (isDigit c) eqn:Hc.
  - pose proof (spanDigits_digit c s Hc) as Hs.
    destruct (spanDigits (c :: s)) as [ip r1]. cbn [snd] in Hs.
    specialize (Hfrac r1).
    destruct ip as [|c0 [|c1 ip]];
      destruct (match r1 with [] => None | _ => _ end) as [[fp r2]|];
      try destruct ((c0 =? ch "0")%N && _);
      cbn [snd]; lia.
  - cbn [orb] in H. apply andb_true_iff in H as [Hp Hd].
    cbn [spanDigits]. rewrite Hc.
    destruct s as [|d s]; [discriminate|].
    rewrite Hp.
    pose proof (spanDigits_digit d s Hd) as Hs.
    destruct (spanDigits (d :: s)) as [fp r2]. cbn [snd List.length] in *. lia.
Qed.

Lemma skipBlockComment_length (s r : jsstring) :
  skipBlockComment s = Some r -> (List.length r < List.length s)%nat.
Proof.
  revert r. induction s as [|c s IH]; intros r; [discriminate|].
  cbn [skipBlockComment]. destruct s as [|d s]; [discriminate|].
  destruct (_ && _).
  - intros [= <-]. cbn [List.length]. lia.
  - intros H. specialize (IH _ H). cbn [List.length] in *. lia.
Qed.

Lemma untilSlash_length (s body r : jsstring) :
  untilSlash s = Some (body, r) -> (List.length r < List.length s)%nat.
Proof.
  revert body r. induction s as [|c s IH]; intros body r; [discriminate|].
  cbn [untilSlash]. destruct (c =? ch "/")%N.
  - intros [= <- <-]. cbn [List.length]. lia.
  - destruct (untilSlash s) as [[b r']|]; [|discriminate].
    intros [= <- <-]. specialize (IH _ _ eq_refl). cbn [List.length]. lia.
Qed.

Lemma skipn_length_le {A} (n : nat) (l : list A) :
  (List.length (skipn n l) <= List.length l)%nat.
Proof. rewrite length_skipn. lia. Qed.

(** The tokens of a text do not depend on the fuel, from its length on. *)
Lemma lex_enough_fuel (fuel : nat) :
  forall fuel' b s,
    (List.length s <= fuel)%nat -> (List.length s <= fuel')%nat ->
    lex fuel b s = lex fuel' b s.
Proof.
  induction fuel as [|f IH]; intros fuel' b s H H'.
  - destruct s; [now rewrite !lex_nil|cbn [List.length] in H; lia].
  - destruct s as [|c r]; [now rewrite !lex_nil|].
    destruct fuel' as [|f']; [cbn [List.length] in H'; lia|].
    cbn [List.length] in H, H'.
    cbn [lex].
    destruct (isDigit c || _) eqn:Hnum.
    { pose proof (lexNumber_length c r Hnum) as Hl.
      destruct (lexNumber (c :: r)) as [x r']. cbn [snd] in Hl.
      now rewrite (IH f' true r') by lia. }
    destruct (c =? ch ".")%N.
    { destruct (startsWith _ r); [|reflexivity].
      pose proof (skipn_length_le 2 r).
      now rewrite (IH f' false (skipn 2 r)) by lia. }
    destruct (c =? ch "+")%N.
    { destruct (startsWith _ r); [reflexivity|].
      now rewrite (IH f' false r) by lia. }
    destruct (c =? ch "-")%N.
    { destruct (startsWith _ r); [reflexivity|].
      now rewrite (IH f' false r) by lia. }
    destruct (c =? ch "*")%N.
    { destruct (startsWith _ r).
      - pose proof (skipn_length_le 1 r).
        now rewrite (IH f' false (skipn 1 r)) by lia.
      - now rewrite (IH f' false r) by lia. }
    destruct (c =? ch "(")%N; [now rewrite (IH f' false r) by lia|].
    destruct (c =? ch ")")%N; [now rewrite (IH f' true r) by lia|].
    destruct (c =? ch "/")%N; [|reflexivity].
    destruct (startsWith (str "/") r); [reflexivity|].
    destruct (startsWith (str "*") r).
    { destruct (skipBlockComment (skipn 1 r)) as [r'|] eqn:Hc; [|reflexivity].
      pose proof (skipBlockComment_length _ _ Hc).
      pose proof (skipn_length_le 1 r).
      now rewrite (IH f' b r') by lia. }
    destruct b; [now rewrite (IH f' false r) by lia|].
    destruct (untilSlash r) as [[body r']|] eqn:Hu; [|reflexivity].
    pose proof (untilSlash_length _ _ _ Hu).
    rewrite (IH f' true r') by lia. reflexivity.
Qed.

Ltac break_parsed H :=
  repeat match type of H with
  | match ?x with _ => _ end = Some _ =>
      let E := fresh "E" in
      destruct x eqn:E; try discriminate H
  end.

(** What the parser leaves is shorter than what it was given (no longer, for
    the loops). *)
Lemma parse_consumes (fuel : nat) :
  (forall ts e r, parseAdditive fuel ts = Some (e, r) ->
     (List.length r < List.length ts)%nat)
  /\ (forall a ts e r, additiveLoop fuel a ts = Some (e, r) ->
        (List.length r <= List.length ts)%nat)
  /\ (forall ts e r, parseMultiplicative fuel ts = Some (e, r) ->
        (List.length r < List.length ts)%nat)
  /\ (forall a ts e r, multiplicativeLoop fuel a ts = Some (e, r) ->
        (List.length r <= List.length ts)%nat)
  /\ (forall ts e r, parseExponentiation fuel ts = Some (e, r) ->
        (List.length r < List.length ts)%nat)
  /\ (forall ts e r, parseUnary fuel ts = Some (e, r) ->
        (List.length r < List.length ts)%nat)
  /\ (forall ts e r, parseCall fuel ts = Some (e, r) ->
        (List.length r < List.length ts)%nat)
  /\ (forall a ts e r, callLoop fuel a ts = Some (e, r) ->
        (List.length r <= List.length ts)%nat)
  /\ (forall ts e r, parsePrimary fuel ts = Some (e, r) ->
        (List.length r < List.length ts)%nat).
Proof.
  induction fuel as [|f IH].
  - repeat split; intros; discriminate.
  - destruct IH as (IHa & IHal & IHm & IHml & IHe & IHu & IHc & IHcl & IHp).
    assert (Hal : forall a ts e r, additiveLoop (S f) a ts = Some (e, r) ->
                    (List.length r <= List.length ts)%nat).
    { intros a ts e r H. cbn [additiveLoop] in H.
      destruct ts as [|[] ts]; try (injection H as <- <-; reflexivity);
        destruct (parseMultiplicative f ts) as [[b r']|] eqn:E; try discriminate;
        apply IHm in E; apply IHal in H; cbn [List.length]; lia. }
    assert (Hml : forall a ts e r, multiplicativeLoop (S f) a ts = Some (e, r) ->
                    (List.length r <= List.length ts)%nat).
    { intros a ts e r H. cbn [multiplicativeLoop] in H.
      destruct ts as [|[] ts]; try (injection H as <- <-; reflexivity);
        destruct (parseExponentiation f ts) as [[b r']|] eqn:E; try discriminate;
        apply IHe in E; apply IHml in H; cbn [List.length]; lia. }
    assert (Hcl : forall a ts e r, callLoop (S f) a ts = Some (e, r) ->
                    (List.length r <= List.length ts)%nat).
    { intros a ts e r H. cbn [callLoop] in H.
      destruct ts as [|[] ts]; try (injection H as <- <-; reflexivity).
      destruct ts as [|[] ts]; try discriminate;
        try (apply IHcl in H; cbn [List.length]; lia);
        break_parsed H;
        repeat match goal with
               | E : parseAdditive f _ = Some _ |- _ => apply IHa in E
               end;
        apply IHcl in H; cbn [List.length] in *; lia. }
    assert (Hp : forall ts e r, parsePrimary (S f) ts = Some (e, r) ->
                   (List.length r < List.length ts)%nat).
    { intros ts e r H. cbn [parsePrimary] in H.
      destruct ts as [|[] ts]; try discriminate;
        try (injection H as <- <-; cbn [List.length]; lia).
      break_parsed H. injection H as <- <-.
      match goal with E : parseAdditive f _ = Some _ |- _ => apply IHa in E end.
      cbn [List.length] in *. lia. }
    assert (Hc : forall ts e r, parseCall (S f) ts = Some (e, r) ->
                   (List.length r < List.length ts)%nat).
    { intros ts e r H. cbn [parseCall] in H.
      destruct (parsePrimary f ts) as [[a r']|] eqn:E; try discriminate.
      apply IHp in E. apply IHcl in H. lia. }
    assert (Hu : forall ts e r, parseUnary (S f) ts = Some (e, r) ->
                   (List.length r < List.length ts)%nat).
    { intros ts e r H. cbn [parseUnary] in H.
      destruct ts as [|[] ts]; try (apply IHc in H; exact H);
        destruct (parseUnary f ts) as [[a r']|] eqn:E; try discriminate;
        injection H as <- <-; apply IHu in E; cbn [List.length]; lia. }
    assert (He : forall ts e r, parseExponentiation (S f) ts = Some (e, r) ->
                   (List.length r < List.length ts)%nat).
    { assert (Hpow : forall ts e r,
                match parseCall f ts with
                | Some (a, TStarStar :: r0) =>
                    match parseExponentiation f r0 with
                    | Some (b, r') => Some (EBinary Exp a b, r')
                    | None => None
                    end
                | res => res
                end = Some (e, r) ->
                (List.length r < List.length ts)%nat).
      { intros ts e r H.
        destruct (parseCall f ts) as [[a r']|] eqn:E; try discriminate.
        apply IHc in E.
        destruct r' as [|[] r'];
          try (injection H as <- <-; exact E).
        destruct (parseExponentiation f r') as [[b r'']|] eqn:E'; try discriminate.
        injection H as <- <-. apply IHe in E'. cbn [List.length] in *. lia. }
      intros ts e r H. cbn [parseExponentiation] in H.
      destruct ts as [|[] ts];
        try (apply IHu in H; exact H); apply Hpow in H; exact H. }
    assert (Hm : forall ts e r, parseMultiplicative (S f) ts = Some (e, r) ->
                   (List.length r < List.length ts)%nat).
    { intros ts e r H. cbn [parseMultiplicative] in H.
      destruct (parseExponentiation f ts) as [[a r']|] eqn:E; try discriminate.
      apply IHe in E. apply IHml in H. lia. }
    assert (Ha : forall ts e r, parseAdditive (S f) ts = Some (e, r) ->
                   (List.length r < List.length ts)%nat).
    { intros ts e r H. cbn [parseAdditive] in H.
      destruct (parseMultiplicative f ts) as [[a r']|] eqn:E; try discriminate.
      apply IHm in E. apply IHal in H. lia. }
    repeat split; assumption.
Qed.

(** The parser's answer does not depend on the fuel, from seven calls for
    each token on (and one for each grammar level below the start). *)
Lemma parse_enough_fuel (fuel : nat) :
  forall fuel',
  (forall ts, (7 * List.length ts + 6 <= fuel)%nat -> (7 * List.length ts + 6 <= fuel')%nat ->
     parseAdditive fuel ts = parseAdditive fuel' ts)
  /\ (forall a ts, (7 * List.length ts + 1 <= fuel)%nat -> (7 * List.length ts + 1 <= fuel')%nat ->
        additiveLoop fuel a ts = additiveLoop fuel' a ts)
  /\ (forall ts, (7 * List.length ts + 5 <= fuel)%nat -> (7 * List.length ts + 5 <= fuel')%nat ->
        parseMultiplicative fuel ts = parseMultiplicative fuel' ts)
  /\ (forall a ts, (7 * List.length ts + 1 <= fuel)%nat -> (7 * List.length ts + 1 <= fuel')%nat ->
        multiplicativeLoop fuel a ts = multiplicativeLoop fuel' a ts)
  /\ (forall ts, (7 * List.length ts + 4 <= fuel)%nat -> (7 * List.length ts + 4 <= fuel')%nat ->
        parseExponentiation fuel ts = parseExponentiation fuel' ts)
  /\ (forall ts, (7 * List.length ts + 3 <= fuel)%nat -> (7 * List.length ts + 3 <= fuel')%nat ->
        parseUnary fuel ts = parseUnary fuel' ts)
  /\ (forall ts, (7 * List.length ts + 2 <= fuel)%nat -> (7 * List.length ts + 2 <= fuel')%nat ->
        parseCall fuel ts = parseCall fuel' ts)
  /\ (forall a ts, (7 * List.length ts + 1 <= fuel)%nat -> (7 * List.length ts + 1 <= fuel')%nat ->
        callLoop fuel a ts = callLoop fuel' a ts)
  /\ (forall ts, (7 * List.length ts + 1 <= fuel)%nat -> (7 * List.length ts + 1 <= fuel')%nat ->
        parsePrimary fuel ts = parsePrimary fuel' ts).
Proof.
  induction fuel as [|f IH]; intros fuel'.
  - repeat split; intros; lia.
  - destruct fuel' as [|f']; [repeat split; intros; lia|].
    destruct (IH f') as (IHa & IHal & IHm & IHml & IHe & IHu & IHc & IHcl & IHp).
    destruct (parse_consumes f') as (Ca & _ & Cm & _ & Ce & _ & Cc & _ & Cp).
    repeat split.
    + intros ts H H'. cbn [parseAdditive].
      rewrite (IHm ts) by lia.
      destruct (parseMultiplicative f' ts) as [[a r]|] eqn:E; [|reflexivity].
      apply Cm in E. apply IHal; lia.
    + intros a ts H H'. cbn [additiveLoop].
      destruct ts as [|[] ts]; try reflexivity; cbn [List.length] in H, H';
        rewrite (IHm ts) by lia;
        destruct (parseMultiplicative f' ts) as [[b r]|] eqn:E; try reflexivity;
        apply Cm in E; apply IHal; lia.
    + intros ts H H'. cbn [parseMultiplicative].
      rewrite (IHe ts) by lia.
      destruct (parseExponentiation f' ts) as [[a r]|] eqn:E; [|reflexivity].
      apply Ce in E. apply IHml; lia.
    + intros a ts H H'. cbn [multiplicativeLoop].
      destruct ts as [|[] ts]; try reflexivity; cbn [List.length] in H, H';
        rewrite (IHe ts) by lia;
        destruct (parseExponentiation f' ts) as [[b r]|] eqn:E; try reflexivity;
        apply Ce in E; apply IHml; lia.
    + assert (Hpow : forall ts,
                (7 * List.length ts + 4 <= S f)%nat -> (7 * List.length ts + 4 <= S f')%nat ->
                match parseCall f ts with
                | Some (a, TStarStar :: r0) =>
                    match parseExponentiation f r0 with
                    | Some (b, r') => Some (EBinary Exp a b, r')
                    | None => None
                    end
                | res => res
                end
                = match parseCall f' ts with
                  | Some (a, TStarStar :: r0) =>
                      match parseExponentiation f' r0 with
                      | Some (b, r') => Some (EBinary Exp a b, r')
                      | None => None
                      end
                  | res => res
                  end).
      { intros ts H H'. rewrite (IHc ts) by lia.
        destruct (parseCall f' ts) as [[a r]|] eqn:E; [|reflexivity].
        apply Cc in E. destruct r as [|[] r]; try reflexivity.
        cbn [List.length] in E. rewrite (IHe r) by lia. reflexivity. }
      intros ts H H'. cbn [parseExponentiation].
      destruct ts as [|[] ts]; try (apply Hpow; assumption); apply IHu; lia.
    + intros ts H H'. cbn [parseUnary].
      destruct ts as [|[] ts]; try (apply IHc; lia);
        cbn [List.length] in H, H'; rewrite (IHu ts) by lia; reflexivity.
    + intros ts H H'. cbn [parseCall].
      rewrite (IHp ts) by lia.
      destruct (parsePrimary f' ts) as [[a r]|] eqn:E; [|reflexivity].
      apply Cp in E. apply IHcl; lia.
    + intros a ts H H'. cbn [callLoop].
      destruct ts as [|[] ts]; try reflexivity.
      cbn [List.length] in H, H'.
      destruct ts as [|[] ts]; cbn [List.length] in H, H';
        try (apply IHcl; lia);
        try (rewrite (IHa []) by (cbn [List.length]; lia); reflexivity);
        match goal with
        | |- match parseAdditive f ?l with _ => _ end = _ =>
            rewrite (IHa l) by (cbn [List.length]; lia);
            destruct (parseAdditive f' l) as [[b r]|] eqn:E; try reflexivity;
            apply Ca in E; cbn [List.length] in E;
            destruct r as [|[] r]; try reflexivity;
            cbn [List.length] in E; apply IHcl; lia
        end.
    + intros ts H H'. cbn [parsePrimary].
      destruct ts as [|[] ts]; try reflexivity.
      cbn [List.length] in H, H'. rewrite (IHa ts) by lia. reflexivity.
Qed.

(** The fuel of [parseProgram] is enough: more of it gives the same. *)
Lemma parseProgram_fuel (ts : list token) (fuel : nat) :
  (9 * S (List.length ts) <= fuel)%nat ->
  parseAdditive fuel ts = parseAdditive (9 * S (List.length ts)) ts.
Proof.
  intros H. apply parse_enough_fuel; lia.
Qed.

Lemma skipJsonSpace_length (s : jsstring) :
  (List.length (skipJsonSpace s) <= List.length s)%nat.
Proof.
  induction s as [|c s IH]; cbn [skipJsonSpace]; [reflexivity|].
  destruct (isJsonSpace c); cbn [List.length] in *; lia.
Qed.

Lemma jsonStringBody_length (s : jsstring) :
  forall body r, jsonStringBody s = Some (body, r) ->
    (List.length r < List.length s)%nat.
Proof.
  remember (List.length s) as n eqn:Hn.
  revert s Hn. induction n as [n IH] using lt_wf_ind. intros s -> body r.
  destruct s as [|c s]; [discriminate|].
  cbn [jsonStringBody].
  destruct (c =? 34)%N; [intros [= <- <-]; cbn [List.length]; lia|].
  destruct (c <? 32)%N; [discriminate|].
  destruct (c =? 92)%N.
  - destruct s as [|e r1]; [discriminate|].
    assert (Hsimple : forall d : jschar,
              match jsonStringBody r1 with
              | Some (b, r2) => Some (d :: b, r2)
              | None => None
              end = Some (body, r) ->
              (List.length r < List.length (c :: e :: r1))%nat).
    { intros d H. destruct (jsonStringBody r1) as [[b r2]|] eqn:E; [|discriminate].
      injection H as <- <-.
      apply (IH (List.length r1)) in E; cbn [List.length] in *; lia. }
    repeat match goal with
           | |- (if ?b then _ else _) = _ -> _ =>
               destruct b; [first [apply Hsimple | idtac]|]
           end; try discriminate.
    destruct r1 as [|h1 [|h2 [|h3 [|h4 r2]]]]; try discriminate.
    destruct (hexVal h1), (hexVal h2), (hexVal h3), (hexVal h4); try discriminate.
    destruct (jsonStringBody r2) as [[b r3]|] eqn:E; [|discriminate].
    intros [= <- <-].
    apply (IH (List.length r2)) in E; cbn [List.length] in *; lia.
  - destruct (jsonStringBody s) as [[b r']|] eqn:E; [|discriminate].
    intros [= <- <-].
    apply (IH (List.length s)) in E; cbn [List.length] in *; lia.
Qed.

Lemma scanSign_length (s : jsstring) :
  (List.length (snd (scanSign s)) <= List.length s)%nat.
Proof.
  destruct s as [|c s]; cbn [scanSign]; [reflexivity|].
  destruct (c =? ch "-")%N; [cbn [snd List.length]; lia|].
  destruct (c =? ch "+")%N; cbn [snd List.length]; lia.
Qed.

Lemma spanDigits_some (s ds r : jsstring) :
  spanDigits s = (ds, r) ->
  (List.length ds + List.length r = List.length s)%nat.
Proof.
  revert ds r. induction s as [|c s IH]; intros ds r; cbn [spanDigits].
  - intros [= <- <-]. reflexivity.
  - destruct (isDigit c).
    + destruct (spanDigits s) as [ds' r'] eqn:E. intros [= <- <-].
      specialize (IH _ _ eq_refl). cbn [List.length]. lia.
    + intros [= <- <-]. reflexivity.
Qed.

Lemma jsonNumber_length (s : jsstring) (x : number) (r : jsstring) :
  jsonNumber s = Some (x, r) -> (List.length r < List.length s)%nat.
Proof.
  unfold jsonNumber.
  set (st := match s with
             | c :: r0 => if (c =? ch "-")%N then (true, r0) else (false, s)
             | [] => (false, [])
             end).
  assert (Hst : (List.length (snd st) <= List.length s)%nat).
  { subst st. destruct s as [|c s]; [reflexivity|].
    destruct (c =? ch "-")%N; cbn [snd List.length]; lia. }
  destruct st as [neg t]. cbn [snd] in Hst.
  destruct (spanDigits t) as [ip r1] eqn:Eip.
  apply spanDigits_some in Eip.
  destruct ip as [|c0 ip']; [discriminate|].
  destruct (_ && _); [discriminate|].
  cbn [List.length] in Eip.
  assert (Hfrac : forall fp r2,
            match r1 with
            | c :: r' =>
                if (c =? ch ".")%N then
                  match spanDigits r' with
                  | ([], _) => None
                  | (fp, r2) => Some (fp, r2)
                  end
                else Some ([], r1)
            | [] => Some ([], [])
            end = Some (fp, r2) -> (List.length r2 <= List.length r1)%nat).
  { intros fp r2. destruct r1 as [|c r']; [intros [= <- <-]; reflexivity|].
    destruct (c =? ch ".")%N; [|intros [= <- <-]; reflexivity].
    destruct (spanDigits r') as [[|d fp'] r2'] eqn:E; [discriminate|].
    intros [= <- <-]. apply spanDigits_some in E. cbn [List.length] in *. lia. }
  destruct (match r1 with [] => _ | _ => _ end) as [[fp r2]|]; [|discriminate].
  specialize (Hfrac _ _ eq_refl).
  assert (Hexp : forall ex r5,
            match r2 with
            | c :: r' =>
                if (c =? ch "e")%N || (c =? ch "E")%N then
                  let (eneg, r3) := scanSign r' in
                  match spanDigits r3 with
                  | ([], _) => None
                  | (ds, r4) =>
                      Some (if eneg then - digitsValue ds else digitsValue ds, r4)
                  end
                else Some (0, r2)
            | [] => Some (0, [])
            end = Some (ex, r5) -> (List.length r5 <= List.length r2)%nat).
  { intros ex r5. destruct r2 as [|c r']; [intros [= <- <-]; reflexivity|].
    destruct (_ || _); [|intros [= <- <-]; reflexivity].
    pose proof (scanSign_length r') as Hs.
    destruct (scanSign r') as [eneg r3]. cbn [snd] in Hs.
    destruct (spanDigits r3) as [[|d ds] r4] eqn:E; [discriminate|].
    intros [= <- <-]. apply spanDigits_some in E. cbn [List.length] in *. lia. }
  destruct (match r2 with [] => _ | _ => _ end) as [[ex r5]|]; [|discriminate].
  specialize (Hexp _ _ eq_refl). intros [= <- <-]. lia.
Qed.

Lemma startsWith_length (p s : jsstring) :
  startsWith p s = true -> (List.length p <= List.length s)%nat.
Proof.
  intros H. destruct (startsWith_prefix p s H) as [b ->].
  rewrite length_app. lia.
Qed.

(** A JSON value takes a character at least. *)
Lemma json_consumes (fuel : nat) :
  (forall s v r, jsonValue fuel s = Some (v, r) ->
     (List.length r < List.length s)%nat)
  /\ (forall acc s v r, jsonElements fuel acc s = Some (v, r) ->
        (List.length r < List.length s)%nat)
  /\ (forall acc s v r, jsonMembers fuel acc s = Some (v, r) ->
        (List.length r < List.length s)%nat).
Proof.
  induction fuel as [|f (IHv & IHe & IHm)].
  - repeat split; intros; discriminate.
  - repeat split.
    + intros s v r. cbn [jsonValue].
      pose proof (skipJsonSpace_length s) as Hs.
      destruct (skipJsonSpace s) as [|c t] eqn:Et; [discriminate|].
      cbn [List.length] in Hs.
      destruct (c =? ch "{")%N.
      { pose proof (skipJsonSpace_length t) as Ht.
        destruct (skipJsonSpace t) as [|d t']; [discriminate|].
        cbn [List.length] in Ht.
        destruct (d =? ch "}")%N; [intros [= <- <-]; lia|].
        intros H. apply IHm in H. lia. }
      destruct (c =? ch "[")%N.
      { pose proof (skipJsonSpace_length t) as Ht.
        destruct (skipJsonSpace t) as [|d t']; [discriminate|].
        cbn [List.length] in Ht.
        destruct (d =? ch "]")%N; [intros [= <- <-]; lia|].
        intros H. apply IHe in H. lia. }
      destruct (c =? 34)%N.
      { destruct (jsonStringBody t) as [[b r']|] eqn:E; [|discriminate].
        apply jsonStringBody_length in E. intros [= <- <-]. lia. }
      destruct (startsWith (str "true") (c :: t)) eqn:E1.
      { apply startsWith_length in E1.
        change (List.length (str "true")) with 4%nat in E1.
        intros [= <- <-].
        destruct t as [|? [|? [|? [|? ?]]]]; cbn [List.length] in *; lia. }
      destruct (startsWith (str "false") (c :: t)) eqn:E2.
      { apply startsWith_length in E2.
        change (List.length (str "false")) with 5%nat in E2.
        intros [= <- <-].
        destruct t as [|? [|? [|? [|? ?]]]]; cbn [List.length] in *; lia. }
      destruct (startsWith (str "null") (c :: t)) eqn:E3.
      { apply startsWith_length in E3.
        change (List.length (str "null")) with 4%nat in E3.
        intros [= <- <-].
        destruct t as [|? [|? [|? [|? ?]]]]; cbn [List.length] in *; lia. }
      destruct (jsonNumber (c :: t)) as [[x r']|] eqn:E; [|discriminate].
      apply jsonNumber_length in E. intros [= <- <-]. cbn [List.length] in E. lia.
    + intros acc s v r. cbn [jsonElements].
      destruct (jsonValue f s) as [[v' r']|] eqn:E; [|discriminate].
      apply IHv in E.
      pose proof (skipJsonSpace_length r') as Hs.
      destruct (skipJsonSpace r') as [|c t]; [discriminate|].
      cbn [List.length] in Hs.
      destruct (c =? ch ",")%N; [intros H; apply IHe in H; lia|].
      destruct (c =? ch "]")%N; [|discriminate].
      intros [= <- <-]. lia.
    + intros acc s v r. cbn [jsonMembers].
      pose proof (skipJsonSpace_length s) as Hs.
      destruct (skipJsonSpace s) as [|q t]; [discriminate|].
      cbn [List.length] in Hs.
      destruct (q =? 34)%N; [|discriminate].
      destruct (jsonStringBody t) as [[key r1]|] eqn:Ek; [|discriminate].
      apply jsonStringBody_length in Ek.
      pose proof (skipJsonSpace_length r1) as H1.
      destruct (skipJsonSpace r1) as [|c r2]; [discriminate|].
      cbn [List.length] in H1.
      destruct (c =? ch ":")%N; [|discriminate].
      destruct (jsonValue f r2) as [[v' r3]|] eqn:E; [|discriminate].
      apply IHv in E.
      pose proof (skipJsonSpace_length r3) as H3.
      destruct (skipJsonSpace r3) as [|d r4]; [discriminate|].
      cbn [List.length] in H3.
      destruct (d =? ch ",")%N; [intros H; apply IHm in H; lia|].
      destruct (d =? ch "}")%N; [|discriminate].
      intros [= <- <-]. lia.
Qed.

(** What [JSON.parse] reads does not depend on the fuel, from two calls for
    each character on. *)
Lemma json_enough_fuel (fuel : nat) :
  forall fuel',
  (forall s, (2 * List.length s + 1 <= fuel)%nat -> (2 * List.length s + 1 <= fuel')%nat ->
     jsonValue fuel s = jsonValue fuel' s)
  /\ (forall acc s, (2 * List.length s + 2 <= fuel)%nat -> (2 * List.length s + 2 <= fuel')%nat ->
        jsonElements fuel acc s = jsonElements fuel' acc s)
  /\ (forall acc s, (2 * List.length s + 2 <= fuel)%nat -> (2 * List.length s + 2 <= fuel')%nat ->
        jsonMembers fuel acc s = jsonMembers fuel' acc s).
Proof.
  induction fuel as [|f IH]; intros fuel'.
  - repeat split; intros; lia.
  - destruct fuel' as [|f']; [repeat split; intros; lia|].
    destruct (IH f') as (IHv & IHe & IHm).
    destruct (json_consumes f') as (Cv & _ & _).
    repeat split.
    + intros s H H'. cbn [jsonValue].
      pose proof (skipJsonSpace_length s) as Hs.
      destruct (skipJsonSpace s) as [|c t]; [reflexivity|].
      cbn [List.length] in Hs.
      destruct (c =? ch "{")%N.
      { destruct (skipJsonSpace t) as [|d t']; [reflexivity|].
        destruct (d =? ch "}")%N; [reflexivity|]. apply IHm; lia. }
      destruct (c =? ch "[")%N.
      { destruct (skipJsonSpace t) as [|d t']; [reflexivity|].
        destruct (d =? ch "]")%N; [reflexivity|]. apply IHe; lia. }
      reflexivity.
    + intros acc s H H'. cbn [jsonElements].
      rewrite (IHv s) by lia.
      destruct (jsonValue f' s) as [[v r]|] eqn:E; [|reflexivity].
      apply Cv in E.
      pose proof (skipJsonSpace_length r) as Hs.
      destruct (skipJsonSpace r) as [|c t]; [reflexivity|].
      cbn [List.length] in Hs.
      destruct (c =? ch ",")%N; [apply IHe; lia|reflexivity].
    + intros acc s H H'. cbn [jsonMembers].
      pose proof (skipJsonSpace_length s) as Hs.
      destruct (skipJsonSpace s) as [|q t]; [reflexivity|].
      cbn [List.length] in Hs.
      destruct (q =? 34)%N; [|reflexivity].
      destruct (jsonStringBody t) as [[key r1]|] eqn:Ek; [|reflexivity].
      apply jsonStringBody_length in Ek.
      pose proof (skipJsonSpace_length r1) as H1.
      destruct (skipJsonSpace r1) as [|c r2]; [reflexivity|].
      cbn [List.length] in H1.
      destruct (c =? ch ":")%N; [|reflexivity].
      rewrite (IHv r2) by lia.
      destruct (jsonValue f' r2) as [[v r3]|] eqn:E; [|reflexivity].
      apply Cv in E.
      pose proof (skipJsonSpace_length r3) as H3.
      destruct (skipJsonSpace r3) as [|d r4]; [reflexivity|].
      cbn [List.length] in H3.
      destruct (d =? ch ",")%N; [apply IHm; lia|reflexivity].
Qed.

(** The fuel of [JSON_parse] is enough: more of it gives the same. *)
Lemma JSON_parse_fuel (text : jsstring) (fuel : nat) :
  (2 * S (List.length text) <= fuel)%nat ->
  jsonValue fuel text = jsonValue (2 * S (List.length text)) text.
Proof.
  intros H. apply json_enough_fuel; lia.
Qed.

(** ** The stored copy of the history *)

Lemma hexVal_hexDigit (d : Z) : 0 <= d < 16 -> hexVal (hexDigit d) = Some d.
Proof.
  intros H. destruct d as [|p|p]; [reflexivity| |lia].
  do 4 (destruct p as [p|p|]; try lia; try reflexivity).
Qed.

Lemma jsonStringBody_unicode (c : jschar) (r : jsstring) :
  (c < 65536)%N ->
  jsonStringBody (unicodeEscape c ++ r)
  = match jsonStringBody r with
    | Some (b, r') => Some (c :: b, r')
    | None => None
    end.
Proof.
  intros H. unfold unicodeEscape.
  set (z := Z.of_N c).
  assert (Hz : 0 <= z < 65536) by (unfold z; lia).
  change (jsonStringBody ([92%N; ch "u"; hexDigit (z / 4096); hexDigit ((z / 256) mod 16);
                           hexDigit ((z / 16) mod 16); hexDigit (z mod 16)] ++ r))
    with (match hexVal (hexDigit (z / 4096)), hexVal (hexDigit ((z / 256) mod 16)),
                hexVal (hexDigit ((z / 16) mod 16)), hexVal (hexDigit (z mod 16)) with
          | Some a, Some b, Some c', Some d =>
              match jsonStringBody r with
              | Some (body, r3) =>
                  Some (Z.to_N (((a * 16 + b) * 16 + c') * 16 + d) :: body, r3)
              | None => None
              end
          | _, _, _, _ => None
          end).
  rewrite !hexVal_hexDigit.
  - replace (((z / 4096 * 16 + (z / 256) mod 16) * 16 + (z / 16) mod 16) * 16 + z mod 16)
      with z.
    + unfold z. rewrite N2Z.id. reflexivity.
    + Z.to_euclidean_division_equations. lia.
  - Z.to_euclidean_division_equations. lia.
  - Z.to_euclidean_division_equations. lia.
  - Z.to_euclidean_division_equations. lia.
  - Z.to_euclidean_division_equations. lia.
Qed.

Lemma jsonStringBody_plain (c : jschar) (r : jsstring) :
  (c =? 34)%N = false -> (c <? 32)%N = false -> (c =? 92)%N = false ->
  jsonStringBody (c :: r)
  = match jsonStringBody r with
    | Some (b, r') => Some (c :: b, r')
    | None => None
    end.
Proof.
  intros H1 H2 H3. cbn [jsonStringBody]. rewrite H1, H2, H3. reflexivity.
Qed.

Lemma surrogate_bounds (c : jschar) :
  isLeadingSurrogate c || isTrailingSurrogate c = true ->
  (c < 65536)%N /\ (c =? 34)%N = false /\ (c <? 32)%N = false /\ (c =? 92)%N = false.
Proof.
  unfold isLeadingSurrogate, isTrailingSurrogate. intros H.
  assert (55296 <= c)%N as Hc.
  { apply orb_true_iff in H. destruct H as [H|H];
      apply andb_true_iff in H; destruct H as [H _]; apply N.leb_le in H; lia. }
  assert (c <= 57343)%N as Hd.
  { apply orb_true_iff in H. destruct H as [H|H];
      apply andb_true_iff in H; destruct H as [_ H]; apply N.leb_le in H; lia. }
  repeat split; try apply N.eqb_neq; try apply N.ltb_ge; lia.
Qed.

(** A quoted string is read back as it was. *)
Lemma jsonStringBody_quote (s : jsstring) :
  (forall rest, jsonStringBody (quoteJSONBody s ++ 34%N :: rest) = Some (s, rest))
  /\ (forall rest, jsonStringBody (quoteJSONBody (tl s) ++ 34%N :: rest) = Some (tl s, rest)).
Proof.
  induction s as [|c r [IH IHtl]]; [split; reflexivity|].
  split; [|exact IH].
  intros rest. cbn [quoteJSONBody].
  destruct (N.eqb_spec c 8) as [->|_]; [cbn [app]|].
  { change (jsonStringBody (92%N :: ch "b" :: quoteJSONBody r ++ 34%N :: rest))
      with (match jsonStringBody (quoteJSONBody r ++ 34%N :: rest) with
            | Some (b, r2) => Some (8%N :: b, r2) | None => None end).
    now rewrite IH. }
  destruct (N.eqb_spec c 9) as [->|_]; [cbn [app]|].
  { change (jsonStringBody (92%N :: ch "t" :: quoteJSONBody r ++ 34%N :: rest))
      with (match jsonStringBody (quoteJSONBody r ++ 34%N :: rest) with
            | Some (b, r2) => Some (9%N :: b, r2) | None => None end).
    now rewrite IH. }
  destruct (N.eqb_spec c 10) as [->|_]; [cbn [app]|].
  { change (jsonStringBody (92%N :: ch "n" :: quoteJSONBody r ++ 34%N :: rest))
      with (match jsonStringBody (quoteJSONBody r ++ 34%N :: rest) with
            | Some (b, r2) => Some (10%N :: b, r2) | None => None end).
    now rewrite IH. }
  destruct (N.eqb_spec c 12) as [->|_]; [cbn [app]|].
  { change (jsonStringBody (92%N :: ch "f" :: quoteJSONBody r ++ 34%N :: rest))
      with (match jsonStringBody (quoteJSONBody r ++ 34%N :: rest) with
            | Some (b, r2) => Some (12%N :: b, r2) | None => None end).
    now rewrite IH. }
  destruct (N.eqb_spec c 13) as [->|_]; [cbn [app]|].
  { change (jsonStringBody (92%N :: ch "r" :: quoteJSONBody r ++ 34%N :: rest))
      with (match jsonStringBody (quoteJSONBody r ++ 34%N :: rest) with
            | Some (b, r2) => Some (13%N :: b, r2) | None => None end).
    now rewrite IH. }
  destruct (N.eqb_spec c 34) as [->|H34]; [cbn [app]|].
  { change (jsonStringBody (92%N :: 34%N :: quoteJSONBody r ++ 34%N :: rest))
      with (match jsonStringBody (quoteJSONBody r ++ 34%N :: rest) with
            | Some (b, r2) => Some (34%N :: b, r2) | None => None end).
    now rewrite IH. }
  destruct (N.eqb_spec c 92) as [->|H92]; [cbn [app]|].
  { change (jsonStringBody (92%N :: 92%N :: quoteJSONBody r ++ 34%N :: rest))
      with (match jsonStringBody (quoteJSONBody r ++ 34%N :: rest) with
            | Some (b, r2) => Some (92%N :: b, r2) | None => None end).
    now rewrite IH. }
  destruct (N.ltb_spec c 32) as [H32|H32].
  { rewrite <- app_assoc, jsonStringBody_unicode by lia. now rewrite IH. }
  assert (Hplain : forall t, jsonStringBody (c :: t)
                   = match jsonStringBody t with
                     | Some (b, r') => Some (c :: b, r') | None => None end).
  { intros t. apply jsonStringBody_plain.
    - now apply N.eqb_neq. - apply N.ltb_ge; lia. - now apply N.eqb_neq. }
  destruct (isLeadingSurrogate c) eqn:Hl.
  { destruct (surrogate_bounds c) as (Hb & _); [now rewrite Hl|].
    destruct r as [|d r'].
    - rewrite jsonStringBody_unicode by assumption. reflexivity.
    - destruct (isTrailingSurrogate d) eqn:Ht.
      + destruct (surrogate_bounds d) as (_ & D1 & D2 & D3);
          [rewrite Ht; apply orb_true_r|].
        cbn [app]. rewrite Hplain, jsonStringBody_plain by assumption.
        cbn [tl] in IHtl. now rewrite IHtl.
      + rewrite <- app_assoc, jsonStringBody_unicode by assumption. now rewrite IH. }
  destruct (isTrailingSurrogate c) eqn:Ht.
  { destruct (surrogate_bounds c) as (Hb & _); [rewrite Ht; apply orb_true_r|].
    rewrite <- app_assoc, jsonStringBody_unicode by assumption. now rewrite IH. }
  cbn [app]. rewrite Hplain. now rewrite IH.
Qed.
Lemma endsValue_head (c : jschar) (rest : jsstring) :
  endsValue (c :: rest) = true ->
  isDigit c = false /\ (c =? ch ".")%N = false /\ (c =? ch "e")%N = false
  /\ (c =? ch "E")%N = false /\ isJsonSpace c = false.
Proof.
  cbn [endsValue]. intros H.
  destruct (N.eqb_spec c (ch ",")) as [->|_]; [repeat split|].
  destruct (N.eqb_spec c (ch "]")) as [->|_]; [repeat split|].
  destruct (N.eqb_spec c (ch "}")) as [->|_]; [repeat split|discriminate].
Qed.

Lemma spanDigits_more (s ds r rest : jsstring) :
  spanDigits s = (ds, r) -> endsValue rest = true ->
  spanDigits (s ++ rest) = (ds, r ++ rest).
Proof.
  intros H Hrest. revert ds r H.
  induction s as [|c s IH]; intros ds r; cbn [spanDigits app].
  - intros [= <- <-]. destruct rest as [|d rest]; [reflexivity|].
    cbn [spanDigits app]. destruct (endsValue_head d rest Hrest) as (-> & _). reflexivity.
  - destruct (isDigit c); [|now intros [= <- <-]].
    destruct (spanDigits s) as [ds' r']. intros [= <- <-].
    now rewrite (IH _ _ eq_refl).
Qed.

Lemma scanSign_more (c : jschar) (s rest : jsstring) :
  scanSign ((c :: s) ++ rest) = (fst (scanSign (c :: s)), snd (scanSign (c :: s)) ++ rest).
Proof.
  cbn [scanSign app].
  destruct (c =? ch "-")%N; [reflexivity|].
  destruct (c =? ch "+")%N; reflexivity.
Qed.

(** A JSON number is read the same before what can follow a value. *)
Lemma jsonNumber_more (s : jsstring) (x : number) (r rest : jsstring) :
  jsonNumber s = Some (x, r) -> endsValue rest = true ->
  jsonNumber (s ++ rest) = Some (x, r ++ rest).
Proof.
  intros H Hrest. unfold jsonNumber in *.
  destruct s as [|c s']; [discriminate|]. cbn [app].
  assert (Hcore : forall neg t,
    (let (ip, r1) := spanDigits t in
     match ip with
     | [] => None
     | c0 :: ip' =>
         if (c0 =? ch "0")%N && negb match ip' with [] => true | _ => false end
         then None
         else
           match
             match r1 with
             | [] => Some ([], [])
             | c :: r' =>
                 if (c =? ch ".")%N
                 then match spanDigits r' with
                      | ([], _) => None
                      | (fp, r2) => Some (fp, r2)
                      end
                 else Some ([], r1)
             end
           with
           | Some (fp, r2) =>
               match
                 match r2 with
                 | [] => Some (0, [])
                 | c :: r' =>
                     if (c =? ch "e")%N || (c =? ch "E")%N
                     then let (eneg, r3) := scanSign r' in
                          match spanDigits r3 with
                          | ([], _) => None
                          | (ds, r4) =>
                              Some (if eneg then - digitsValue ds else digitsValue ds, r4)
                          end
                     else Some (0, r2)
                 end
               with
               | Some (ex, r5) =>
                   Some (decimalToNumber neg (digitsValue (ip ++ fp))
                           (ex - Z.of_nat (List.length fp)), r5)
               | None => None
               end
           | None => None
           end
     end) = Some (x, r) ->
    (let (ip, r1) := spanDigits (t ++ rest) in
     match ip with
     | [] => None
     | c0 :: ip' =>
         if (c0 =? ch "0")%N && negb match ip' with [] => true | _ => false end
         then None
         else
           match
             match r1 with
             | [] => Some ([], [])
             | c :: r' =>
                 if (c =? ch ".")%N
                 then match spanDigits r' with
                      | ([], _) => None
                      | (fp, r2) => Some (fp, r2)
                      end
                 else Some ([], r1)
             end
           with
           | Some (fp, r2) =>
               match
                 match r2 with
                 | [] => Some (0, [])
                 | c :: r' =>
                     if (c =? ch "e")%N || (c =? ch "E")%N
                     then let (eneg, r3) := scanSign r' in
                          match spanDigits r3 with
                          | ([], _) => None
                          | (ds, r4) =>
                              Some (if eneg then - digitsValue ds else digitsValue ds, r4)
                          end
                     else Some (0, r2)
                 end
               with
               | Some (ex, r5) =>
                   Some (decimalToNumber neg (digitsValue (ip ++ fp))
                           (ex - Z.of_nat (List.length fp)), r5)
               | None => None
               end
           | None => None
           end
     end) = Some (x, r ++ rest));
    [|destruct (c =? ch "-")%N; [exact (Hcore true s' H)|exact (Hcore false (c :: s') H)]].
  clear H c s'. intros neg t H.
  destruct (spanDigits t) as [ip r1] eqn:Eip.
  rewrite (spanDigits_more _ _ _ _ Eip Hrest).
  destruct ip as [|c0 ip']; [discriminate|].
  destruct ((c0 =? ch "0")%N && negb match ip' with [] => true | _ => false end);
    [discriminate|].
  (* the fraction *)
  assert (Hfrac :
    forall fp r2,
      match r1 with
      | [] => Some ([], [])
      | c :: r' =>
          if (c =? ch ".")%N
          then match spanDigits r' with
               | ([], _) => None
               | (fp, r2) => Some (fp, r2)
               end
          else Some ([], r1)
      end = Some (fp, r2) ->
      match r1 ++ rest with
      | [] => Some ([], [])
      | c :: r' =>
          if (c =? ch ".")%N
          then match spanDigits r' with
               | ([], _) => None
               | (fp, r2) => Some (fp, r2)
               end
          else Some ([], r1 ++ rest)
      end = Some (fp, r2 ++ rest)).
  { intros fp r2. destruct r1 as [|c r'].
    - intros [= <- <-]. destruct rest as [|d rest']; [reflexivity|]. cbn [app].
      destruct (endsValue_head d rest' Hrest) as (_ & -> & _). reflexivity.
    - cbn [app]. destruct (c =? ch ".")%N; [|now intros [= <- <-]].
      destruct (spanDigits r') as [fp' r2'] eqn:Efp.
      rewrite (spanDigits_more _ _ _ _ Efp Hrest).
      destruct fp'; [discriminate|]. now intros [= <- <-]. }
  destruct (match r1 with [] => _ | _ => _ end) as [[fp r2]|]; [|discriminate].
  match goal with
  | |- match ?m with Some _ => _ | None => _ end = _ =>
      replace m with (Some (fp, r2 ++ rest)) by (symmetry; exact (Hfrac _ _ eq_refl))
  end.
  clear Hfrac.
  assert (Hexp :
    forall ex r5,
      match r2 with
      | [] => Some (0, [])
      | c :: r' =>
          if (c =? ch "e")%N || (c =? ch "E")%N
          then let (eneg, r3) := scanSign r' in
               match spanDigits r3 with
               | ([], _) => None
               | (ds, r4) => Some (if eneg then - digitsValue ds else digitsValue ds, r4)
               end
          else Some (0, r2)
      end = Some (ex, r5) ->
      match r2 ++ rest with
      | [] => Some (0, [])
      | c :: r' =>
          if (c =? ch "e")%N || (c =? ch "E")%N
          then let (eneg, r3) := scanSign r' in
               match spanDigits r3 with
               | ([], _) => None
               | (ds, r4) => Some (if eneg then - digitsValue ds else digitsValue ds, r4)
               end
          else Some (0, r2 ++ rest)
      end = Some (ex, r5 ++ rest)).
  { intros ex r5. destruct r2 as [|c r'].
    - intros [= <- <-]. destruct rest as [|d rest']; [reflexivity|]. cbn [app].
      destruct (endsValue_head d rest' Hrest) as (_ & _ & -> & -> & _). reflexivity.
    - cbn [app]. destruct ((c =? ch "e")%N || (c =? ch "E")%N); [|now intros [= <- <-]].
      destruct r' as [|d r''].
      + cbn [scanSign spanDigits]. discriminate.
      + rewrite scanSign_more. destruct (scanSign (d :: r'')) as [eneg r3].
        cbn [fst snd].
        destruct (spanDigits r3) as [ds r4] eqn:Eds.
        rewrite (spanDigits_more _ _ _ _ Eds Hrest).
        destruct ds; [discriminate|]. now intros [= <- <-]. }
  destruct (match r2 with [] => _ | _ => _ end) as [[ex r5]|]; [|discriminate].
  match goal with
  | |- match ?m with Some _ => _ | None => _ end = _ =>
      replace m with (Some (ex, r5 ++ rest)) by (symmetry; exact (Hexp _ _ eq_refl))
  end.
  injection H as <- <-. reflexivity.
Qed.

Lemma jsonNumber_head (s : jsstring) (x : number) (r : jsstring) :
  jsonNumber s = Some (x, r) ->
  exists c t, s = c :: t /\ (c = ch "-" \/ isDigit c = true).
Proof.
  unfold jsonNumber. destruct s as [|c t]; [discriminate|].
  intros H. exists c, t. split; [reflexivity|].
  destruct (N.eqb_spec c (ch "-")) as [->|_]; [now left|right].
  cbn [spanDigits] in H. destruct (isDigit c); [reflexivity|discriminate].
Qed.

Lemma digit_range (c : jschar) : isDigit c = true -> (48 <= c <= 57)%N.
Proof.
  unfold isDigit. intros H. apply andb_true_iff in H. destruct H as [H1 H2].
  apply N.leb_le in H1, H2. lia.
Qed.

(** A text that starts a JSON number is read as one. *)
Lemma jsonValue_number (fuel : nat) (s : jsstring) (x : number) (r : jsstring) :
  jsonNumber s = Some (x, r) -> jsonValue (S fuel) s = Some (JNumber x, r).
Proof.
  intros H. destruct (jsonNumber_head _ _ _ H) as (c & t & -> & Hc).
  assert (Hne : forall d, (d < 45 \/ 57 < d)%N -> (c =? d)%N = false).
  { intros d Hd. apply N.eqb_neq. destruct Hc as [->|Hc].
    - change (ch "-") with 45%N. lia.
    - apply digit_range in Hc. lia. }
  cbn [jsonValue skipJsonSpace].
  assert (Hspace : isJsonSpace c = false).
  { unfold isJsonSpace. rewrite !Hne by lia. reflexivity. }
  rewrite Hspace.
  change (ch "{") with 123%N. change (ch "[") with 91%N.
  rewrite !Hne by lia.
  change (startsWith (str "true") (c :: t)) with ((116 =? c)%N && startsWith (str "rue") t).
  change (startsWith (str "false") (c :: t)) with ((102 =? c)%N && startsWith (str "alse") t).
  change (startsWith (str "null") (c :: t)) with ((110 =? c)%N && startsWith (str "ull") t).
  rewrite (N.eqb_sym 116), (N.eqb_sym 102), (N.eqb_sym 110), !Hne by lia.
  cbn [andb]. rewrite H. reflexivity.
Qed.

Lemma jsstring_eqb_eq (a b : jsstring) : jsstring_eqb a b = true <-> a = b.
Proof.
  revert b. induction a as [|c a IH]; intros [|d b]; cbn [jsstring_eqb];
    try (split; [discriminate|discriminate]); [split; reflexivity|].
  rewrite andb_true_iff, N.eqb_eq, IH. split.
  - intros [-> ->]. reflexivity.
  - intros [= -> ->]. split; reflexivity.
Qed.

Lemma jsstring_eqb_sym (a b : jsstring) : jsstring_eqb a b = jsstring_eqb b a.
Proof.
  destruct (jsstring_eqb a b) eqn:E.
  - apply jsstring_eqb_eq in E. subst. symmetry. now apply jsstring_eqb_eq.
  - destruct (jsstring_eqb b a) eqn:E'; [|reflexivity].
    apply jsstring_eqb_eq in E'. subst.
    assert (jsstring_eqb a a = true) by now apply jsstring_eqb_eq. congruence.
Qed.

(** Induction on a JSON value, through its items and members. *)
Lemma json_induction (P : json -> Prop) :
  P JNull -> (forall b, P (JBool b)) -> (forall x, P (JNumber x)) ->
  (forall s, P (JString s)) ->
  (forall items, Forall P items -> P (JArray items)) ->
  (forall props, Forall (fun kv => P (snd kv)) props -> P (JObject props)) ->
  forall v, P v.
Proof.
  intros Hnull Hbool Hnum Hstr Harr Hobj.
  fix IH 1. intros [ |b|x|s|items|props].
  - exact Hnull.
  - apply Hbool.
  - apply Hnum.
  - apply Hstr.
  - apply Harr. induction items as [|x items IHitems]; constructor.
    + apply IH.
    + exact IHitems.
  - apply Hobj. induction props as [|[k x] props IHprops]; constructor.
    + apply IH.
    + exact IHprops.
Qed.

(** *** The members of a storable object keep their order *)

Lemma defineProperty_new {A} (k : jsstring) (v : A) (obj : list (jsstring * A)) :
  existsb (fun kv' => jsstring_eqb (fst kv') k) obj = false ->
  defineProperty k v obj = obj ++ [(k, v)].
Proof.
  induction obj as [|[k' v'] obj IH]; cbn [existsb defineProperty app fst]; [reflexivity|].
  intros H. apply orb_false_iff in H. destruct H as [-> H].
  now rewrite IH.
Qed.

Lemma created_distinct {A} (props : list (jsstring * A)) :
  forall obj,
    distinctKeys props = true ->
    forallb (fun kv => negb (existsb (fun kv' => jsstring_eqb (fst kv') (fst kv)) obj)) props
    = true ->
    fold_left (fun o kv => defineProperty (fst kv) (snd kv) o) props obj = obj ++ props.
Proof.
  induction props as [|[k v] props IH]; intros obj Hd Hn; cbn [fold_left].
  - now rewrite app_nil_r.
  - cbn [distinctKeys forallb fst snd] in *.
    apply andb_true_iff in Hd. destruct Hd as [Hk Hd].
    apply andb_true_iff in Hn. destruct Hn as [Hko Hn].
    apply negb_true_iff in Hk, Hko.
    rewrite defineProperty_new by assumption.
    rewrite IH; [now rewrite <- app_assoc|assumption|].
    clear IH Hd. induction props as [|[k' v'] props IHp]; [reflexivity|].
    cbn [forallb existsb fst] in *.
    apply orb_false_iff in Hk. destruct Hk as [Hk Hk'].
    apply andb_true_iff in Hn. destruct Hn as [Hn Hn'].
    rewrite IHp by assumption. rewrite andb_true_r.
    rewrite existsb_app. cbn [existsb fst].
    apply negb_true_iff in Hn. rewrite Hn, jsstring_eqb_sym, Hk. reflexivity.
Qed.

Lemma ownProperties_named {A} (props : list (jsstring * A)) :
  distinctKeys props = true ->
  forallb (fun kv => namedKey (fst kv)) props = true ->
  ownProperties props = props.
Proof.
  intros Hd Hn. unfold ownProperties.
  rewrite created_distinct; [cbn [app]|assumption|].
  - assert (E : fold_right
                  (fun kv acc =>
                     match arrayIndex (fst kv) with
                     | Some i => insertIndexed i kv acc
                     | None => acc
                     end) [] props = []).
    { induction props as [|kv props IH]; [reflexivity|].
      cbn [forallb fold_right distinctKeys] in *.
      apply andb_true_iff in Hd. destruct Hd as [_ Hd].
      apply andb_true_iff in Hn. destruct Hn as [Hk Hn].
      unfold namedKey in Hk. destruct (arrayIndex (fst kv)); [discriminate|].
      now apply IH. }
    rewrite E. cbn [map app]. clear E Hd.
    induction props as [|kv props IH]; [reflexivity|].
    cbn [forallb filter] in *.
    apply andb_true_iff in Hn. destruct Hn as [Hk Hn].
    unfold namedKey in Hk. destruct (arrayIndex (fst kv)); [discriminate|].
    now rewrite IH.
  - clear. induction props as [|kv props IH]; [reflexivity|].
    cbn [forallb existsb negb andb]. exact IH.
Qed.

Lemma distinctKeys_map {A B} (f : A -> B) (props : list (jsstring * A)) :
  distinctKeys (map (fun kv => (fst kv, f (snd kv))) props) = distinctKeys props.
Proof.
  induction props as [|kv props IH]; [reflexivity|].
  cbn [map distinctKeys fst]. rewrite IH. f_equal. f_equal.
  clear. induction props as [|kv' props IH]; [reflexivity|].
  cbn [map existsb fst]. now rewrite IH.
Qed.

Lemma namedKeys_map {A B} (f : A -> B) (props : list (jsstring * A)) :
  forallb (fun kv => namedKey (fst kv)) (map (fun kv => (fst kv, f (snd kv))) props)
  = forallb (fun kv => namedKey (fst kv)) props.
Proof.
  induction props as [|kv props IH]; [reflexivity|].
  cbn [map forallb fst]. now rewrite IH.
Qed.

(** *** Reading back what was written *)

Lemma sameValue_eq (x y : number) : sameValue x y = true -> x = y.
Proof.
  destruct x as [a|a| |a m e], y as [b|b| |b m' e']; cbn [sameValue];
    try discriminate; try reflexivity.
  - intros H. apply eqb_prop in H. now subst.
  - intros H. apply eqb_prop in H. now subst.
  - intros H. apply andb_true_iff in H. destruct H as [H He].
    apply andb_true_iff in H. destruct H as [Ha Hm].
    apply eqb_prop in Ha. apply Pos.eqb_eq in Hm. apply Z.eqb_eq in He. now subst.
Qed.

Lemma readsBack_number (x : number) :
  readsBack x = true ->
  Number_isFinite x = true /\ jsonNumber (Number_toString x) = Some (x, []).
Proof.
  unfold readsBack. intros H. split.
  - destruct x as [a|[|]| |a m e]; try reflexivity; vm_compute in H; discriminate.
  - destruct (jsonNumber (Number_toString x)) as [[y [|c r]]|]; try discriminate.
    apply sameValue_eq in H. now subst.
Qed.

Lemma jsonValue_string (fuel : nat) (s rest : jsstring) :
  jsonValue (S fuel) (QuoteJSONString s ++ rest) = Some (JString s, rest).
Proof.
  unfold QuoteJSONString. cbn [app]. rewrite <- app_assoc. cbn [app].
  change (jsonValue (S fuel) (34%N :: quoteJSONBody s ++ 34%N :: rest))
    with (match jsonStringBody (quoteJSONBody s ++ 34%N :: rest) with
          | Some (b, r') => Some (JString b, r')
          | None => None
          end).
  now rewrite (proj1 (jsonStringBody_quote s)).
Qed.

(** The text of a storable value starts with a character of that value. *)
Lemma JSON_stringify_head (v : json) :
  storable v = true ->
  exists c t, JSON_stringify v = c :: t
    /\ isJsonSpace c = false /\ (c =? ch "]")%N = false /\ (c =? ch "}")%N = false.
Proof.
  destruct v as [ |[|]|x|s|items|props]; intros H; cbn [JSON_stringify].
  - now eexists _, _.
  - now eexists _, _.
  - now eexists _, _.
  - cbn [storable] in H. apply readsBack_number in H. destruct H as [-> H].
    destruct (jsonNumber_head _ _ _ H) as (c & t & E & Hc). rewrite E.
    exists c, t. split; [reflexivity|].
    destruct Hc as [->|Hc]; [repeat split|].
    apply digit_range in Hc. unfold isJsonSpace.
    repeat split; repeat (apply orb_false_iff; split); apply N.eqb_neq;
      try (change (ch "]") with 93%N); try (change (ch "}") with 125%N); lia.
  - now eexists _, _.
  - now eexists _, _.
  - now eexists _, _.
Qed.

Lemma endsValue_skip (rest : jsstring) (c : jschar) :
  endsValue (c :: rest) = true -> skipJsonSpace (c :: rest) = c :: rest.
Proof.
  intros H. cbn [skipJsonSpace].
  now destruct (endsValue_head c rest H) as (_ & _ & _ & _ & ->).
Qed.

Lemma jsonElements_stringify (items : list json) :
  Forall readsValue items -> forallb storable items = true -> items <> [] ->
  forall fuel acc rest,
    (list_sum (map (fun x => S (readingFuel x)) items) <= fuel)%nat ->
    jsonElements fuel acc (join (str ",") (map JSON_stringify items) ++ ch "]" :: rest)
    = Some (JArray (rev acc ++ items), rest).
Proof.
  induction items as [|x items IH]; [congruence|].
  intros HP Hs _ fuel acc rest Hf.
  inversion HP as [|? ? Hx HP']; subst.
  cbn [forallb] in Hs. apply andb_true_iff in Hs. destruct Hs as [Hsx Hs].
  cbn [map list_sum fold_right] in Hf.
  destruct fuel as [|f]; [lia|].
  cbn [jsonElements map].
  destruct items as [|y items].
  - cbn [join map]. rewrite (Hx Hsx f (ch "]" :: rest)) by (reflexivity || lia).
    cbn [rev]. reflexivity.
  - change (join (str ",") (JSON_stringify x :: map JSON_stringify (y :: items)))
      with (JSON_stringify x ++ str "," ++ join (str ",") (map JSON_stringify (y :: items))).
    rewrite <- !app_assoc.
    change (str "," ++ ?t) with (ch "," :: t).
    rewrite (Hx Hsx f) by (reflexivity || lia).
    change (skipJsonSpace (ch "," :: ?t)) with (ch "," :: t). cbv iota.
    change (ch "," =? ch ",")%N with true. cbv iota.
    rewrite IH; [|assumption|assumption|discriminate|cbn [map list_sum fold_right] in *; lia].
    cbn [rev]. now rewrite <- app_assoc.
Qed.

Lemma jsonMembers_stringify (props : list (jsstring * json)) :
  Forall (fun kv => readsValue (snd kv)) props ->
  forallb (fun kv => storable (snd kv)) props = true -> props <> [] ->
  forall fuel acc rest,
    (list_sum (map (fun kv => S (readingFuel (snd kv))) props) <= fuel)%nat ->
    jsonMembers fuel acc
      (join (str ",")
         (map (fun kv => QuoteJSONString (fst kv) ++ ch ":" :: JSON_stringify (snd kv)) props)
       ++ ch "}" :: rest)
    = Some (JObject (rev acc ++ props), rest).
Proof.
  induction props as [|[k x] props IH]; [congruence|].
  intros HP Hs _ fuel acc rest Hf.
  inversion HP as [|? ? Hx HP']; subst.
  cbn [forallb snd] in Hs. apply andb_true_iff in Hs. destruct Hs as [Hsx Hs].
  cbn [map list_sum fold_right snd] in Hf. cbn [snd] in Hx.
  destruct fuel as [|f]; [lia|].
  assert (Hmember : forall t,
    jsonMembers (S f) acc ((QuoteJSONString k ++ ch ":" :: JSON_stringify x) ++ t)
    = match jsonValue f (JSON_stringify x ++ t) with
      | Some (v, r3) =>
          match skipJsonSpace r3 with
          | d :: r4 =>
              if (d =? ch ",")%N then jsonMembers f ((k, v) :: acc) r4
              else if (d =? ch "}")%N
              then Some (JObject (rev ((k, v) :: acc)), r4)
              else None
          | [] => None
          end
      | None => None
      end).
  { intros t. unfold QuoteJSONString. cbn [app]. rewrite <- !app_assoc. cbn [app].
    cbn [jsonMembers skipJsonSpace].
    change (isJsonSpace 34%N) with false. cbv iota.
    change (34 =? 34)%N with true. cbv iota.
    rewrite (proj1 (jsonStringBody_quote k)).
    change (skipJsonSpace (ch ":" :: ?u)) with (ch ":" :: u). cbv iota.
    change (ch ":" =? ch ":")%N with true. cbv iota. reflexivity. }
  cbn [map fst snd].
  destruct props as [|y props].
  - cbn [join map]. rewrite Hmember.
    rewrite (Hx Hsx f (ch "}" :: rest)) by (reflexivity || lia).
    cbn [rev]. reflexivity.
  - match goal with
    | |- jsonMembers _ _ (join _ (?m :: map ?g (y :: props)) ++ _) = _ =>
        change (join (str ",") (m :: map g (y :: props)))
          with (m ++ str "," ++ join (str ",") (map g (y :: props)))
    end.
    rewrite <- (app_assoc (QuoteJSONString k ++ _)). rewrite Hmember.
    rewrite <- !app_assoc.
    change (str "," ++ ?t) with (ch "," :: t).
    rewrite (Hx Hsx f) by (reflexivity || lia).
    change (skipJsonSpace (ch "," :: ?t)) with (ch "," :: t). cbv iota.
    change (ch "," =? ch ",")%N with true. cbv iota.
    rewrite IH; [|assumption|assumption|discriminate|cbn [map list_sum fold_right snd] in *; lia].
    cbn [rev]. now rewrite <- app_assoc.
Qed.

(** The text of a storable value, before what can follow a value, is read
    back as that value. *)
Lemma jsonValue_stringify (v : json) : readsValue v.
Proof.
  induction v as [ |b|x|s|items IH|props IH] using json_induction;
    unfold readsValue; intros Hs fuel rest Hf Hrest; cbn [readingFuel] in Hf;
    (destruct fuel as [|f]; [lia|]).
  - reflexivity.
  - destruct b; reflexivity.
  - cbn [storable] in Hs. apply readsBack_number in Hs. destruct Hs as [Hfin Hs].
    cbn [JSON_stringify]. rewrite Hfin.
    apply jsonValue_number. exact (jsonNumber_more _ _ _ _ Hs Hrest).
  - apply jsonValue_string.
  - cbn [JSON_stringify storable] in *. destruct items as [|x items]; [reflexivity|].
    destruct (JSON_stringify_head x) as (c & t & E & Hc & Hb & _).
    { cbn [forallb] in Hs. now apply andb_true_iff in Hs. }
    cbn [app]. rewrite <- app_assoc. cbn [app].
    assert (Hhead : exists t', join (str ",") (map JSON_stringify (x :: items))
                               ++ ch "]" :: rest = c :: t').
    { cbn [map join]. rewrite E. destruct (map JSON_stringify items); cbn [app]; eauto. }
    destruct Hhead as [t' Hhead].
    cbn [jsonValue skipJsonSpace]. change (isJsonSpace (ch "[")) with false. cbv iota.
    change (ch "[" =? ch "{")%N with false. change (ch "[" =? ch "[")%N with true. cbv iota.
    rewrite Hhead. cbn [skipJsonSpace]. rewrite Hc, Hb.
    rewrite <- Hhead.
    rewrite jsonElements_stringify; try assumption; [reflexivity|discriminate|lia].
  - cbn [JSON_stringify storable] in *.
    apply andb_true_iff in Hs. destruct Hs as [Hs Hv].
    apply andb_true_iff in Hs. destruct Hs as [Hd Hn].
    rewrite ownProperties_named
      by (now rewrite ?distinctKeys_map, ?namedKeys_map).
    rewrite map_map. cbn [fst snd].
    destruct props as [|[k x] props]; [reflexivity|].
    cbn [app]. rewrite <- app_assoc. cbn [app].
    assert (Hhead : exists t',
      join (str ",")
        (map (fun kv => QuoteJSONString (fst kv) ++ ch ":" :: JSON_stringify (snd kv))
           ((k, x) :: props))
      ++ ch "}" :: rest = 34%N :: t').
    { cbn [map join fst].
      destruct (map _ props); unfold QuoteJSONString; cbn [app]; eauto. }
    destruct Hhead as [t' Hhead].
    cbn [jsonValue skipJsonSpace]. change (isJsonSpace (ch "{")) with false. cbv iota.
    change (ch "{" =? ch "{")%N with true. cbv iota.
    rewrite Hhead. cbn [skipJsonSpace].
    change (isJsonSpace 34%N) with false. cbv iota.
    change (34 =? ch "}")%N with false. cbv iota.
    rewrite <- Hhead.
    rewrite jsonMembers_stringify; try assumption; [reflexivity|discriminate|lia].
Qed.

Lemma JSON_parse_stringify (v : json) :
  storable v = true -> JSON_parse (JSON_stringify v) = Some v.
Proof.
  intros Hs. unfold JSON_parse.
  rewrite <- (JSON_parse_fuel _ (readingFuel v + 2 * S (List.length (JSON_stringify v)))) by lia.
  rewrite <- (app_nil_r (JSON_stringify v)) at 2.
  rewrite (jsonValue_stringify v Hs) by (reflexivity || lia).
  reflexivity.
Qed.

Lemma saveHistoryToStorage_takes (st : state) :
  saveHistoryToStorage st
  = if takes (localStorage st) (JSON_stringify (calculationHistory st))
    then setItem st (JSON_stringify (calculationHistory st))
    else logError st (str "Failed to save history:").
Proof. reflexivity. Qed.

(** X1: What [saveHistoryToStorage] stores is what the page installs when it is
    loaded again: when the storage takes the text, a storable history comes
    back as it was, and nothing goes to the console. *)
Theorem stored_history_restored :
  forall st : state,
    storable (calculationHistory st) = true ->
    takes (localStorage st) (JSON_stringify (calculationHistory st)) = true ->
    calculationHistory (fst (contentLoaded (reloaded (saveHistoryToStorage st))))
    = calculationHistory st
    /\ consoleErrors (fst (contentLoaded (reloaded (saveHistoryToStorage st)))) = [].
Proof.
  intros st Hs Ht.
  rewrite saveHistoryToStorage_takes, Ht.
  unfold contentLoaded, reloaded, setItem, loadHistoryFromStorage.
  cbn [localStorage storedItem].
  destruct (JSON_stringify_head _ Hs) as (c & t & E & _).
  pose proof (JSON_parse_stringify _ Hs) as Hp.
  rewrite E in *. rewrite Hp. cbn [tryCatch fst]. split; reflexivity.
Qed.

Lemma stored_history_restored_witness :
  calculationHistory
    (fst (contentLoaded
            (reloaded
               (saveHistoryToStorage
                  (setHistory initialState
                     (JArray [newHistoryItem (str "2+3") (VNum (Z_to_number 5))
                                (str "now")]))))))
  = JArray [newHistoryItem (str "2+3") (VNum (Z_to_number 5)) (str "now")]
  /\ consoleErrors
       (fst (contentLoaded
               (reloaded
                  (saveHistoryToStorage
                     (setHistory initialState
                        (JArray [newHistoryItem (str "2+3") (VNum (Z_to_number 5))
                                   (str "now")]))))))
     = [].
Proof.
  apply (stored_history_restored
           (setHistory initialState
              (JArray [newHistoryItem (str "2+3") (VNum (Z_to_number 5)) (str "now")]))).
  - vm_compute. reflexivity.
  - reflexivity.
Defined.

(** ** Sessions from the initial state *)

Lemma renderItem_record (expression : jsstring) (result : value) (now : jsstring) :
  renderItem (newHistoryItem expression result now) = Returns tt.
Proof. destruct result; reflexivity. Qed.

Lemma forEach_returns {A} (f : A -> completion unit) (items : list A) :
  Forall (fun item => f item = Returns tt) items -> forEach f items = Returns tt.
Proof.
  induction 1 as [|item items Hi _ IH]; [reflexivity|].
  cbn [forEach]. rewrite Hi. exact IH.
Qed.

Lemma scriptHistory_renders (st : state) :
  scriptHistory st -> renderHistory st = Returns tt.
Proof.
  intros (items & Hh & Hr). unfold renderHistory. rewrite Hh. cbn [lengthIsZero bind].
  destruct items as [|i items]; [reflexivity|].
  apply forEach_returns. eapply Forall_impl; [|exact Hr].
  intros item (expression & result & now & -> & _). apply renderItem_record.
Qed.

Lemma scriptRecord_result (item : json) :
  scriptRecord item ->
  truthy item = true
  /\ exists s, toStringMethod (getProperty item (str "result")) = Returns s.
Proof.
  intros (expression & result & now & -> & _). split; [reflexivity|].
  destruct result as [s|x]; eexists; reflexivity.
Qed.

Lemma removelast_Forall {A} (P : A -> Prop) (l : list A) :
  Forall P l -> Forall P (removelast l).
Proof.
  induction 1 as [|x l Hx Hl IH]; [constructor|].
  cbn [removelast]. destruct l; [constructor|]. constructor; assumption.
Qed.

Lemma saveToHistory_records (result : value) (now : jsstring) (st : state) :
  scriptHistory st ->
  strictEqualsString result (str "Error") || isNaN result || negb (isFinite result) = false ->
  exists st',
    saveToHistory (currentExpression st) result now st = (st', Returns tt)
    /\ scriptHistory st'.
Proof.
  intros (items & Hh & Hr) Hok.
  destruct (saveToHistory_array (currentExpression st) result now st items Hh)
    as (st' & Es & Hh' & _).
  assert (Hs : scriptHistory st').
  { eexists. split; [exact Hh'|]. constructor.
    - now exists (currentExpression st), result, now.
    - destruct (50 <=? List.length items)%nat; [now apply removelast_Forall|exact Hr]. }
  exists st'. split; [|exact Hs].
  now rewrite Es, (scriptHistory_renders st' Hs).
Qed.

Lemma settleResult_records (result : value) (now : jsstring) (st : state) :
  scriptHistory st ->
  exists st', catchError (settleResult result now st) = Returns st' /\ scriptHistory st'.
Proof.
  intros H. unfold settleResult.
  destruct (_ || _ || _) eqn:Ef.
  - eexists. split; [reflexivity|exact H].
  - destruct (saveToHistory_records result now st H Ef) as (st' & -> & H').
    eexists. split; [reflexivity|exact H'].
Qed.

Lemma calculateResult_records (now : jsstring) (st : state) :
  scriptHistory st ->
  (exists st', calculateResult now st = Returns st' /\ scriptHistory st')
  \/ calculateResult now st = HostDefined.
Proof.
  intros H. unfold calculateResult.
  destruct (currentExpression st) as [|c e]; [left; now exists st|].
  destruct (evaluateExpression (c :: e)) as [v|err|].
  - left. exact (settleResult_records v now st H).
  - left. eexists. split; [reflexivity|exact H].
  - now right.
Qed.

Lemma handle_records (a : action) (st : state) :
  scriptHistory st ->
  (exists st', handle a st = Returns st' /\ scriptHistory st')
  \/ handle a st = HostDefined.
Proof.
  intros H. destruct a; cbn [handle];
    try (left; eexists; split; [reflexivity|exact H]).
  - left. eexists. split; [reflexivity|].
    unfold operatorToResult. destruct (currentExpression st); exact H.
  - now apply calculateResult_records.
  - left. destruct H as (items & Hh & Hr). unfold clearHistory. rewrite Hh.
    cbn [lengthIsZero bind].
    destruct items as [|i items].
    + eexists. split; [reflexivity|]. exists []. now split.
    + destruct confirmed.
      * assert (Hs : scriptHistory (saveHistoryToStorage (setHistory st (JArray [])))).
        { exists []. split; [|constructor].
          now rewrite (proj1 (saveHistoryToStorage_keeps _)). }
        rewrite (scriptHistory_renders _ Hs). cbn [bind].
        eexists. split; [reflexivity|exact Hs].
      * eexists. split; [reflexivity|]. exists (i :: items). now split.
  - left. pose proof H as (items & Hh & Hr). unfold loadFromHistory. rewrite Hh.
    cbn [getIndex bind].
    destruct (index <? 0); [now exists st|].
    destruct (nth_error items (Z.to_nat index)) as [item|] eqn:En; [|now exists st].
    assert (Hi : scriptRecord item).
    { apply nth_error_In in En. rewrite Forall_forall in Hr. now apply Hr. }
    destruct (scriptRecord_result item Hi) as (-> & s & ->). cbn [bind].
    eexists. split; [reflexivity|exact H].
Qed.

(** X2: From the initial state on, the history is an array of records that
    [saveToHistory] made for results that pass the test of
    [calculateResult]; the page can render it, and no handler throws. *)
Theorem session_keeps_records :
  forall st : state,
    reachable initialState st ->
    scriptHistory st
    /\ renderHistory st = Returns tt
    /\ forall (a : action) (e : jsError), handle a st <> Throws e.
Proof.
  intros st Hr.
  assert (H : scriptHistory st).
  { induction Hr as [|st a st' _ IH Hs|st a e _ IH _|st now result st' _ IH _ Hs].
    - exists []. split; [reflexivity|constructor].
    - destruct (handle_records a st IH) as [(st1 & E & H1)|E]; [|congruence].
      rewrite E in Hs. now injection Hs as <-.
    - exact IH.
    - destruct (settleResult_records result now st IH) as (st1 & E & H1).
      rewrite E in Hs. now injection Hs as <-. }
  split; [exact H|]. split; [exact (scriptHistory_renders st H)|].
  intros a e E.
  destruct (handle_records a st H) as [(st1 & E1 & _)|E1]; congruence.
Qed.

Lemma session_keeps_records_witness :
  exists st : state,
    handle (Calculate (str "now")) (appendToResult (VStr (str "2+3")) initialState)
    = Returns st
    /\ currentExpression st = str "5"
    /\ scriptHistory st
    /\ renderHistory st = Returns tt
    /\ forall (a : action) (e : jsError), handle a st <> Throws e.
Proof.
  eexists. split; [vm_compute; reflexivity|]. split; [reflexivity|].
  apply session_keeps_records.
  apply (reachable_step initialState (appendToResult (VStr (str "2+3")) initialState)
           (Calculate (str "now"))).
  - apply (reachable_step initialState initialState (Append (VStr (str "2+3")))).
    + apply reachable_start.
    + reflexivity.
  - vm_compute. reflexivity.
Defined.

(** ** calculateResult beyond the failure of the evaluator *)

Lemma state_eta (st : state) :
  {| currentExpression := currentExpression st;
     calculationHistory := calculationHistory st;
     consoleErrors := consoleErrors st;
     localStorage := localStorage st |} = st.
Proof. now destruct st. Qed.

Lemma finite_result_saved (x : number) :
  Number_isFinite x = true ->
  strictEqualsString (VNum x) (str "Error") || isNaN (VNum x) || negb (isFinite (VNum x))
  = false.
Proof.
  intros Hfin. unfold isNaN, isFinite. cbn [strictEqualsString ToNumber orb].
  rewrite Hfin. now destruct x.
Qed.

Lemma saveHistoryToStorage_stores (st : state) :
  takes (localStorage st) (JSON_stringify (calculationHistory st)) = true ->
  storedItem (localStorage (saveHistoryToStorage st))
  = Some (JSON_stringify (calculationHistory st)).
Proof.
  intros Ht. rewrite saveHistoryToStorage_takes, Ht. reflexivity.
Qed.

Lemma saveToHistory_stored (expression : jsstring) (result : value) (now : jsstring)
    (st : state) (items : list json) :
  calculationHistory st = JArray items ->
  takes (localStorage st)
    (JSON_stringify (calculationHistory (fst (saveToHistory expression result now st))))
  = true ->
  storedItem (localStorage (fst (saveToHistory expression result now st)))
  = Some (JSON_stringify (calculationHistory (fst (saveToHistory expression result now st)))).
Proof.
  intros H. unfold saveToHistory. rewrite H. cbn [fst].
  match goal with |- context [saveHistoryToStorage ?s] => set (st0 := s) end.
  destruct (saveHistoryToStorage_keeps st0) as [-> _].
  exact (saveHistoryToStorage_stores st0).
Qed.

(** X3: When the evaluator returns a finite Number, the history is an array and
    the page can render it with the new record, [calculateResult] puts the
    record of the expression and its result first in the history (the last
    of 50 is dropped), the expression becomes the rendering of the result,
    the storage, when it takes the text, holds the text of the new history,
    and loading the newest record right after gives the same expression. *)
Theorem calculateResult_on_success :
  forall (now : jsstring) (st : state) (items : list json) (x : number),
    currentExpression st <> [] ->
    calculationHistory st = JArray items ->
    evaluateExpression (currentExpression st) = Returns (VNum x) ->
    Number_isFinite x = true ->
    renderHistory (fst (saveToHistory (currentExpression st) (VNum x) now st))
    = Returns tt ->
    exists st' st'' : state,
      calculateResult now st = Returns st'
      /\ currentExpression st' = Number_toString x
      /\ calculationHistory st'
         = JArray (newHistoryItem (currentExpression st) (VNum x) now
                   :: (if (50 <=? List.length items)%nat then removelast items else items))
      /\ (takes (localStorage st) (JSON_stringify (calculationHistory st')) = true ->
          storedItem (localStorage st') = Some (JSON_stringify (calculationHistory st')))
      /\ loadFromHistory 0 st' = Returns st''
      /\ currentExpression st'' = Number_toString x.
Proof.
  intros now st items x Hne Hh He Hfin Hrender.
  destruct (saveToHistory_array (currentExpression st) (VNum x) now st items Hh)
    as (st1 & Es & Hh1 & He1).
  exists (setExpression st1 (Number_toString x)).
  exists (setExpression st1 (Number_toString x)).
  rewrite Es in Hrender. cbn [fst] in Hrender.
  split; [|split; [reflexivity|split; [exact Hh1|split; [|split]]]].
  - unfold calculateResult.
    destruct (currentExpression st) as [|c e] eqn:Ece; [contradiction|].
    rewrite He. unfold settleResult.
    rewrite (finite_result_saved x Hfin), Ece, Es, Hrender. reflexivity.
  - cbn [setExpression calculationHistory localStorage].
    generalize (saveToHistory_stored (currentExpression st) (VNum x) now st items Hh).
    rewrite Es. cbn [fst]. exact (fun H => H).
  - unfold loadFromHistory.
    cbn [setExpression calculationHistory]. rewrite Hh1. reflexivity.
  - reflexivity.
Qed.

Lemma calculateResult_on_success_witness :
  exists st' st'' : state,
    calculateResult (str "now") (setExpression initialState (str "2+3")) = Returns st'
    /\ currentExpression st' = Number_toString (Z_to_number 5)
    /\ calculationHistory st'
       = JArray (newHistoryItem (currentExpression (setExpression initialState (str "2+3")))
                   (VNum (Z_to_number 5)) (str "now")
                 :: (if (50 <=? List.length (@nil json))%nat then removelast [] else []))
    /\ (takes (localStorage (setExpression initialState (str "2+3")))
          (JSON_stringify (calculationHistory st')) = true ->
        storedItem (localStorage st') = Some (JSON_stringify (calculationHistory st')))
    /\ loadFromHistory 0 st' = Returns st''
    /\ currentExpression st'' = Number_toString (Z_to_number 5).
Proof.
  refine (calculateResult_on_success (str "now") (setExpression initialState (str "2+3"))
            [] (Z_to_number 5) _ eq_refl _ eq_refl _).
  - discriminate.
  - vm_compute. reflexivity.
  - vm_compute. reflexivity.
Defined.

(** X4: When the page cannot render the history with the new record (a record
    loaded from the storage is [null], or has no string for its expression),
    [renderHistory] throws after the record was put in the history: the
    expression becomes ["Error"], and the record stays in the history. *)
Theorem calculateResult_unrenderable :
  forall (now : jsstring) (st : state) (items : list json) (x : number) (e : jsError),
    currentExpression st <> [] ->
    calculationHistory st = JArray items ->
    evaluateExpression (currentExpression st) = Returns (VNum x) ->
    Number_isFinite x = true ->
    renderHistory (fst (saveToHistory (currentExpression st) (VNum x) now st))
    = Throws e ->
    exists st' : state,
      calculateResult now st = Returns st'
      /\ currentExpression st' = str "Error"
      /\ calculationHistory st'
         = JArray (newHistoryItem (currentExpression st) (VNum x) now
                   :: (if (50 <=? List.length items)%nat then removelast items else items)).
Proof.
  intros now st items x e Hne Hh He Hfin Hrender.
  destruct (saveToHistory_array (currentExpression st) (VNum x) now st items Hh)
    as (st1 & Es & Hh1 & He1).
  exists (setExpression st1 (str "Error")).
  rewrite Es in Hrender. cbn [fst] in Hrender.
  split; [|split; [reflexivity|exact Hh1]].
  unfold calculateResult.
  destruct (currentExpression st) as [|c s] eqn:Ece; [contradiction|].
  rewrite He. unfold settleResult.
  rewrite (finite_result_saved x Hfin), Ece, Es, Hrender. reflexivity.
Qed.

Lemma calculateResult_unrenderable_witness :
  exists st' : state,
    calculateResult (str "now")
      (setExpression (setHistory initialState (JArray [JNull])) (str "2+3"))
    = Returns st'
    /\ currentExpression st' = str "Error"
    /\ calculationHistory st'
       = JArray (newHistoryItem
                   (currentExpression
                      (setExpression (setHistory initialState (JArray [JNull])) (str "2+3")))
                   (VNum (Z_to_number 5)) (str "now")
                 :: (if (50 <=? List.length [JNull])%nat then removelast [JNull] else [JNull])).
Proof.
  refine (calculateResult_unrenderable (str "now")
            (setExpression (setHistory initialState (JArray [JNull])) (str "2+3"))
            [JNull] (Z_to_number 5) TypeError _ eq_refl _ eq_refl _).
  - discriminate.
  - vm_compute. reflexivity.
  - vm_compute. reflexivity.
Defined.

(** X5: When the history is no array (the stored item was a JSON text of another
    kind, which [loadHistoryFromStorage] installs as it is), saving throws
    at once: every calculation of a non-empty expression ends in ["Error"],
    and the history stays what it was. *)
Theorem calculateResult_without_array :
  forall (now : jsstring) (st : state),
    currentExpression st <> [] ->
    (forall items, calculationHistory st <> JArray items) ->
    evaluateExpression (currentExpression st) <> HostDefined ->
    exists st' : state,
      calculateResult now st = Returns st'
      /\ currentExpression st' = str "Error"
      /\ calculationHistory st' = calculationHistory st.
Proof.
  intros now st Hne Hh Hhost.
  exists (setExpression st (str "Error")). split; [|split; reflexivity].
  unfold calculateResult.
  destruct (currentExpression st) as [|c e]; [contradiction|].
  destruct (evaluateExpression (c :: e)) as [v|err|]; [| |contradiction];
    [|reflexivity].
  unfold settleResult. destruct (_ || _ || _); [reflexivity|].
  unfold saveToHistory.
  destruct (calculationHistory st) as [ | | | |items| ] eqn:E;
    try reflexivity.
  now destruct (Hh items).
Qed.

Lemma calculateResult_without_array_witness :
  exists st' : state,
    calculateResult (str "now")
      (setExpression (setHistory initialState (JObject [])) (str "2+3"))
    = Returns st'
    /\ currentExpression st' = str "Error"
    /\ calculationHistory st'
       = calculationHistory
           (setExpression (setHistory initialState (JObject [])) (str "2+3")).
Proof.
  apply (calculateResult_without_array (str "now")
           (setExpression (setHistory initialState (JObject [])) (str "2+3"))).
  - discriminate.
  - discriminate.
  - vm_compute. discriminate.
Defined.

(** ** The evaluator at its edges *)

Lemma sanitize_idempotent (expr : jsstring) : sanitize (sanitize expr) = sanitize expr.
Proof.
  unfold sanitize. induction expr as [|c expr IH]; [reflexivity|].
  cbn [filter]. destruct (allowedChar c) eqn:E; [|exact IH].
  cbn [filter]. now rewrite E, IH.
Qed.

(** X6: The characters outside the alphabet play no part: an input and its
    sanitized form, when neither contains ["/0"], get the same answer. *)
Theorem evaluateExpression_of_sanitized :
  forall expr : jsstring,
    includes expr (str "/0") = false ->
    includes (sanitize expr) (str "/0") = false ->
    evaluateExpression expr = evaluateExpression (sanitize expr).
Proof.
  intros expr H1 H2. unfold evaluateExpression, evaluateExpressionWith.
  now rewrite H1, H2, sanitize_idempotent.
Qed.

Lemma evaluateExpression_of_sanitized_witness :
  evaluateExpression (str "2 + 3 = ?") = evaluateExpression (str "2+3")
  /\ evaluateExpression (str "1e+21") = evaluateExpression (str "1+21").
Proof.
  split.
  - exact (evaluateExpression_of_sanitized (str "2 + 3 = ?") eq_refl eq_refl).
  - exact (evaluateExpression_of_sanitized (str "1e+21") eq_refl eq_refl).
Defined.

(** X7: With no character of the alphabet in it there is nothing to evaluate:
    the function returns [undefined], [toFixed] is no method of it, and the
    answer is the error marker.  So an expression that is ["Error"] is
    ["Error"] again when the result is asked for, and the history is not
    touched. *)
Theorem evaluateExpression_nothing_to_evaluate :
  forall expr : jsstring,
    sanitize expr = [] ->
    evaluateExpression expr = Returns (VStr (str "Error"))
    /\ forall (now : jsstring) (st : state),
         currentExpression st = expr -> expr <> [] ->
         exists st' : state,
           calculateResult now st = Returns st'
           /\ currentExpression st' = str "Error"
           /\ calculationHistory st' = calculationHistory st.
Proof.
  intros expr Hs.
  assert (He : evaluateExpression expr = Returns (VStr (str "Error"))).
  { unfold evaluateExpression, evaluateExpressionWith.
    destruct (includes expr (str "/0")); [reflexivity|].
    rewrite Hs. reflexivity. }
  split; [exact He|].
  intros now st Hce Hne.
  exists (setExpression st (str "Error")). split; [|split; reflexivity].
  unfold calculateResult. rewrite Hce.
  destruct expr as [|c e]; [contradiction|].
  rewrite He. reflexivity.
Qed.

Lemma evaluateExpression_nothing_to_evaluate_witness :
  evaluateExpression (str "Error") = Returns (VStr (str "Error"))
  /\ forall (now : jsstring) (st : state),
       currentExpression st = str "Error" -> str "Error" <> [] ->
       exists st' : state,
         calculateResult now st = Returns st'
         /\ currentExpression st' = str "Error"
         /\ calculationHistory st' = calculationHistory st.
Proof.
  exact (evaluateExpression_nothing_to_evaluate (str "Error") eq_refl).
Defined.

(** ** The cap of the history, where it holds *)

Lemma contentLoaded_capped (st0 : state) :
  historyCapped st0 ->
  storeCapped (storedItem (localStorage st0)) ->
  historyCapped (fst (contentLoaded st0)).
Proof.
  intros H0 Hs. unfold contentLoaded, loadHistoryFromStorage.
  destruct (storedItem (localStorage st0)) as [[|c text]|]; cbn [tryCatch fst].
  - exact H0.
  - cbn [storeCapped] in Hs.
    destruct (JSON_parse (c :: text)) as [v|]; cbn [tryCatch fst].
    + exact Hs.
    + exists []. split; [reflexivity|cbn [List.length]; lia].
  - exact H0.
Qed.

(** X8: The cap holds in every session that starts from a store within the cap:
    when the stored item is absent, unusable, or the text of an array of at
    most 50 items, the history is an array of at most 50 items once the page
    is loaded, after every action of the user, and after every call of
    [saveToHistory], whether the page then renders the history or throws. *)
Theorem history_cap_within_session :
  forall st0 st : state,
    historyCapped st0 ->
    storeCapped (storedItem (localStorage st0)) ->
    reachable (fst (contentLoaded st0)) st ->
    historyCapped st
    /\ forall (expression : jsstring) (result : value) (now : jsstring),
         historyCapped (fst (saveToHistory expression result now st)).
Proof.
  intros st0 st H0 Hs Hr.
  assert (H : historyCapped st).
  { exact (reachable_capped _ st (contentLoaded_capped st0 H0 Hs) Hr). }
  split; [exact H|].
  intros expression result now.
  exact (proj1 (saveToHistory_capped expression result now st H)).
Qed.

Lemma history_cap_within_session_witness :
  historyCapped (fst (contentLoaded (setItem initialState (str "[null,7]"))))
  /\ forall (expression : jsstring) (result : value) (now : jsstring),
       historyCapped
         (fst (saveToHistory expression result now
                 (fst (contentLoaded (setItem initialState (str "[null,7]")))))).
Proof.
  apply (history_cap_within_session (setItem initialState (str "[null,7]"))).
  - exists []. split; [reflexivity|cbn [List.length]; lia].
  - exists [JNull; JNumber (Z_to_number 7)].
    split; [vm_compute; reflexivity|cbn [List.length]; lia].
  - apply reachable_start.
Defined.

Lemma includes_without_slash (s : jsstring) :
  forallb (fun c => negb (c =? ch "/")%N) s = true ->
  includes s (str "/0") = false.
Proof.
  induction s as [|c s IH]; [reflexivity|].
  cbn [forallb]. intros H. apply andb_true_iff in H. destruct H as [Hc Hs].
  cbn [includes]. rewrite (IH Hs), orb_false_r.
  change (startsWith (str "/0") (c :: s))
    with ((ch "/" =? c)%N && startsWith (str "0") s).
  apply negb_true_iff in Hc. now rewrite N.eqb_sym, Hc.
Qed.

Lemma octal_digit (c : jschar) : isOctalDigit c = true -> isDigit c = true.
Proof.
  unfold isOctalDigit, isDigit. intros H. apply andb_true_iff in H.
  destruct H as [H1 H2]. apply N.leb_le in H1, H2.
  apply andb_true_iff. split; apply N.leb_le; lia.
Qed.

Lemma octal_digits (ds : jsstring) :
  forallb isOctalDigit ds = true -> forallb isDigit ds = true.
Proof.
  induction ds as [|c ds IH]; [reflexivity|].
  cbn [forallb]. intros H. apply andb_true_iff in H. destruct H as [Hc Hs].
  now rewrite (octal_digit c Hc), (IH Hs).
Qed.

Lemma digits_without_slash (ds : jsstring) :
  forallb isDigit ds = true -> forallb (fun c => negb (c =? ch "/")%N) ds = true.
Proof.
  induction ds as [|c ds IH]; [reflexivity|].
  cbn [forallb]. intros H. apply andb_true_iff in H. destruct H as [Hc Hs].
  rewrite (IH Hs), andb_true_r. apply negb_true_iff, N.eqb_neq.
  apply digit_range in Hc. change (ch "/") with 47%N. lia.
Qed.

Lemma octalValue_nonneg (ds : jsstring) :
  forallb isOctalDigit ds = true -> 0 <= octalValue ds.
Proof.
  unfold octalValue. assert (H : forall acc, 0 <= acc ->
    forallb isOctalDigit ds = true ->
    0 <= fold_left (fun acc c => 8 * acc + digitVal c) ds acc).
  { induction ds as [|c ds IH]; intros acc Hacc Hd; cbn [fold_left]; [exact Hacc|].
    cbn [forallb] in Hd. apply andb_true_iff in Hd. destruct Hd as [Hc Hs].
    apply IH; [|exact Hs].
    apply octal_digit, digit_range in Hc. unfold digitVal. lia. }
  apply H. lia.
Qed.

Lemma decimalToNumber_integer (v : Z) :
  0 <= v -> decimalToNumber false v 0 = Z_to_number v.
Proof.
  intros H. destruct v as [|p|p]; [reflexivity| |lia].
  unfold decimalToNumber, Z_to_number. cbn [Z.leb Z.compare].
  now rewrite Z.pow_0_r, Z.mul_1_r.
Qed.

(** X9: A literal of several digits from 0 to 7 that starts with a zero is read
    in base 8, as the sloppy mode of the Function constructor reads it. *)
Theorem leading_zero_reads_octal :
  forall ds : jsstring,
    ds <> [] -> forallb isOctalDigit ds = true ->
    evaluateExpression (ch "0" :: ds)
    = Returns (VNum (roundTo10 (Z_to_number (octalValue ds)))).
Proof.
  intros ds Hne Ho.
  assert (Hd : forallb isDigit (ch "0" :: ds) = true)
    by (cbn [forallb]; now rewrite (octal_digits ds Ho)).
  unfold evaluateExpression, evaluateExpressionWith.
  rewrite (includes_without_slash _ (digits_without_slash _ Hd)).
  replace (sanitize (ch "0" :: ds)) with (ch "0" :: ds)
    by (symmetry; apply forallb_filter_id, digits_allowed, Hd).
  assert (Hlex : lex (List.length (ch "0" :: ds)) false (ch "0" :: ds)
                 = Some [TNum (Z_to_number (octalValue ds))]).
  { cbn [List.length lex]. change (isDigit (ch "0")) with true. cbn [orb].
    unfold lexNumber.
    rewrite <- (app_nil_r (ch "0" :: ds)) at 1.
    rewrite (spanDigits_app (ch "0" :: ds) [] Hd I).
    destruct ds as [|d ds']; [contradiction|].
    change (ch "0" =? ch "0")%N with true.
    assert (Hoct : forallb isOctalDigit (ch "0" :: d :: ds') = true)
      by (cbn [forallb] in *; exact Ho).
    rewrite Hoct. cbn [andb]. rewrite lex_nil. cbn [consToken].
    rewrite decimalToNumber_integer by (now apply octalValue_nonneg).
    reflexivity. }
  unfold Function_return. rewrite Hlex. reflexivity.
Qed.

Lemma leading_zero_reads_octal_witness :
  evaluateExpression (str "010") = Returns (VNum (Z_to_number 8)).
Proof.
  refine (eq_trans (leading_zero_reads_octal (str "10") _ eq_refl) _).
  - discriminate.
  - vm_compute. reflexivity.
Defined.

Lemma sanitize_app (a b : jsstring) : sanitize (a ++ b) = sanitize a ++ sanitize b.
Proof. apply filter_app. Qed.

(** X10: After an operand, a doubled [+] or [-] can only be an increment or a
    decrement, which needs a variable: the text is refused, whatever follows. *)
Theorem doubled_sign_is_error :
  forall (l : aexp) (c : jschar) (s : jsstring),
    wellFormed 0 l = true ->
    c = ch "+" \/ c = ch "-" ->
    includes (print l ++ c :: c :: s) (str "/0") = false ->
    evaluateExpression (print l ++ c :: c :: s) = Returns (VStr (str "Error")).
Proof.
  intros l c s Hwf Hc Hguard.
  unfold evaluateExpression, evaluateExpressionWith. rewrite Hguard.
  assert (Hs : sanitize (print l ++ c :: c :: s) = print l ++ c :: c :: sanitize s).
  { rewrite sanitize_app, (sanitize_print l 0 Hwf).
    destruct Hc as [-> | ->]; reflexivity. }
  rewrite Hs.
  assert (Hlex : lex (List.length (print l ++ c :: c :: sanitize s)) false
                   (print l ++ c :: c :: sanitize s) = None).
  { pose proof (tokens_le_length l 0 Hwf) as Hlen.
    rewrite length_app. cbn [List.length].
    replace (List.length (print l) + S (S (List.length (sanitize s))))%nat
      with (List.length (tokensOf l)
            + S (S (List.length (print l) - List.length (tokensOf l)
                    + List.length (sanitize s))))%nat by lia.
    rewrite (lex_print l 0 _ false _ Hwf);
      [|destruct Hc as [-> | ->]; reflexivity].
    destruct Hc as [-> | ->]; reflexivity. }
  unfold Function_return. rewrite Hlex. reflexivity.
Qed.

Lemma doubled_sign_is_error_witness :
  evaluateExpression (str "5--3") = Returns (VStr (str "Error"))
  /\ evaluateExpression (str "5++3") = Returns (VStr (str "Error")).
Proof.
  split.
  - exact (doubled_sign_is_error (ALit (str "5") []) (ch "-") (str "3")
             eq_refl (or_intror eq_refl) eq_refl).
  - exact (doubled_sign_is_error (ALit (str "5") []) (ch "+") (str "3")
             eq_refl (or_introl eq_refl) eq_refl).
Defined.

Lemma tokensOf_head (e : aexp) :
  exists t ts, tokensOf e = t :: ts /\ (t = TLParen \/ exists x, t = TNum x).
Proof.
  induction e as [i f|e IH|op l IHl r IHr]; cbn [tokensOf].
  - eexists _, _. split; [reflexivity|right; eauto].
  - eexists _, _. split; [reflexivity|now left].
  - destruct IHl as (t & ts & -> & Ht). eexists _, _. split; [reflexivity|exact Ht].
Qed.

Lemma callLoop_argument (f : nat) (a : expr) (t : token) (ts : list token) :
  t = TLParen \/ (exists x, t = TNum x) ->
  callLoop (S f) a (TLParen :: t :: ts)
  = match parseAdditive f (t :: ts) with
    | Some (b, TRParen :: r') => callLoop f (ECallWith a b) r'
    | _ => None
    end.
Proof. intros [-> | [x ->]]; reflexivity. Qed.

Lemma parseExponentiation_call (f : nat) (t : token) (ts : list token) (a : expr) :
  t = TLParen \/ (exists x, t = TNum x) ->
  parseCall f (t :: ts) = Some (a, []) ->
  parseExponentiation (S f) (t :: ts) = Some (a, []).
Proof.
  intros Ht Hc.
  assert (E : parseExponentiation (S f) (t :: ts)
              = match parseCall f (t :: ts) with
                | Some (a, TStarStar :: r) =>
                    match parseExponentiation f r with
                    | Some (b, r') => Some (EBinary Exp a b, r')
                    | None => None
                    end
                | res => res
                end)
    by (destruct Ht as [-> | [x ->]]; reflexivity).
  rewrite E, Hc. reflexivity.
Qed.

(** The syntax tree of an operand followed by a parenthesised expression: a
    call of the operand. *)
Lemma parseProgram_call (a e : aexp) :
  wellFormed 2 a = true -> wellFormed 0 e = true ->
  parseProgram (tokensOf a ++ tokensOf (AParen e))
  = Some (Some (ECallWith (treeOf a) (treeOf e))).
Proof.
  intros Ha He.
  destruct (parses_wellFormed a) as (Pa & _ & _).
  destruct (Pa Ha) as (na & Hna & Hpa).
  destruct (parses_wellFormed e) as (_ & _ & Pe).
  destruct (parsesAdditive_all e (Pe He)) as (ne & Hne & Hpe).
  pose proof (size_le_tokens a) as Hsa. pose proof (size_le_tokens e) as Hse.
  destruct (tokensOf_head a) as (ta & tsa & Eta & Hta).
  destruct (tokensOf_head e) as (te & tse & Ete & Hte).
  unfold parseProgram.
  remember (tokensOf a ++ tokensOf (AParen e)) as ts eqn:Ets.
  assert (Hlen : List.length ts
                 = (List.length (tokensOf a) + List.length (tokensOf e) + 2)%nat).
  { subst ts. cbn [tokensOf]. rewrite length_app. cbn [List.length].
    rewrite length_app. cbn [List.length]. lia. }
  remember (9 * S (List.length ts) - 5)%nat as k eqn:Ek.
  replace (9 * S (List.length ts))%nat with (S (S (S (S (S k))))) by lia.
  assert (Hts : ts = ta :: tsa ++ tokensOf (AParen e)) by (subst ts; now rewrite Eta).
  assert (Hcall : parseCall (S (S k)) ts
                  = Some (ECallWith (treeOf a) (treeOf e), [])).
  { change (parseCall (S (S k)) ts)
      with (match parsePrimary (S k) ts with
            | Some (a, r) => callLoop (S k) a r
            | None => None
            end).
    rewrite Ets, (Hpa (S k) _ ltac:(lia)).
    cbn [tokensOf]. rewrite Ete. cbn [app].
    rewrite (callLoop_argument k _ te _ Hte).
    change (te :: tse ++ [TRParen]) with ((te :: tse) ++ [TRParen]).
    rewrite <- Ete, (Hpe k [TRParen] ltac:(lia) eq_refl).
    destruct k; [lia|reflexivity]. }
  rewrite Hts in Hcall |- *.
  apply (parseExponentiation_call _ _ _ _ Hta) in Hcall.
  change (parseAdditive (S (S (S (S (S k))))) (ta :: tsa ++ tokensOf (AParen e)))
    with (match
            match parseExponentiation (S (S (S k))) (ta :: tsa ++ tokensOf (AParen e)) with
            | Some (a, r) => multiplicativeLoop (S (S (S k))) a r
            | None => None
            end
          with
          | Some (a, r) => additiveLoop (S (S (S (S k)))) a r
          | None => None
          end).
  rewrite Hcall. reflexivity.
Qed.

(** X11: An operand (a literal or a parenthesised expression) directly followed
    by a parenthesised expression is no product: it is read as a call of the
    operand, no Number is a function, and the answer is the error marker. *)
Theorem implicit_product_is_error :
  forall a e : aexp,
    wellFormed 2 a = true -> wellFormed 0 e = true ->
    includes (print a ++ print (AParen e)) (str "/0") = false ->
    evaluateExpression (print a ++ print (AParen e)) = Returns (VStr (str "Error")).
Proof.
  intros a e Ha He Hguard.
  unfold evaluateExpression, evaluateExpressionWith. rewrite Hguard.
  rewrite sanitize_app, (sanitize_print a 2 Ha), (sanitize_print (AParen e) 0 He).
  assert (Hlex : lex (List.length (print a ++ print (AParen e))) false
                   (print a ++ print (AParen e))
                 = Some (tokensOf a ++ tokensOf (AParen e))).
  { pose proof (tokens_le_length a 2 Ha) as Hla.
    pose proof (tokens_le_length (AParen e) 0 He) as Hle.
    rewrite length_app.
    replace (List.length (print a) + List.length (print (AParen e)))%nat
      with (List.length (tokensOf a)
            + (List.length (tokensOf (AParen e))
               + (List.length (print a) + List.length (print (AParen e))
                  - List.length (tokensOf a) - List.length (tokensOf (AParen e)))))%nat
      by lia.
    rewrite (lex_print a 2 (print (AParen e)) false _ Ha eq_refl).
    rewrite <- (app_nil_r (print (AParen e))).
    rewrite (lex_print (AParen e) 0 [] true _ He eq_refl).
    rewrite lex_nil. cbn [prepend]. now rewrite app_nil_r. }
  unfold Function_return. rewrite Hlex, (parseProgram_call a e Ha He). reflexivity.
Qed.

Lemma implicit_product_is_error_witness :
  evaluateExpression (str "2(3+4)") = Returns (VStr (str "Error"))
  /\ evaluateExpression (str "(1+2)(3)") = Returns (VStr (str "Error")).
Proof.
  split.
  - exact (implicit_product_is_error (ALit (str "2") [])
             (ABin OAdd (ALit (str "3") []) (ALit (str "4") []))
             eq_refl eq_refl eq_refl).
  - exact (implicit_product_is_error
             (AParen (ABin OAdd (ALit (str "1") []) (ALit (str "2") [])))
             (ALit (str "3") [])
             eq_refl eq_refl eq_refl).
Defined.

(** *** A leading minus sign *)

Lemma parseExponentiation_negated (p : aexp) :
  parsesPrimary p ->
  exists n, (1 <= n /\ n + 2 <= 8 * size p)%nat
    /\ forall f rest, (n <= f)%nat -> continuesAt 2 rest = false ->
         parseExponentiation f (TMinus :: tokensOf p ++ rest)
         = Some (EUnary UMinus (treeOf p), rest).
Proof.
  intros (n & Hn & Hp). exists (n + 4)%nat. split; [lia|].
  intros f rest Hf Hrest.
  destruct (tokensOf_head p) as (t & ts & Et & Ht).
  destruct f as [|[|[|[|f]]]]; try lia.
  assert (Hcall : parseCall (S f) (tokensOf p ++ rest) = Some (treeOf p, rest)).
  { change (parseCall (S f) (tokensOf p ++ rest))
      with (match parsePrimary f (tokensOf p ++ rest) with
            | Some (a, r) => callLoop f a r
            | None => None
            end).
    rewrite (Hp f rest ltac:(lia)).
    destruct f; [lia|]. destruct rest as [|[] rest]; try discriminate; reflexivity. }
  assert (Hun : parseUnary (S (S f)) (tokensOf p ++ rest) = Some (treeOf p, rest)).
  { rewrite Et in *. cbn [app] in *.
    destruct Ht as [-> | [x ->]]; exact Hcall. }
  change (parseExponentiation (S (S (S (S f)))) (TMinus :: tokensOf p ++ rest))
    with (match parseUnary (S (S f)) (tokensOf p ++ rest) with
          | Some (e, r') => Some (EUnary UMinus e, r')
          | None => None
          end).
  now rewrite Hun.
Qed.

Lemma parsesNegated_primary (p : aexp) :
  wellFormed 2 p = true -> parsesNegatedMultiplicative p.
Proof.
  intros Hwf.
  destruct (parses_wellFormed p) as (Pp & _ & _).
  destruct (parseExponentiation_negated p (Pp Hwf)) as (n & Hn & He).
  exists 0%nat, n. split; [lia|].
  intros f rest Hf Hrest. cbn [Nat.add].
  change (parseMultiplicative (S f) (TMinus :: tokensOf p ++ rest))
    with (match parseExponentiation f (TMinus :: tokensOf p ++ rest) with
          | Some (a, r) => multiplicativeLoop f a r
          | None => None
          end).
  rewrite (He f rest Hf Hrest).
  destruct p; [reflexivity|reflexivity|].
  cbn [wellFormed] in Hwf. destruct op; discriminate.
Qed.

Lemma parsesNegated_multiplicative_operator (op : aop) (l r : aexp) :
  precedence op = 1%nat ->
  parsesNegatedMultiplicative l -> parsesPrimary r ->
  parsesNegatedMultiplicative (ABin op l r).
Proof.
  intros Hop (c & n & Hn & Hl) Hr.
  destruct (parsesPrimary_exponentiation r Hr) as (m & Hm & He).
  exists (S c), (Nat.max n (m + 2)). split; [cbn [size]; lia|].
  intros f rest Hf Hrest. cbn [tokensOf treeOfNegated].
  rewrite <- app_assoc, <- app_comm_cons.
  replace (S c + f)%nat with (c + S f)%nat by lia.
  rewrite Hl; [|lia|destruct op; reflexivity].
  rewrite (multiplicativeLoop_operator op _ _ _ Hop).
  rewrite (He f rest ltac:(lia) Hrest). reflexivity.
Qed.

Lemma parsesNegated_all (e : aexp) :
  parsesNegatedMultiplicative e ->
  exists n, (n <= 8 * size e + 3)%nat
    /\ forall f rest, (n <= f)%nat -> continuesAt 1 rest = false ->
         parseMultiplicative f (TMinus :: tokensOf e ++ rest)
         = Some (treeOfNegated e, rest).
Proof.
  intros (c & n & Hn & Hm). exists (S (c + n)). split; [lia|].
  intros f rest Hf Hrest.
  replace f with (S (c + (f - S c))) by lia.
  rewrite Hm; [|lia|exact (continuesAt_mono 1 2 rest ltac:(lia) Hrest)].
  destruct (f - S c)%nat as [|k] eqn:E; [lia|].
  now apply multiplicativeLoop_stop.
Qed.

Lemma parsesNegated_additive (e : aexp) :
  parsesNegatedMultiplicative e -> parsesNegatedAdditive e.
Proof.
  intros Hm. destruct (parsesNegated_all e Hm) as (n & Hn & Ha).
  exists 0%nat, (S n). split; [lia|].
  intros f rest Hf Hrest. cbn [Nat.add].
  change (parseAdditive (S f) (TMinus :: tokensOf e ++ rest))
    with (match parseMultiplicative f (TMinus :: tokensOf e ++ rest) with
          | Some (a, r) => additiveLoop f a r
          | None => None
          end).
  rewrite (Ha f rest ltac:(lia) Hrest). reflexivity.
Qed.

Lemma parsesNegated_additive_operator (op : aop) (l r : aexp) :
  precedence op = 0%nat ->
  parsesNegatedAdditive l -> parsesMultiplicative r ->
  parsesNegatedAdditive (ABin op l r).
Proof.
  intros Hop (c & n & Hn & Hl) Hr.
  destruct (parsesMultiplicative_all r Hr) as (m & Hm & He).
  exists (S c), (Nat.max n m). split; [cbn [size]; lia|].
  intros f rest Hf Hrest. cbn [tokensOf treeOfNegated].
  rewrite <- app_assoc, <- app_comm_cons.
  replace (S c + f)%nat with (c + S f)%nat by lia.
  rewrite Hl; [|lia|destruct op; try discriminate; reflexivity].
  rewrite (additiveLoop_operator op _ _ _ Hop).
  rewrite (He f rest ltac:(lia) Hrest). reflexivity.
Qed.

Lemma parsesNegated_wellFormed (e : aexp) :
  (wellFormed 1 e = true -> parsesNegatedMultiplicative e)
  /\ (wellFormed 0 e = true -> parsesNegatedAdditive e).
Proof.
  induction e as [i f|e _|op l IHl r _].
  - assert (H : wellFormed 1 (ALit i f) = true -> parsesNegatedMultiplicative (ALit i f))
      by (intros H; now apply parsesNegated_primary).
    split; [exact H|]. intros H0. now apply parsesNegated_additive, H.
  - assert (H : wellFormed 1 (AParen e) = true -> parsesNegatedMultiplicative (AParen e))
      by (intros H; now apply parsesNegated_primary).
    split; [exact H|]. intros H0. now apply parsesNegated_additive, H.
  - destruct IHl as (IHl1 & IHl0).
    destruct (parses_wellFormed r) as (Pr2 & Pr1 & _).
    cbn [wellFormed].
    destruct (precedence_cases op) as [Hop|Hop]; rewrite Hop; cbn [Nat.leb andb].
    + split; [discriminate|].
      intros H. apply andb_true_iff in H as [Hl Hr].
      apply parsesNegated_additive_operator; auto.
    + assert (Hm : wellFormed 1 l && wellFormed 2 r = true ->
                   parsesNegatedMultiplicative (ABin op l r)).
      { intros H. apply andb_true_iff in H as [Hl Hr].
        apply parsesNegated_multiplicative_operator; auto. }
      split; [exact Hm|]. intros H. now apply parsesNegated_additive, Hm.
Qed.

Lemma parseProgram_negated (e : aexp) :
  wellFormed 0 e = true ->
  parseProgram (TMinus :: tokensOf e) = Some (Some (treeOfNegated e)).
Proof.
  intros H.
  destruct (parsesNegated_wellFormed e) as (_ & Pe).
  destruct (Pe H) as (c & n & Hn & Hp).
  pose proof (size_le_tokens e) as Hs.
  unfold parseProgram.
  replace (9 * S (List.length (TMinus :: tokensOf e)))%nat
    with (S (c + S (9 * S (List.length (TMinus :: tokensOf e)) - c - 2)))
    by (cbn [List.length]; lia).
  rewrite <- (app_nil_r (tokensOf e)) at 2.
  rewrite Hp; [reflexivity|cbn [List.length]; lia|reflexivity].
Qed.

Lemma evaluate_negated (e : aexp) :
  evaluate (treeOfNegated e) = Returns (Num (aevalNegated e)).
Proof.
  induction e as [i f|e _|op l IHl r _]; cbn [treeOfNegated aevalNegated].
  - reflexivity.
  - cbn [evaluate]. now rewrite (evaluate_tree (AParen e)).
  - cbn [evaluate]. rewrite IHl, (evaluate_tree r). destruct op; reflexivity.
Qed.

(** X12: A minus sign before a well-formed expression (as after a negative
    result) negates its first operand, and the rest is evaluated with the
    standard precedence. *)
Theorem leading_minus_negates_first_operand :
  forall e : aexp,
    wellFormed 0 e = true ->
    includes (ch "-" :: print e) (str "/0") = false ->
    evaluateExpression (ch "-" :: print e)
    = Returns (VNum (roundTo10 (aevalNegated e))).
Proof.
  intros e Hwf Hguard.
  unfold evaluateExpression, evaluateExpressionWith. rewrite Hguard.
  change (sanitize (ch "-" :: print e)) with (ch "-" :: sanitize (print e)).
  rewrite (sanitize_print e 0 Hwf).
  assert (Hlex : lex (List.length (ch "-" :: print e)) false (ch "-" :: print e)
                 = Some (TMinus :: tokensOf e)).
  { pose proof (tokens_le_length e 0 Hwf) as Hlen.
    pose proof (print_operandStart e 0 [] Hwf) as Hstart.
    rewrite app_nil_r in Hstart.
    destruct (operandStart_no_operator _ Hstart) as (_ & Hm & _).
    cbn [List.length lex].
    change (isDigit (ch "-")) with false. change (ch "-" =? ch ".")%N with false.
    change (ch "-" =? ch "+")%N with false. change (ch "-" =? ch "-")%N with true.
    cbn [orb andb]. rewrite Hm.
    replace (List.length (print e))
      with (List.length (tokensOf e)
            + (List.length (print e) - List.length (tokensOf e)))%nat by lia.
    rewrite <- (app_nil_r (print e)) at 2.
    rewrite (lex_print e 0 [] false _ Hwf eq_refl), lex_nil.
    cbn [prepend consToken]. now rewrite app_nil_r. }
  unfold Function_return.
  rewrite Hlex, (parseProgram_negated e Hwf), evaluate_negated. reflexivity.
Qed.

Lemma leading_minus_negates_first_operand_witness :
  evaluateExpression (str "-5+3") = Returns (VNum (Number_unaryMinus (Z_to_number 2)))
  /\ evaluateExpression (str "-2*(3+4)")
     = Returns (VNum (Number_unaryMinus (Z_to_number 14))).
Proof.
  split.
  - refine (eq_trans
      (leading_minus_negates_first_operand
         (ABin OAdd (ALit (str "5") []) (ALit (str "3") [])) eq_refl eq_refl) _).
    vm_compute. reflexivity.
  - refine (eq_trans
      (leading_minus_negates_first_operand
         (ABin OMul (ALit (str "2") [])
            (AParen (ABin OAdd (ALit (str "3") []) (ALit (str "4") []))))
         eq_refl eq_refl) _).
    vm_compute. reflexivity.
Defined.

(** *** Texts that are no expression *)

Lemma parseExponentiation_nil (f : nat) : parseExponentiation f [] = None.
Proof. destruct f as [|[|[|f]]]; reflexivity. Qed.

Lemma parseMultiplicative_nil (f : nat) : parseMultiplicative f [] = None.
Proof.
  destruct f as [|f]; [reflexivity|].
  change (parseMultiplicative (S f) [])
    with (match parseExponentiation f [] with
          | Some (a, r) => multiplicativeLoop f a r
          | None => None
          end).
  now rewrite parseExponentiation_nil.
Qed.

Lemma parseMultiplicative_trailing (e : aexp) (op : aop) :
  wellFormed 1 e = true -> precedence op = 1%nat ->
  exists n, (n <= 8 * size e)%nat
    /\ forall f, (n <= f)%nat -> parseMultiplicative f (tokensOf e ++ [opToken op]) = None.
Proof.
  intros Hwf Hop.
  destruct (parses_wellFormed e) as (_ & Pm & _).
  destruct (Pm Hwf) as (c & n & Hn & Hm).
  exists (S (c + n)). split; [lia|].
  intros f Hf.
  replace f with (S (c + (f - S c))) by lia.
  rewrite Hm; [|lia|destruct op; try discriminate; reflexivity].
  destruct (f - S c)%nat as [|k] eqn:E; [lia|].
  rewrite (multiplicativeLoop_operator op _ _ _ Hop).
  now rewrite parseExponentiation_nil.
Qed.

Lemma parseAdditive_trailing (e : aexp) (op : aop) :
  wellFormed 0 e = true ->
  exists n, (n <= 8 * size e + 1)%nat
    /\ forall f, (n <= f)%nat -> parseAdditive f (tokensOf e ++ [opToken op]) = None.
Proof.
  intros Hwf.
  destruct (parses_wellFormed e) as (_ & _ & Pa).
  destruct (precedence_cases op) as [Hop|Hop].
  - (* [+] or [-]: the loop of the additive expression asks for an operand *)
    destruct (Pa Hwf) as (c & n & Hn & Ha).
    exists (S (c + n)). split; [lia|].
    intros f Hf.
    replace f with (S (c + (f - S c))) by lia.
    rewrite Ha; [|lia|destruct op; try discriminate; reflexivity].
    destruct (f - S c)%nat as [|k] eqn:E; [lia|].
    rewrite (additiveLoop_operator op _ _ _ Hop).
    now rewrite parseMultiplicative_nil.
  - (* [*] or [/]: it goes on the last multiplicative expression *)
    assert (Hmul : forall e', wellFormed 1 e' = true ->
              exists n, (n <= 8 * size e' + 1)%nat
                /\ forall f, (n <= f)%nat ->
                     parseAdditive f (tokensOf e' ++ [opToken op]) = None).
    { intros e' Hwf'.
      destruct (parseMultiplicative_trailing e' op Hwf' Hop) as (n & Hn & Hm).
      exists (S n). split; [lia|].
      intros f Hf. destruct f as [|f]; [lia|].
      change (parseAdditive (S f) (tokensOf e' ++ [opToken op]))
        with (match parseMultiplicative f (tokensOf e' ++ [opToken op]) with
              | Some (a, r) => additiveLoop f a r
              | None => None
              end).
      now rewrite (Hm f ltac:(lia)). }
    destruct e as [i fr|e|op0 l r]; [now apply Hmul|now apply Hmul|].
    destruct (precedence_cases op0) as [Hop0|Hop0].
    + cbn [wellFormed] in Hwf. rewrite Hop0 in Hwf. cbn [Nat.leb andb] in Hwf.
      apply andb_true_iff in Hwf as [Hl Hr].
      destruct (parses_wellFormed l) as (_ & _ & Pl).
      destruct (Pl Hl) as (c & n & Hn & Ha).
      destruct (parseMultiplicative_trailing r op Hr Hop) as (m & Hm & Hfail).
      exists (S (c + Nat.max n (S m))). split; [cbn [size]; lia|].
      intros f Hf. cbn [tokensOf].
      rewrite <- app_assoc, <- app_comm_cons.
      replace f with (S (c + (f - S c))) by lia.
      rewrite Ha; [|lia|destruct op0; try discriminate; reflexivity].
      destruct (f - S c)%nat as [|k] eqn:E; [lia|].
      rewrite (additiveLoop_operator op0 _ _ _ Hop0).
      now rewrite (Hfail k ltac:(lia)).
    + apply Hmul. cbn [wellFormed] in *. now rewrite Hop0 in *.
Qed.

Lemma lex_trailing_operator (op : aop) (fuel : nat) :
  lex (S fuel) true [opChar op] = Some [opToken op].
Proof. destruct op; cbn [lex opChar]; rewrite ?lex_nil; reflexivity. Qed.

(** X13: A well-formed expression followed by an operator and nothing else is no
    expression: the answer is the error marker. *)
Theorem trailing_operator_is_error :
  forall (e : aexp) (op : aop),
    wellFormed 0 e = true ->
    includes (print e ++ [opChar op]) (str "/0") = false ->
    evaluateExpression (print e ++ [opChar op]) = Returns (VStr (str "Error")).
Proof.
  intros e op Hwf Hguard.
  unfold evaluateExpression, evaluateExpressionWith. rewrite Hguard.
  rewrite sanitize_app, (sanitize_print e 0 Hwf).
  replace (sanitize [opChar op]) with [opChar op] by (destruct op; reflexivity).
  assert (Hlex : lex (List.length (print e ++ [opChar op])) false (print e ++ [opChar op])
                 = Some (tokensOf e ++ [opToken op])).
  { pose proof (tokens_le_length e 0 Hwf) as Hlen.
    rewrite length_app. cbn [List.length].
    replace (List.length (print e) + 1)%nat
      with (List.length (tokensOf e)
            + S (List.length (print e) - List.length (tokensOf e)))%nat by lia.
    rewrite (lex_print e 0 _ false _ Hwf); [|destruct op; reflexivity].
    now rewrite lex_trailing_operator. }
  destruct (parseAdditive_trailing e op Hwf) as (n & Hn & Hfail).
  pose proof (size_le_tokens e) as Hs.
  unfold Function_return, parseProgram. rewrite Hlex.
  rewrite Hfail by (rewrite length_app; cbn [List.length]; lia).
  destruct (tokensOf e); reflexivity.
Qed.

Lemma trailing_operator_is_error_witness :
  evaluateExpression (str "2+3*") = Returns (VStr (str "Error"))
  /\ evaluateExpression (str "(2+3)-") = Returns (VStr (str "Error")).
Proof.
  split.
  - exact (trailing_operator_is_error
             (ABin OAdd (ALit (str "2") []) (ALit (str "3") [])) OMul eq_refl eq_refl).
  - exact (trailing_operator_is_error
             (AParen (ABin OAdd (ALit (str "2") []) (ALit (str "3") []))) OSub
             eq_refl eq_refl).
Defined.

(** X14: A parenthesis without its match, before or after a well-formed
    expression, makes a text that is no expression. *)
Theorem unmatched_parenthesis_is_error :
  forall e : aexp,
    wellFormed 0 e = true ->
    includes (print e) (str "/0") = false ->
    evaluateExpression (ch "(" :: print e) = Returns (VStr (str "Error"))
    /\ evaluateExpression (print e ++ [ch ")"]) = Returns (VStr (str "Error")).
Proof.
  intros e Hwf Hguard.
  destruct (parses_wellFormed e) as (_ & _ & Pa).
  destruct (parsesAdditive_all e (Pa Hwf)) as (n & Hn & Hp).
  pose proof (size_le_tokens e) as Hs.
  pose proof (tokens_le_length e 0 Hwf) as Hlen.
  split.
  - unfold evaluateExpression, evaluateExpressionWith.
    change (includes (ch "(" :: print e) (str "/0")) with (includes (print e) (str "/0")).
    rewrite Hguard.
    change (sanitize (ch "(" :: print e)) with (ch "(" :: sanitize (print e)).
    rewrite (sanitize_print e 0 Hwf).
    assert (Hlex : lex (List.length (ch "(" :: print e)) false (ch "(" :: print e)
                   = Some (TLParen :: tokensOf e)).
    { cbn [List.length lex].
      change (isDigit (ch "(")) with false. change (ch "(" =? ch ".")%N with false.
      change (ch "(" =? ch "+")%N with false. change (ch "(" =? ch "-")%N with false.
      change (ch "(" =? ch "*")%N with false. change (ch "(" =? ch "(")%N with true.
      cbn [orb andb]. cbv iota.
      replace (List.length (print e))
        with (List.length (tokensOf e)
              + (List.length (print e) - List.length (tokensOf e)))%nat by lia.
      rewrite <- (app_nil_r (print e)) at 2.
      rewrite (lex_print e 0 [] false _ Hwf eq_refl), lex_nil.
      cbn [prepend consToken]. now rewrite app_nil_r. }
    unfold Function_return, parseProgram. rewrite Hlex.
    remember (9 * S (List.length (TLParen :: tokensOf e)) - 5)%nat as k eqn:Ek.
    replace (9 * S (List.length (TLParen :: tokensOf e)))%nat
      with (S (S (S (S (S k))))) by (cbn [List.length] in *; lia).
    change (parseAdditive (S (S (S (S (S k))))) (TLParen :: tokensOf e))
      with (match
              match
                match
                  match
                    match parseAdditive k (tokensOf e) with
                    | Some (e', TRParen :: r') => Some (e', r')
                    | _ => None
                    end
                  with
                  | Some (a, r) => callLoop (S k) a r
                  | None => None
                  end
                with
                | Some (a, TStarStar :: r) =>
                    match parseExponentiation (S (S k)) r with
                    | Some (b, r') => Some (EBinary Exp a b, r')
                    | None => None
                    end
                | res => res
                end
              with
              | Some (a, r) => multiplicativeLoop (S (S (S k))) a r
              | None => None
              end
            with
            | Some (a, r) => additiveLoop (S (S (S (S k)))) a r
            | None => None
            end).
    rewrite <- (app_nil_r (tokensOf e)).
    rewrite (Hp k [] ltac:(cbn [List.length] in *; lia) eq_refl). reflexivity.
  - unfold evaluateExpression, evaluateExpressionWith.
    assert (Hg : includes (print e ++ [ch ")"]) (str "/0") = false).
    { clear - Hguard. induction (print e) as [|c s IH]; [reflexivity|].
      cbn [includes app] in *. apply orb_false_iff in Hguard as [H1 H2].
      rewrite (IH H2), orb_false_r.
      change (startsWith (str "/0") (c :: s ++ [ch ")"]))
        with ((ch "/" =? c)%N && startsWith (str "0") (s ++ [ch ")"])).
      change (startsWith (str "/0") (c :: s))
        with ((ch "/" =? c)%N && startsWith (str "0") s) in H1.
      destruct (ch "/" =? c)%N; [|reflexivity]. cbn [andb] in *.
      destruct s as [|d s]; [reflexivity|]. exact H1. }
    rewrite Hg, sanitize_app, (sanitize_print e 0 Hwf).
    change (sanitize [ch ")"]) with [ch ")"].
    assert (Hlex : lex (List.length (print e ++ [ch ")"])) false (print e ++ [ch ")"])
                   = Some (tokensOf e ++ [TRParen])).
    { rewrite length_app. cbn [List.length].
      replace (List.length (print e) + 1)%nat
        with (List.length (tokensOf e)
              + S (List.length (print e) - List.length (tokensOf e)))%nat by lia.
      rewrite (lex_print e 0 [ch ")"] false _ Hwf eq_refl).
      cbn [lex]. rewrite !lex_nil. reflexivity. }
    unfold Function_return, parseProgram. rewrite Hlex.
    rewrite (Hp _ [TRParen]) by (rewrite ?length_app; cbn [List.length]; lia || reflexivity).
    destruct (tokensOf e); reflexivity.
Qed.

Lemma unmatched_parenthesis_is_error_witness :
  evaluateExpression (str "(2+3") = Returns (VStr (str "Error"))
  /\ evaluateExpression (str "2+3)") = Returns (VStr (str "Error")).
Proof.
  exact (unmatched_parenthesis_is_error
           (ABin OAdd (ALit (str "2") []) (ALit (str "3") [])) eq_refl eq_refl).
Defined.

(** ** The keys of the calculator *)

Lemma backspace_last (st : state) (x : jschar) :
  backspace (setExpression st (currentExpression st ++ [x])) = st.
Proof.
  unfold backspace, setExpression.
  cbn [currentExpression calculationHistory consoleErrors localStorage].
  rewrite removelast_last. apply state_eta.
Qed.

Lemma digit_ToString (d : Z) :
  0 <= d <= 9 -> ToString (VNum (Z_to_number d)) = [(48 + Z.to_N d)%N].
Proof.
  intros Hd.
  assert (Hc : d = 0 \/ d = 1 \/ d = 2 \/ d = 3 \/ d = 4 \/ d = 5 \/ d = 6
               \/ d = 7 \/ d = 8 \/ d = 9) by lia.
  destruct Hc as [->|[->|[->|[->|[->|[->|[->|[->|[->| ->]]]]]]]]];
    vm_compute; reflexivity.
Qed.

(** X15: The keys put one character at the end of the expression (a digit given
    as a Number puts its numeral, the display signs of the operators put
    [*] and [/], an operator on the empty expression puts nothing), and the
    backspace key takes back one key. *)
Theorem backspace_undoes_key :
  forall (c : jschar) (st : state),
    currentExpression (appendToResult (VStr [c]) st) = currentExpression st ++ [c]
    /\ currentExpression (bracketToResult [c] st) = currentExpression st ++ [c]
    /\ (currentExpression st <> [] ->
        currentExpression (operatorToResult [c] st)
        = currentExpression st
          ++ [if (c =? 215)%N then ch "*" else if (c =? 247)%N then ch "/" else c])
    /\ (currentExpression st = [] -> operatorToResult [c] st = st)
    /\ backspace (appendToResult (VStr [c]) st) = st
    /\ backspace (bracketToResult [c] st) = st
    /\ backspace (operatorToResult [c] st) = st
    /\ forall d : Z, 0 <= d <= 9 ->
         currentExpression (appendToResult (VNum (Z_to_number d)) st)
         = currentExpression st ++ [(48 + Z.to_N d)%N]
         /\ backspace (appendToResult (VNum (Z_to_number d)) st) = st.
Proof.
  intros c st.
  assert (Hop : currentExpression st <> [] ->
                operatorToResult [c] st
                = setExpression st
                    (currentExpression st
                     ++ [if (c =? 215)%N then ch "*"
                         else if (c =? 247)%N then ch "/" else c])).
  { intros Hne. unfold operatorToResult.
    destruct (currentExpression st) as [|c0 e] eqn:E; [contradiction|].
    change (jsstring_eqb [c] [215%N]) with ((c =? 215)%N && true).
    change (jsstring_eqb [c] [247%N]) with ((c =? 247)%N && true).
    rewrite !andb_true_r.
    destruct (c =? 215)%N; [reflexivity|].
    destruct (c =? 247)%N; reflexivity. }
  assert (Hempty : currentExpression st = [] -> operatorToResult [c] st = st).
  { intros E. unfold operatorToResult. now rewrite E. }
  split; [reflexivity|]. split; [reflexivity|].
  split; [intros Hne; now rewrite (Hop Hne)|].
  split; [exact Hempty|].
  split; [apply backspace_last|]. split; [apply backspace_last|].
  split.
  - destruct (currentExpression st) as [|c0 e] eqn:E.
    + rewrite (Hempty eq_refl). unfold backspace, setExpression. rewrite E.
      cbn [removelast]. rewrite <- E. apply state_eta.
    + rewrite Hop by discriminate. rewrite <- E. apply backspace_last.
  - intros d Hd. unfold appendToResult. rewrite (digit_ToString d Hd).
    split; [reflexivity|apply backspace_last].
Qed.

Lemma backspace_undoes_key_witness :
  currentExpression
    (appendToResult (VNum (Z_to_number 7)) (setExpression initialState (str "2+")))
  = currentExpression (setExpression initialState (str "2+")) ++ [(48 + Z.to_N 7)%N]
  /\ backspace
       (appendToResult (VNum (Z_to_number 7)) (setExpression initialState (str "2+")))
     = setExpression initialState (str "2+").
Proof.
  apply (proj2 (proj2 (proj2 (proj2 (proj2 (proj2 (proj2
           (backspace_undoes_key (ch "7") (setExpression initialState (str "2+")))))))))).
  lia.
Defined.

(** ** The history, record by record *)

Lemma nth_error_removelast {A} (l : list A) (n : nat) :
  (S n < List.length l)%nat -> nth_error (removelast l) n = nth_error l n.
Proof.
  revert n. induction l as [|x l IH]; intros n H; [cbn [List.length] in H; lia|].
  destruct l as [|y l]; [cbn [List.length] in H; lia|].
  change (removelast (x :: y :: l)) with (x :: removelast (y :: l)).
  destruct n as [|n]; [reflexivity|].
  cbn [nth_error]. apply IH. cbn [List.length] in *. lia.
Qed.

(** X16: [saveToHistory] on an array, whether the page then renders or throws:
    the new record is the one at index 0, every record that stood at an
    index below 49 stands one further, and nothing stands at index 50. *)
Theorem saveToHistory_newest_first :
  forall (expression : jsstring) (result : value) (now : jsstring) (st : state)
         (items : list json),
    calculationHistory st = JArray items ->
    (List.length items <= 50)%nat ->
    getIndex (calculationHistory (fst (saveToHistory expression result now st))) 0
    = Returns (Some (newHistoryItem expression result now))
    /\ (forall i : Z, 0 <= i < 49 ->
          getIndex (calculationHistory (fst (saveToHistory expression result now st)))
            (i + 1)
          = getIndex (calculationHistory st) i)
    /\ getIndex (calculationHistory (fst (saveToHistory expression result now st))) 50
       = Returns None.
Proof.
  intros expression result now st items Hh Hlen.
  destruct (saveToHistory_array expression result now st items Hh) as (st' & -> & Hh' & _).
  cbn [fst]. rewrite Hh', Hh. split; [reflexivity|]. split.
  - intros i Hi. cbn [getIndex].
    destruct (Z.ltb_spec (i + 1) 0) as [H|_]; [lia|].
    destruct (Z.ltb_spec i 0) as [H|_]; [lia|].
    replace (Z.to_nat (i + 1)) with (S (Z.to_nat i)) by lia.
    cbn [nth_error]. f_equal.
    destruct (Nat.leb_spec 50 (List.length items)) as [H|H]; [|reflexivity].
    apply nth_error_removelast. lia.
  - cbn [getIndex]. change (50 <? 0) with false. cbv iota.
    match goal with
    | |- Returns ?x = _ => assert (E : x = None); [|now rewrite E]
    end.
    apply nth_error_None. cbn [List.length].
    destruct (Nat.leb_spec 50 (List.length items)) as [H|H].
    + rewrite removelast_length. lia.
    + lia.
Qed.

Lemma saveToHistory_newest_first_witness :
  getIndex
    (calculationHistory
       (fst (saveToHistory (str "2+3") (VNum (Z_to_number 5)) (str "now")
               (setHistory initialState (JArray [JNull]))))) 0
  = Returns (Some (newHistoryItem (str "2+3") (VNum (Z_to_number 5)) (str "now")))
  /\ (forall i : Z, 0 <= i < 49 ->
        getIndex
          (calculationHistory
             (fst (saveToHistory (str "2+3") (VNum (Z_to_number 5)) (str "now")
                     (setHistory initialState (JArray [JNull]))))) (i + 1)
        = getIndex (calculationHistory (setHistory initialState (JArray [JNull]))) i)
  /\ getIndex
       (calculationHistory
          (fst (saveToHistory (str "2+3") (VNum (Z_to_number 5)) (str "now")
                  (setHistory initialState (JArray [JNull]))))) 50
     = Returns None.
Proof.
  apply (saveToHistory_newest_first (str "2+3") (VNum (Z_to_number 5)) (str "now")
           (setHistory initialState (JArray [JNull])) [JNull] eq_refl).
  cbn [List.length]. lia.
Defined.

(** X17: [clearHistory] on an array that is not empty: declined, it changes
    nothing; confirmed, the history is the empty array, the expression is
    kept, the storage, when it takes the text, holds the text of the empty
    array, and no index loads a record any more. *)
Theorem clearHistory_empties :
  forall (st : state) (items : list json),
    calculationHistory st = JArray items ->
    items <> [] ->
    clearHistory false st = Returns st
    /\ exists st' : state,
         clearHistory true st = Returns st'
         /\ calculationHistory st' = JArray []
         /\ currentExpression st' = currentExpression st
         /\ (takes (localStorage st) (str "[]") = true ->
             storedItem (localStorage st') = Some (str "[]"))
         /\ forall index : Z,
              exists st'' : state,
                loadFromHistory index st' = Returns st''
                /\ currentExpression st'' = currentExpression st
                /\ calculationHistory st'' = JArray [].
Proof.
  intros st items Hh Hne.
  destruct items as [|i items]; [contradiction|].
  unfold clearHistory. rewrite Hh. cbn [lengthIsZero bind List.length Nat.eqb].
  split; [reflexivity|].
  destruct (saveHistoryToStorage_keeps (setHistory st (JArray []))) as [Hk He].
  exists (saveHistoryToStorage (setHistory st (JArray []))).
  assert (Hr : renderHistory (saveHistoryToStorage (setHistory st (JArray [])))
               = Returns tt).
  { unfold renderHistory. rewrite Hk. reflexivity. }
  rewrite Hr. cbn [bind].
  split; [reflexivity|]. split; [exact Hk|]. split; [exact He|]. split.
  - intros Ht. exact (saveHistoryToStorage_stores (setHistory st (JArray [])) Ht).
  - intros index. exists (saveHistoryToStorage (setHistory st (JArray []))).
    split; [|split; [exact He|exact Hk]].
    unfold loadFromHistory. rewrite Hk.
    cbn [setHistory calculationHistory getIndex bind].
    destruct (index <? 0); [reflexivity|].
    now destruct (Z.to_nat index).
Qed.

Lemma clearHistory_empties_witness :
  clearHistory false (setHistory initialState (JArray [JNull]))
  = Returns (setHistory initialState (JArray [JNull]))
  /\ exists st' : state,
       clearHistory true (setHistory initialState (JArray [JNull])) = Returns st'
       /\ calculationHistory st' = JArray []
       /\ currentExpression st'
          = currentExpression (setHistory initialState (JArray [JNull]))
       /\ (takes (localStorage (setHistory initialState (JArray [JNull]))) (str "[]") = true ->
           storedItem (localStorage st') = Some (str "[]"))
       /\ forall index : Z,
            exists st'' : state,
              loadFromHistory index st' = Returns st''
              /\ currentExpression st''
                 = currentExpression (setHistory initialState (JArray [JNull]))
              /\ calculationHistory st'' = JArray [].
Proof.
  apply (clearHistory_empties (setHistory initialState (JArray [JNull])) [JNull] eq_refl).
  discriminate.
Defined.

(** ** The page *)

Lemma spanDigits_parts (s ds r : jsstring) :
  spanDigits s = (ds, r) -> forallb isDigit ds = true /\ s = ds ++ r.
Proof.
  revert ds r. induction s as [|c s IH]; intros ds r; cbn [spanDigits].
  - intros [= <- <-]. now split.
  - destruct (isDigit c) eqn:Hc.
    + destruct (spanDigits s) as [ds' r'] eqn:E. intros [= <- <-].
      destruct (IH _ _ eq_refl) as [Hd ->]. cbn [forallb app]. now rewrite Hc, Hd.
    + intros [= <- <-]. now split.
Qed.

(** A character of a simple number: a digit, the point or the minus sign. *)
Lemma simpleNumberPattern_chars (s : jsstring) :
  simpleNumberPattern s = true ->
  exists c s', s = c :: s'
    /\ forallb (fun d => isDigit d || (d =? ch ".")%N || (d =? ch "-")%N) s = true.
Proof.
  unfold simpleNumberPattern. intros H.
  assert (Hcore : forall t,
    match spanDigits t with
    | ([], _) => false
    | (_ :: _, []) => true
    | (_ :: _, c :: r) => (c =? ch ".")%N && forallb isDigit r
    end = true ->
    exists c t', t = c :: t'
      /\ forallb (fun d => isDigit d || (d =? ch ".")%N || (d =? ch "-")%N) t = true).
  { intros t Ht. destruct (spanDigits t) as [ds r] eqn:E.
    destruct (spanDigits_parts _ _ _ E) as [Hd ->].
    destruct ds as [|d ds]; [discriminate|].
    exists d, (ds ++ r). split; [reflexivity|].
    change (d :: ds ++ r) with ((d :: ds) ++ r).
    rewrite forallb_app. apply andb_true_iff. split.
    - clear - Hd. induction (d :: ds) as [|x l IH]; [reflexivity|].
      cbn [forallb] in *. apply andb_true_iff in Hd as [Hx Hl].
      now rewrite Hx, (IH Hl).
    - destruct r as [|c r]; [reflexivity|].
      apply andb_true_iff in Ht as [Hc Hr]. cbn [forallb].
      rewrite Hc, orb_true_r. cbn [orb andb].
      clear - Hr. induction r as [|x l IH]; [reflexivity|].
      cbn [forallb] in *. apply andb_true_iff in Hr as [Hx Hl].
      now rewrite Hx, (IH Hl). }
  destruct s as [|c s']; [discriminate|].
  exists c, s'. split; [reflexivity|].
  destruct (N.eqb_spec c (ch "-")) as [->|Hc].
  - destruct (Hcore s' H) as (_ & _ & _ & Hs). cbn [forallb]. now rewrite Hs.
  - now destruct (Hcore (c :: s') H) as (_ & _ & _ & Hs).
Qed.

Lemma replaceChar_absent (c : jschar) (r s : jsstring) :
  forallb (fun d => negb (d =? c)%N) s = true -> replaceChar c r s = s.
Proof.
  unfold replaceChar. induction s as [|d s IH]; [reflexivity|].
  cbn [forallb flat_map]. intros H. apply andb_true_iff in H as [Hd Hs].
  apply negb_true_iff in Hd. now rewrite Hd, (IH Hs).
Qed.

Lemma simpleNumber_displayed (s : jsstring) :
  simpleNumberPattern s = true ->
  displayText s = s /\ s <> [] /\ jsstring_eqb s (str "Error") = false.
Proof.
  intros H. destruct (simpleNumberPattern_chars s H) as (c & s' & -> & Hc).
  assert (Hno : forall x, isDigit x = false -> x <> ch "." -> x <> ch "-" ->
                  forallb (fun d => negb (d =? x)%N) (c :: s') = true).
  { intros x Hx Hp Hm. clear H. induction (c :: s') as [|d l IH]; [reflexivity|].
    cbn [forallb] in *. apply andb_true_iff in Hc as [Hd Hl].
    rewrite (IH Hl), andb_true_r. apply negb_true_iff, N.eqb_neq. intros ->.
    rewrite Hx in Hd. cbn [orb] in Hd.
    apply orb_true_iff in Hd as [Hd|Hd]; apply N.eqb_eq in Hd; congruence. }
  repeat split.
  - unfold displayText.
    rewrite (replaceChar_absent (ch "*")) by (apply Hno; [reflexivity|discriminate|discriminate]).
    apply replaceChar_absent, Hno; [reflexivity|discriminate|discriminate].
  - discriminate.
  - cbn [forallb] in Hc. apply andb_true_iff in Hc as [Hc _].
    change (jsstring_eqb (c :: s') (str "Error"))
      with ((c =? ch "E")%N && jsstring_eqb s' (str "rror")).
    destruct (N.eqb_spec c (ch "E")) as [->|_]; [discriminate|reflexivity].
Qed.

(** X18: What [updateResult] shows is decided by the pattern alone: for an
    expression that is a simple number, the expression itself and its words
    in the word area; for any other, the expression with the display signs
    (["0"] when it is empty), no words, the word area hidden and the speak
    button disabled.  (The tests for the empty expression and for ["Error"]
    never decide.) *)
Theorem updateResult_shows :
  forall st : state,
    updateResult st =
      if simpleNumberPattern (currentExpression st)
      then {| resultValue := currentExpression st;
              wordResultText := numberToWords (VStr (currentExpression st));
              wordAreaDisplay := str "flex";
              speakDisabled :=
                match trim (numberToWords (VStr (currentExpression st))) with
                | [] => true
                | _ => false
                end |}
      else {| resultValue :=
                match displayText (currentExpression st) with
                | [] => str "0"
                | _ => displayText (currentExpression st)
                end;
              wordResultText := [];
              wordAreaDisplay := str "none";
              speakDisabled := true |}.
Proof.
  intros st. unfold updateResult.
  destruct (simpleNumberPattern (currentExpression st)) eqn:E; [|reflexivity].
  destruct (simpleNumber_displayed _ E) as (Hd & Hne & Herr).
  rewrite Hd, Herr.
  destruct (currentExpression st) as [|c s]; [contradiction|].
  cbn [andb negb].
  now destruct (trim (numberToWords (VStr (c :: s)))).
Qed.




(** ** Number to words, group by group *)

Lemma upTo_forallb (P : Z -> bool) (n : nat) :
  forallb P (upTo n) = true -> forall v, 0 <= v < Z.of_nat n -> P v = true.
Proof.
  intros H v Hv. rewrite forallb_forall in H. apply H.
  unfold upTo. apply in_map_iff. exists (Z.to_nat v). split; [lia|].
  apply in_seq. lia.
Qed.

Lemma scale_words_checked :
  forallb
    (fun v =>
       (v =? 0)
       || forallb
            (fun i =>
               jsstring_eqb
                 (numberToWords (VNum (Z_to_number (v * 1000 ^ Z.of_nat i))))
                 (convertGroup v ++ scaleSuffix i))
            (seq 0 6))
    (upTo 1000) = true.
Proof. vm_compute. reflexivity. Qed.

Lemma scale_words (v : Z) (i : nat) :
  1 <= v <= 999 -> (i <= 5)%nat ->
  numberToWords (VNum (Z_to_number (v * 1000 ^ Z.of_nat i)))
  = convertGroup v ++ scaleSuffix i.
Proof.
  intros Hv Hi.
  pose proof (upTo_forallb _ _ scale_words_checked v ltac:(lia)) as H.
  cbv beta in H. apply orb_true_iff in H as [H|H]; [apply Z.eqb_eq in H; lia|].
  rewrite forallb_forall in H. apply jsstring_eqb_eq, H, in_seq. lia.
Qed.

(** X20: An integer from 1 to 999, times a power of 1000 up to the fourth, is
    read as its group of words and the name of the scale: nothing, Thousand,
    Million, Billion, Trillion. *)
Theorem numberToWords_group_and_scale :
  forall (v : Z) (i : nat),
    1 <= v <= 999 -> (i <= 4)%nat ->
    numberToWords (VNum (Z_to_number (v * 1000 ^ Z.of_nat i)))
    = convertGroup v
      ++ nth i [str ""; str " Thousand"; str " Million"; str " Billion"; str " Trillion"] [].
Proof.
  intros v i Hv Hi. rewrite (scale_words v i Hv ltac:(lia)).
  f_equal. do 5 (destruct i as [|i]; [reflexivity|]). lia.
Qed.

Lemma numberToWords_group_and_scale_witness :
  numberToWords (VNum (Z_to_number (120 * 1000 ^ Z.of_nat 2)))
  = str "One Hundred Twenty Million".
Proof.
  refine (eq_trans (numberToWords_group_and_scale 120 2 _ _) _).
  - lia.
  - lia.
  - vm_compute. reflexivity.
Defined.

(** X21: The scales end at Trillion: an integer from 1 to 999 times 10^15 is read
    as the integer itself, with no word for the scale. *)
Theorem numberToWords_beyond_trillions :
  forall v : Z,
    1 <= v <= 999 ->
    numberToWords (VNum (Z_to_number (v * 10 ^ 15)))
    = numberToWords (VNum (Z_to_number v)).
Proof.
  intros v Hv.
  pose proof (scale_words v 5 Hv ltac:(lia)) as H5.
  pose proof (scale_words v 0 Hv ltac:(lia)) as H0.
  change (1000 ^ Z.of_nat 5) with (10 ^ 15) in H5.
  change (1000 ^ Z.of_nat 0) with 1 in H0. rewrite Z.mul_1_r in H0.
  rewrite H5, H0. reflexivity.
Qed.

Lemma numberToWords_beyond_trillions_witness :
  numberToWords (VNum (Z_to_number (5 * 10 ^ 15))) = str "Five".
Proof.
  refine (eq_trans (numberToWords_beyond_trillions 5 _) _).
  - lia.
  - vm_compute. reflexivity.
Defined.

Lemma negative_words_checked :
  forallb
    (fun v =>
       (v =? 0)
       || jsstring_eqb
            (numberToWords (VNum (Number_unaryMinus (Z_to_number v))))
            (str "Negative " ++ convertGroup v))
    (upTo 1000) = true.
Proof. vm_compute. reflexivity. Qed.

(** X22: The negative of an integer from 1 to 999 is read as ["Negative "] and
    the words of the integer. *)
Theorem numberToWords_negative :
  forall v : Z,
    1 <= v <= 999 ->
    numberToWords (VNum (Number_unaryMinus (Z_to_number v)))
    = str "Negative " ++ numberToWords (VNum (Z_to_number v)).
Proof.
  intros v Hv.
  pose proof (upTo_forallb _ _ negative_words_checked v ltac:(lia)) as H.
  cbv beta in H. apply orb_true_iff in H as [H|H]; [apply Z.eqb_eq in H; lia|].
  apply jsstring_eqb_eq in H. rewrite H.
  pose proof (scale_words v 0 Hv ltac:(lia)) as H0.
  change (1000 ^ Z.of_nat 0) with 1 in H0. rewrite Z.mul_1_r in H0.
  rewrite H0. cbn [scaleSuffix]. now rewrite app_nil_r.
Qed.

Lemma numberToWords_negative_witness :
  numberToWords (VNum (Number_unaryMinus (Z_to_number 42))) = str "Negative Forty-Two".
Proof.
  refine (eq_trans (numberToWords_negative 42 _) _).
  - lia.
  - vm_compute. reflexivity.
Defined.

Lemma groups_checked :
  distinctWords (map convertGroup (upTo 1000)) = true
  /\ forallb
       (fun v =>
          (v =? 0)
          || negb (includes (convertGroup v) (str "undefined"))
             && negb (includes (convertGroup v) (str "  "))
             && match convertGroup v with
                | [] => false
                | c :: _ => negb (isWhiteSpace c)
                end
             && negb (isWhiteSpace (last (convertGroup v) 32%N)))
       (upTo 1000) = true.
Proof. vm_compute. split; reflexivity. Qed.

Lemma distinctWords_nth (l : list jsstring) :
  distinctWords l = true ->
  forall i j, (i < List.length l)%nat -> (j < List.length l)%nat ->
    nth i l [] = nth j l [] -> i = j.
Proof.
  induction l as [|w l IH]; intros H i j Hi Hj E; [cbn [List.length] in Hi; lia|].
  cbn [distinctWords] in H. apply andb_true_iff in H as [Hw Hl].
  apply negb_true_iff in Hw.
  assert (Hnot : forall k, (k < List.length l)%nat -> w <> nth k l []).
  { intros k Hk Ek.
    assert (Hex : existsb (jsstring_eqb w) l = true).
    { apply existsb_exists. exists (nth k l []). split; [now apply nth_In|].
      now apply jsstring_eqb_eq. }
    congruence. }
  cbn [List.length] in Hi, Hj.
  destruct i as [|i], j as [|j]; cbn [nth] in E.
  - reflexivity.
  - exfalso. apply (Hnot j); [lia|exact E].
  - exfalso. apply (Hnot i); [lia|now symmetry].
  - f_equal. apply IH; [exact Hl|lia|lia|exact E].
Qed.

Lemma upTo_nth (n : nat) (v : Z) :
  0 <= v < Z.of_nat n ->
  nth (Z.to_nat v) (map convertGroup (upTo n)) [] = convertGroup v.
Proof.
  intros Hv. unfold upTo.
  rewrite (nth_indep _ [] (convertGroup 0)) by (rewrite !length_map, length_seq; lia).
  rewrite map_map.
  rewrite (map_nth (fun x => convertGroup (Z.of_nat x)) (seq 0 n) 0%nat).
  rewrite seq_nth by lia. f_equal. lia.
Qed.

(** X23: [convertGroup] from 1 to 999: every look-up in its three arrays is
    within bounds (the word [undefined] never comes), the words are not
    empty, with single spaces inside and none at either end; and two
    different integers never get the same words. *)
Theorem convertGroup_words :
  forall v : Z,
    1 <= v <= 999 ->
    includes (convertGroup v) (str "undefined") = false
    /\ includes (convertGroup v) (str "  ") = false
    /\ trim (convertGroup v) = convertGroup v
    /\ convertGroup v <> []
    /\ forall w : Z, 1 <= w <= 999 -> convertGroup w = convertGroup v -> w = v.
Proof.
  intros v Hv.
  pose proof (upTo_forallb _ _ (proj2 groups_checked) v ltac:(lia)) as H.
  cbv beta in H. apply orb_true_iff in H as [H|H]; [apply Z.eqb_eq in H; lia|].
  apply andb_true_iff in H as [H Hlast]. apply andb_true_iff in H as [H Hfirst].
  apply andb_true_iff in H as [Hu Hs].
  apply negb_true_iff in Hu, Hs, Hlast.
  split; [exact Hu|]. split; [exact Hs|].
  assert (Hne : convertGroup v <> []).
  { intros E. rewrite E in Hfirst. discriminate. }
  split; [|split; [exact Hne|]].
  - destruct (convertGroup v) as [|c s] eqn:E; [contradiction|].
    apply negb_true_iff in Hfirst.
    destruct (exists_last (l := c :: s) ltac:(discriminate)) as (s' & d & Es).
    rewrite Es in Hlast |- *. rewrite last_last in Hlast.
    destruct s' as [|c' s'].
    + injection Es as -> ->. unfold trim, trimEnd.
      cbn [rev app trimStart]. rewrite Hfirst.
      cbn [rev app trimStart]. now rewrite Hfirst.
    + injection Es as <- ->. now apply trim_keeps.
  - intros w Hw Ew.
    rewrite <- (upTo_nth 1000 v), <- (upTo_nth 1000 w) in Ew by lia.
    apply (distinctWords_nth _ (proj1 groups_checked)) in Ew;
      [lia|rewrite length_map; unfold upTo; rewrite length_map, length_seq; lia
          |rewrite length_map; unfold upTo; rewrite length_map, length_seq; lia].
Qed.

Lemma convertGroup_words_witness :
  includes (convertGroup 999) (str "undefined") = false
  /\ includes (convertGroup 999) (str "  ") = false
  /\ trim (convertGroup 999) = convertGroup 999
  /\ convertGroup 999 <> []
  /\ forall w : Z, 1 <= w <= 999 -> convertGroup w = convertGroup 999 -> w = 999.
Proof.
  apply (convertGroup_words 999). lia.
Defined.
